(** * SecureCheck Pro: assessment engine and CVE tracker

    A shallow embedding of the server-side logic of the repository:

    - [shared/schema.ts]: the data model;
    - [server/security-checks.ts]: [generateFindings], [calculateSecurityScore];
    - [server/nvd-service.ts]: [rateLimitedFetch], [getSeverity], [getCvssScore],
      [fetchCvesForTechnology], [determineSecurityStatus],
      [checkAllTechnologies], [checkSingleTechnology];
    - [server/storage.ts]: the scan store (the revision that keeps scans in a
      [Map]) and the technology table;
    - [server/routes.ts]: the scan and technology route handlers;
    - [server/pdf-generator.ts] and the results page: the scan summary;
    - the home and results pages: what they show of a score.

    JavaScript numbers that hold counts, scan scores and millisecond
    timestamps are integers ([Z]); CVSS base scores and [Math.random] draws are
    rationals ([Q]); strings are [string]; a [Map<string, _>] is a [gmap].
    Asynchronous code is written in a state-and-exception monad over a
    [World]; what the outside decides (database failures, the order a
    [SELECT] returns rows in, HTTP outcomes and how long they take, random
    draws, fresh identifiers) is read from an [Env] of oracles. *)

From Stdlib Require Import ZArith QArith List Ascii String Lia Bool.
From stdpp Require Import base option list gmap strings pretty.
From Stdlib Require Import Sorted Lqa.

Local Open Scope Z_scope.

(** ** The data model ([shared/schema.ts]) *)

Module Schema.

(** [severityEnum] *)
Inductive Severity := critical | high | medium | low | info.

(** [scanStatusEnum] *)
Inductive ScanStatus := pending | running | completed | cancelled | failed.

(** [checkTypeEnum] *)
Inductive CheckType :=
  ssl_tls | security_headers | vulnerability_scan | owasp_top_10
| port_scan | dns_security.

(** [scanDepth] of [scanConfigSchema] *)
Inductive ScanDepth := quick | standard | deep.

(** [InsertSecurityFinding = Omit<SecurityFinding, "id">] *)
Record InsertSecurityFinding := {
  i_scanId : string;
  i_category : CheckType;
  i_severity : Severity;
  i_title : string;
  i_description : string;
  i_evidence : option string;
  i_recommendation : string;
  i_affectedResource : string;
  i_referenceLinks : option (list string);
  i_complianceTags : option (list string) }.

Record SecurityFinding := {
  f_id : string;
  f_scanId : string;
  f_category : CheckType;
  f_severity : Severity;
  f_title : string;
  f_description : string;
  f_evidence : option string;
  f_recommendation : string;
  f_affectedResource : string;
  f_referenceLinks : option (list string);
  f_complianceTags : option (list string) }.

Record ScanConfig := {
  checkTypes : list CheckType;
  scanDepth : ScanDepth;
  notes : option string }.

Record SecurityScan := {
  scan_id : string;
  target : string;
  scan_status : ScanStatus;
  configuration : ScanConfig;
  initiatedAt : Z;
  completedAt : option Z;
  overallScore : option Z;
  consultantName : option string;
  clientName : option string;
  projectName : option string }.

Record InsertSecurityScan := {
  is_target : string;
  is_configuration : ScanConfig;
  is_consultantName : option string;
  is_clientName : option string;
  is_projectName : option string }.

(** [Partial<SecurityScan>]: any of the properties of a scan; [None] is a
    property that is not there. (A property that is there with the value
    [undefined] is not modelled: no caller passes one.) *)
Record ScanUpdates := {
  us_id : option string;
  us_target : option string;
  us_status : option ScanStatus;
  us_configuration : option ScanConfig;
  us_initiatedAt : option Z;
  us_completedAt : option Z;
  us_overallScore : option Z;
  us_consultantName : option string;
  us_clientName : option string;
  us_projectName : option string }.

(** [{}] *)
Definition noUpdates : ScanUpdates :=
  {| us_id := None; us_target := None; us_status := None; us_configuration := None;
     us_initiatedAt := None; us_completedAt := None; us_overallScore := None;
     us_consultantName := None; us_clientName := None; us_projectName := None |}.

(** [severity] of [cveRecordSchema] *)
Inductive CveSeverity := CRITICAL | HIGH | MEDIUM | LOW | UNKNOWN.

(** [CveRecord]; [affectedVersions] is optional and never written. *)
Record CveRecord := {
  cveId : string;
  cve_description : string;
  cve_severity : CveSeverity;
  cvssScore : option Q;
  publishedDate : string }.

(** [technologyStatusEnum] *)
Inductive TechStatus := secure | vulnerable | unknown | checking.

(** A row of the [technologies] table. *)
Record Technology := {
  tech_id : string;
  name : string;
  vendor : string;
  category : string;
  cpe : option string;
  currentVersion : string;
  latestVersion : option string;
  secureVersion : option string;
  status : TechStatus;
  vulnerabilityCount : Z;
  criticalCount : Z;
  highCount : Z;
  topCves : option (list CveRecord);
  lastCheckedAt : option Z;
  createdAt : option Z }.

(** [insertTechnologySchema]: the table without [id], [createdAt] and
    [lastCheckedAt]; columns with a default may be left out. *)
Record InsertTechnology := {
  it_name : string;
  it_vendor : string;
  it_category : string;
  it_cpe : option string;
  it_currentVersion : string;
  it_latestVersion : option string;
  it_secureVersion : option string;
  it_status : option TechStatus;
  it_vulnerabilityCount : option Z;
  it_criticalCount : option Z;
  it_highCount : option Z;
  it_topCves : option (list CveRecord) }.

(** The properties of a [Partial<Technology>] that callers of
    [updateTechnology] pass. *)
Record TechnologyUpdates := {
  ut_status : option TechStatus;
  ut_vulnerabilityCount : option Z;
  ut_criticalCount : option Z;
  ut_highCount : option Z;
  ut_topCves : option (list CveRecord);
  ut_lastCheckedAt : option Z }.

#[export] Instance ScanStatus_eq_dec : EqDecision ScanStatus.
Proof. solve_decision. Defined.
#[export] Instance TechStatus_eq_dec : EqDecision TechStatus.
Proof. solve_decision. Defined.
#[export] Instance CveSeverity_eq_dec : EqDecision CveSeverity.
Proof. solve_decision. Defined.

End Schema.
Import Schema.

(** ** The external vulnerability database ([server/nvd-service.ts], interfaces) *)

Module NvdApi.

(** [interface NvdCveItem] *)
Record CvssDataV31 := { baseScore31 : Q; baseSeverity31 : string }.
Record CvssMetricV31 := { cvssData31 : CvssDataV31 }.
Record CvssDataV2 := { baseScore2 : Q }.
Record CvssMetricV2 := { cvssData2 : CvssDataV2; baseSeverity2 : option string }.
Record Metrics := {
  cvssMetricV31 : option (list CvssMetricV31);
  cvssMetricV2 : option (list CvssMetricV2) }.
Record Description := { lang : string; d_value : string }.
Record CpeMatch := {
  criteria : string;
  versionEndIncluding : option string;
  versionEndExcluding : option string;
  versionStartIncluding : option string }.
Record ConfigNode := { cpeMatch : option (list CpeMatch) }.
Record Configuration := { nodes : option (list ConfigNode) }.
Record Cve := {
  cve_id : string;
  descriptions : list Description;
  published : string;
  metrics : option Metrics;
  configurations : option (list Configuration) }.
Record NvdCveItem := { cve : Cve }.

(** [interface NvdResponse] *)
Record NvdResponse := { totalResults : Z; vulnerabilities : list NvdCveItem }.

End NvdApi.
Import NvdApi.

(** ** The world the server runs in *)

Module Runtime.

(** [Response] of [fetch], as far as the service reads it: the status
    code, the parsed body ([None] when [response.json()] rejects), and how
    long (ms) [response.json()] takes to read and parse the body. *)
Record HttpResponse := {
  resp_status : Z;
  resp_json : option NvdResponse;
  resp_readTime : nat }.

(** [response.ok] *)
Definition resp_ok (r : HttpResponse) : bool :=
  (200 <=? resp_status r) && (resp_status r <=? 299).

(** What [fetch] does: it rejects, or resolves to a response. *)
Inductive FetchOutcome :=
| NetworkFailure
| Responded (r : HttpResponse).

(** A callback handed to [setTimeout] by the scan route: the time it is
    due and the scan object it closes over. *)
Record Timer := { due : Z; t_scan : SecurityScan }.

(** The state of the server and what has left it: the two [Map]s of the
    scan store, the [technologies] table, the time, the [lastRequestTime]
    of the rate limiter, the requests sent to the vulnerability database
    (the times they left at and the search terms they asked for, newest
    first), the pending timers, and the number of interactions with the
    outside so far. *)
Record World := {
  scans : gmap string SecurityScan;
  findings : gmap string (list SecurityFinding);
  technologies : list Technology;
  clock : Z;
  lastRequestTime : Z;
  requests : list Z;
  requestTerms : list string;
  timers : list Timer;
  ticks : nat }.

Definition set_scans (v : gmap string SecurityScan) (w : World) : World :=
  {| scans := v; findings := findings w; technologies := technologies w;
     clock := clock w; lastRequestTime := lastRequestTime w;
     requests := requests w; requestTerms := requestTerms w;
     timers := timers w; ticks := ticks w |}.
Definition set_findings (v : gmap string (list SecurityFinding)) (w : World) : World :=
  {| scans := scans w; findings := v; technologies := technologies w;
     clock := clock w; lastRequestTime := lastRequestTime w;
     requests := requests w; requestTerms := requestTerms w;
     timers := timers w; ticks := ticks w |}.
Definition set_technologies (v : list Technology) (w : World) : World :=
  {| scans := scans w; findings := findings w; technologies := v;
     clock := clock w; lastRequestTime := lastRequestTime w;
     requests := requests w; requestTerms := requestTerms w;
     timers := timers w; ticks := ticks w |}.
Definition set_clock (v : Z) (w : World) : World :=
  {| scans := scans w; findings := findings w; technologies := technologies w;
     clock := v; lastRequestTime := lastRequestTime w;
     requests := requests w; requestTerms := requestTerms w;
     timers := timers w; ticks := ticks w |}.
Definition set_lastRequestTime (v : Z) (w : World) : World :=
  {| scans := scans w; findings := findings w; technologies := technologies w;
     clock := clock w; lastRequestTime := v;
     requests := requests w; requestTerms := requestTerms w;
     timers := timers w; ticks := ticks w |}.
Definition set_requests (v : list Z) (w : World) : World :=
  {| scans := scans w; findings := findings w; technologies := technologies w;
     clock := clock w; lastRequestTime := lastRequestTime w;
     requests := v; requestTerms := requestTerms w;
     timers := timers w; ticks := ticks w |}.
Definition set_requestTerms (v : list string) (w : World) : World :=
  {| scans := scans w; findings := findings w; technologies := technologies w;
     clock := clock w; lastRequestTime := lastRequestTime w;
     requests := requests w; requestTerms := v;
     timers := timers w; ticks := ticks w |}.
Definition set_timers (v : list Timer) (w : World) : World :=
  {| scans := scans w; findings := findings w; technologies := technologies w;
     clock := clock w; lastRequestTime := lastRequestTime w;
     requests := requests w; requestTerms := requestTerms w;
     timers := v; ticks := ticks w |}.
Definition set_ticks (v : nat) (w : World) : World :=
  {| scans := scans w; findings := findings w; technologies := technologies w;
     clock := clock w; lastRequestTime := lastRequestTime w;
     requests := requests w; requestTerms := requestTerms w;
     timers := timers w; ticks := v |}.

(** The server as it starts: empty stores, [lastRequestTime = 0]. *)
Definition boot (now : Z) : World :=
  {| scans := ∅; findings := ∅; technologies := [];
     clock := now; lastRequestTime := 0;
     requests := []; requestTerms := []; timers := []; ticks := 0 |}.

(** What the outside decides, by the number of the interaction ([ticks]):
    whether a database statement fails, what an HTTP request for a search
    term comes to and how long (ms) it takes to do so, in which order a
    [SELECT] without [ORDER BY] returns the rows (see [arrange]), the next
    [Math.random()], the next fresh identifier. *)
Record Env := {
  dbFails : nat -> bool;
  fetchOutcome : nat -> string -> FetchOutcome;
  latency : nat -> nat;
  rowOrder : nat -> list nat;
  random : nat -> Q;
  uuid : nat -> string }.

(** The orders a set of rows can come in. A code gives, for each row, the
    place it takes among the rows after it (a place beyond the end is the
    end); the empty code keeps the rows as they are, and every order is the
    arrangement by some code. *)
Fixpoint insertAt {A} (n : nat) (x : A) (l : list A) : list A :=
  match n, l with
  | O, _ => x :: l
  | S _, [] => [x]
  | S n', y :: l' => y :: insertAt n' x l'
  end.

Fixpoint arrange {A} (code : list nat) (l : list A) : list A :=
  match l with
  | [] => []
  | x :: l' => insertAt (hd O code) x (arrange (tl code) l')
  end.

(** What a rejected promise carries. *)
Inductive Error :=
| DbError
| FetchFailed
| NvdApiError (status : Z)
| JsonError.

Inductive Result (A : Type) :=
| Ok (a : A)
| Throw (e : Error).
Arguments Ok {A} _.
Arguments Throw {A} _.

(** An asynchronous computation: it runs on a world, and resolves or
    rejects. *)
Definition M (A : Type) : Type := World -> Result A * World.

Definition ret {A} (a : A) : M A := fun w => (Ok a, w).
Definition throw {A} (e : Error) : M A := fun w => (Throw e, w).
Definition bind {A B} (m : M A) (k : A -> M B) : M B :=
  fun w => match m w with
           | (Ok a, w') => k a w'
           | (Throw e, w') => (Throw e, w')
           end.
(** [try { m } catch (error) { h }] *)
Definition try_catch {A} (m : M A) (h : Error -> M A) : M A :=
  fun w => match m w with
           | (Ok a, w') => (Ok a, w')
           | (Throw e, w') => h e w'
           end.
Definition gets {A} (f : World -> A) : M A := fun w => (Ok (f w), w).
Definition modify (f : World -> World) : M unit := fun w => (Ok tt, f w).

(** [for (const x of l) { await body(x) }] *)
Fixpoint for_each {A} (l : list A) (body : A -> M unit) : M unit :=
  match l with
  | [] => ret tt
  | x :: l' => bind (body x) (fun _ => for_each l' body)
  end.

(** [Date.now()] and [new Date()] *)
Definition now : M Z := gets clock.

(** [await new Promise(resolve => setTimeout(resolve, d))] *)
Definition sleep (d : Z) : M unit := modify (fun w => set_clock (clock w + d) w).

Definition tick : M nat :=
  fun w => (Ok (ticks w), set_ticks (S (ticks w)) w).

End Runtime.
Import Runtime.

Declare Scope monad_scope.
Delimit Scope monad_scope with monad.
Notation "'let*' x ':=' m 'in' k" := (bind m (fun x => k))
  (at level 10, x name, m at level 100, k at level 200) : monad_scope.
Notation "m ';;' k" := (bind m (fun _ => k))
  (at level 100, k at level 200, right associativity) : monad_scope.

(** ** Simulated checks and scoring ([server/security-checks.ts]) *)

Module SecurityChecks.

(** [interface FindingTemplate] *)
Record FindingTemplate := {
  title : string;
  description : string;
  recommendation : string;
  severity : Severity;
  evidence : option string;
  referenceLinks : option (list string);
  complianceTags : option (list string) }.

(** [findingProbability] *)
Definition findingProbability (depth : ScanDepth) : Q :=
  match depth with
  | quick => 3 # 10
  | standard => 5 # 10
  | deep => 7 # 10
  end.

Section Generator.
Variable env : Env.
(** The static catalogue [findingsByCheckType]. *)
Variable findingsByCheckType : CheckType -> list FindingTemplate.

(** [Math.random()] *)
Definition mathRandom : M Q :=
  (let* n := tick in ret (random env n))%monad.

(** The inner loop: one draw per template. *)
Fixpoint sampleTemplates (scanId target : string) (checkType : CheckType)
    (depth : ScanDepth) (templates : list FindingTemplate)
    (acc : list InsertSecurityFinding) : M (list InsertSecurityFinding) :=
  match templates with
  | [] => ret acc
  | template :: rest =>
      (let* r := mathRandom in
       if Qlt_le_dec r (findingProbability depth) then
         sampleTemplates scanId target checkType depth rest
           (acc ++ [ {| i_scanId := scanId;
                        i_category := checkType;
                        i_severity := severity template;
                        i_title := title template;
                        i_description := description template;
                        i_evidence := evidence template;
                        i_recommendation := recommendation template;
                        i_affectedResource := target;
                        i_referenceLinks := referenceLinks template;
                        i_complianceTags := complianceTags template |} ])
       else sampleTemplates scanId target checkType depth rest acc)%monad
  end.

(** The outer loop over the requested check types. *)
Fixpoint sampleCheckTypes (scanId target : string) (types : list CheckType)
    (depth : ScanDepth) (acc : list InsertSecurityFinding)
    : M (list InsertSecurityFinding) :=
  match types with
  | [] => ret acc
  | checkType :: rest =>
      (let* acc' := sampleTemplates scanId target checkType depth
                      (findingsByCheckType checkType) acc in
       sampleCheckTypes scanId target rest depth acc')%monad
  end.

Definition generateFindings (scanId target : string)
    (types : list CheckType) (depth : ScanDepth)
    : M (list InsertSecurityFinding) :=
  sampleCheckTypes scanId target types depth [].
End Generator.

(** The argument type of [calculateSecurityScore] is the structural type
    [{ severity: Severity }[]]: anything that carries a severity. *)
Class HasSeverity (A : Type) := severity_of : A -> Severity.

#[export] Instance Severity_HasSeverity : HasSeverity Severity := fun s => s.
#[export] Instance Insert_HasSeverity : HasSeverity InsertSecurityFinding := i_severity.
#[export] Instance Finding_HasSeverity : HasSeverity SecurityFinding := f_severity.

Definition severityDeductions (s : Severity) : Z :=
  match s with
  | critical => 25
  | high => 15
  | medium => 8
  | low => 3
  | info => 0
  end.

(** [for (const finding of findings) totalDeduction += ...] *)
Definition totalDeduction {A} `{HasSeverity A} (fs : list A) : Z :=
  fold_left (fun acc finding => acc + severityDeductions (severity_of finding)) fs 0.

Definition calculateSecurityScore {A} `{HasSeverity A} (fs : list A) : Z :=
  if (length fs =? 0)%nat then 100
  else Z.max 0 (Z.min 100 (100 - totalDeduction fs)).

End SecurityChecks.
Import SecurityChecks.

(** ** The CVE service ([server/nvd-service.ts]) *)

Module NvdService.

Definition RATE_LIMIT_DELAY : Z := 6500.

(** [String.prototype.toUpperCase] and [toLowerCase] on ASCII text: the
    letters change case, every other character stays. *)
Definition upper_ascii (c : ascii) : ascii :=
  let n := nat_of_ascii c in
  if ((97 <=? n) && (n <=? 122))%nat then ascii_of_nat (n - 32) else c.

Definition lower_ascii (c : ascii) : ascii :=
  let n := nat_of_ascii c in
  if ((65 <=? n) && (n <=? 90))%nat then ascii_of_nat (n + 32) else c.

Fixpoint toUpperCase (s : string) : string :=
  match s with
  | EmptyString => EmptyString
  | String c s' => String (upper_ascii c) (toUpperCase s')
  end.

Fixpoint toLowerCase (s : string) : string :=
  match s with
  | EmptyString => EmptyString
  | String c s' => String (lower_ascii c) (toLowerCase s')
  end.

(** A string is truthy when it is not empty. *)
Definition truthy_string (s : string) : bool :=
  match s with EmptyString => false | String _ _ => true end.

(** The first half of [rateLimitedFetch], up to its [await]: how long the
    caller has to sleep, if at all. *)
Definition rateLimitWait (now_ms last : Z) : option Z :=
  let timeSinceLastRequest := now_ms - last in
  if timeSinceLastRequest <? RATE_LIMIT_DELAY
  then Some (RATE_LIMIT_DELAY - timeSinceLastRequest)
  else None.

(** [item.cve.metrics?.cvssMetricV31?.[0]] *)
Definition firstV31 (item : NvdCveItem) : option CvssMetricV31 :=
  match metrics (cve item) with
  | Some m => match cvssMetricV31 m with Some l => head l | None => None end
  | None => None
  end.

(** [item.cve.metrics?.cvssMetricV2?.[0]] *)
Definition firstV2 (item : NvdCveItem) : option CvssMetricV2 :=
  match metrics (cve item) with
  | Some m => match cvssMetricV2 m with Some l => head l | None => None end
  | None => None
  end.

(** The second half of [getSeverity], from [const v2 = ...] on. *)
Definition getSeverityV2 (item : NvdCveItem) : CveSeverity :=
  match firstV2 item with
  | Some v2 =>
      match baseSeverity2 v2 with
      | Some label =>
          if truthy_string label then
            let severity := toUpperCase label in
            if String.eqb severity "HIGH" then HIGH
            else if String.eqb severity "MEDIUM" then MEDIUM
            else if String.eqb severity "LOW" then LOW
            else UNKNOWN
          else UNKNOWN
      | None => UNKNOWN
      end
  | None => UNKNOWN
  end.

Definition getSeverity (item : NvdCveItem) : CveSeverity :=
  match firstV31 item with
  | Some v31 =>
      let severity := toUpperCase (baseSeverity31 (cvssData31 v31)) in
      if String.eqb severity "CRITICAL" then CRITICAL
      else if String.eqb severity "HIGH" then HIGH
      else if String.eqb severity "MEDIUM" then MEDIUM
      else if String.eqb severity "LOW" then LOW
      else getSeverityV2 item
  | None => getSeverityV2 item
  end.

Definition getCvssScore (item : NvdCveItem) : option Q :=
  match firstV31 item with
  | Some v31 => Some (baseScore31 (cvssData31 v31))
  | None =>
      match firstV2 item with
      | Some v2 => Some (baseScore2 (cvssData2 v2))
      | None => None
      end
  end.

(** The callback of [data.vulnerabilities.map]. *)
Definition toCveRecord (item : NvdCveItem) : CveRecord :=
  {| cveId := cve_id (cve item);
     cve_description :=
       match List.find (fun d => String.eqb (lang d) "en") (descriptions (cve item)) with
       | Some d => if truthy_string (d_value d) then d_value d
                   else "No description available"
       | None => "No description available"
       end;
     cve_severity := getSeverity item;
     cvssScore := getCvssScore item;
     publishedDate := published (cve item) |}.

Definition severityOrder (s : CveSeverity) : Z :=
  match s with
  | CRITICAL => 0 | HIGH => 1 | MEDIUM => 2 | LOW => 3 | UNKNOWN => 4
  end.

(** [c.cvssScore || 0] *)
Definition scoreOrZero (c : CveRecord) : Q :=
  match cvssScore c with Some q => q | None => 0%Q end.

(** The comparator handed to [sort]. *)
Definition compareCves (a b : CveRecord) : Q :=
  let severityDiff := severityOrder (cve_severity a) - severityOrder (cve_severity b) in
  if negb (severityDiff =? 0) then inject_Z severityDiff
  else (scoreOrZero b - scoreOrZero a)%Q.

(** [Array.prototype.sort] is stable: an element goes in front of the first
    later element it does not compare greater than. *)
Fixpoint insertSorted {A} (cmp : A -> A -> Q) (x : A) (l : list A) : list A :=
  match l with
  | [] => [x]
  | y :: l' => if Qle_bool (cmp x y) 0 then x :: y :: l'
               else y :: insertSorted cmp x l'
  end.

Definition sort {A} (cmp : A -> A -> Q) (l : list A) : list A :=
  fold_right (insertSorted cmp) [] l.

(** The value [fetchCvesForTechnology] resolves to. *)
Record CveSummary := {
  cves : list CveRecord;
  summary_topCves : list CveRecord;
  totalCount : Z;
  summary_criticalCount : Z;
  summary_highCount : Z }.

Definition zeroResult : CveSummary :=
  {| cves := []; summary_topCves := []; totalCount := 0;
     summary_criticalCount := 0; summary_highCount := 0 |}.

(** The body of the [try] once the response has been parsed. *)
Definition summarise (data : NvdResponse) : CveSummary :=
  let cves := List.map toCveRecord (vulnerabilities data) in
  let criticalCount :=
    Z.of_nat (length (List.filter (fun c => bool_decide (cve_severity c = CRITICAL)) cves)) in
  let highCount :=
    Z.of_nat (length (List.filter (fun c => bool_decide (cve_severity c = HIGH)) cves)) in
  let topCves := take 5 (sort compareCves cves) in
  {| cves := cves; summary_topCves := topCves; totalCount := totalResults data;
     summary_criticalCount := criticalCount; summary_highCount := highCount |}.

Definition determineSecurityStatus
    (totalVulnerabilities criticalCount highCount : Z) : TechStatus :=
  if (0 <? criticalCount) || (5 <? highCount) then vulnerable
  else if totalVulnerabilities =? 0 then secure
  else if (0 <? highCount) || (10 <? totalVulnerabilities) then vulnerable
  else secure.

(** [{ status: s }] *)
Definition statusOnly (s : TechStatus) : TechnologyUpdates :=
  {| ut_status := Some s; ut_vulnerabilityCount := None; ut_criticalCount := None;
     ut_highCount := None; ut_topCves := None; ut_lastCheckedAt := None |}.

(** The object both checks write back. *)
Definition checkedUpdates (r : CveSummary) (s : TechStatus) (date : Z)
    : TechnologyUpdates :=
  {| ut_status := Some s;
     ut_vulnerabilityCount := Some (totalCount r);
     ut_criticalCount := Some (summary_criticalCount r);
     ut_highCount := Some (summary_highCount r);
     ut_topCves := Some (summary_topCves r);
     ut_lastCheckedAt := Some date |}.

Section Service.
Variable env : Env.

(** [await fetch(url)]: the request leaves now; the outside decides what
    comes back and how long that takes. The URL is the fixed base followed
    by the encoded search term, so the term stands for it. *)
Definition fetch (searchTerm : string) : M HttpResponse :=
  (let* n := tick in
   let* t := now in
   modify (fun w => set_requestTerms (searchTerm :: requestTerms w)
                      (set_requests (t :: requests w) w)) ;;
   sleep (Z.of_nat (latency env n)) ;;
   match fetchOutcome env n searchTerm with
   | NetworkFailure => throw FetchFailed
   | Responded r => ret r
   end)%monad.

Definition rateLimitedFetch (searchTerm : string) : M HttpResponse :=
  (let* now_ms := now in
   let* last := gets lastRequestTime in
   match rateLimitWait now_ms last with
   | Some d => sleep d
   | None => ret tt
   end ;;
   let* t := now in
   modify (set_lastRequestTime t) ;;
   fetch searchTerm)%monad.

(** [await response.json()] *)
Definition json (r : HttpResponse) : M NvdResponse :=
  (sleep (Z.of_nat (resp_readTime r)) ;;
   match resp_json r with
   | Some data => ret data
   | None => throw JsonError
   end)%monad.

Definition fetchCvesForTechnology (tech : Technology) : M CveSummary :=
  try_catch
    (let searchTerm := toLowerCase (vendor tech ++ " " ++ name tech) in
     let* response := rateLimitedFetch searchTerm in
     if negb (resp_ok response) then
       if resp_status response =? 429 then ret zeroResult
       else throw (NvdApiError (resp_status response))
     else
       let* data := json response in
       ret (summarise data))%monad
    (fun _ => ret zeroResult).

Section Tracker.
(** The two callbacks the routes hand in. *)
Variable getAllTechnologies : M (list Technology).
Variable updateTechnology : string -> TechnologyUpdates -> M (option Technology).

Definition checkAllTechnologies : M unit :=
  (let* technologies := getAllTechnologies in
   for_each technologies (fun tech =>
     try_catch
       (updateTechnology (tech_id tech) (statusOnly checking) ;;
        let* r := fetchCvesForTechnology tech in
        let status := determineSecurityStatus (totalCount r)
                        (summary_criticalCount r) (summary_highCount r) in
        let* date := now in
        updateTechnology (tech_id tech) (checkedUpdates r status date) ;;
        ret tt)
       (fun _ =>
        updateTechnology (tech_id tech) (statusOnly unknown) ;;
        ret tt)))%monad.

Definition checkSingleTechnology (tech : Technology) : M (option Technology) :=
  (updateTechnology (tech_id tech) (statusOnly checking) ;;
   let* r := fetchCvesForTechnology tech in
   let status := determineSecurityStatus (totalCount r)
                   (summary_criticalCount r) (summary_highCount r) in
   let* date := now in
   updateTechnology (tech_id tech) (checkedUpdates r status date))%monad.
End Tracker.
End Service.

End NvdService.
Import NvdService.

(** ** Persistence ([server/storage.ts]) *)

Module Storage.

(** [defaultTechnologies] *)
Definition defaultTechnology (n v c p ver : string) : InsertTechnology :=
  {| it_name := n; it_vendor := v; it_category := c; it_cpe := Some p;
     it_currentVersion := ver; it_latestVersion := None; it_secureVersion := None;
     it_status := Some unknown; it_vulnerabilityCount := Some 0;
     it_criticalCount := Some 0; it_highCount := Some 0; it_topCves := None |}.

Definition defaultTechnologies : list InsertTechnology :=
  [ defaultTechnology "Node.js" "nodejs" "Runtime" "cpe:2.3:a:nodejs:node.js" "20.10.0";
    defaultTechnology "React" "facebook" "Frontend" "cpe:2.3:a:facebook:react" "18.2.0";
    defaultTechnology "Express" "expressjs" "Backend" "cpe:2.3:a:expressjs:express" "4.18.2";
    defaultTechnology "Python" "python" "Language" "cpe:2.3:a:python:python" "3.12.0";
    defaultTechnology "Django" "djangoproject" "Backend" "cpe:2.3:a:djangoproject:django" "5.0";
    defaultTechnology "PostgreSQL" "postgresql" "Database" "cpe:2.3:a:postgresql:postgresql" "16.1";
    defaultTechnology "MySQL" "oracle" "Database" "cpe:2.3:a:oracle:mysql" "8.2.0";
    defaultTechnology "MongoDB" "mongodb" "Database" "cpe:2.3:a:mongodb:mongodb" "7.0.4";
    defaultTechnology "Nginx" "nginx" "Server" "cpe:2.3:a:nginx:nginx" "1.25.3";
    defaultTechnology "Apache HTTP Server" "apache" "Server" "cpe:2.3:a:apache:http_server" "2.4.58";
    defaultTechnology "PHP" "php" "Language" "cpe:2.3:a:php:php" "8.3.0";
    defaultTechnology "Laravel" "laravel" "Backend" "cpe:2.3:a:laravel:laravel" "10.35.0";
    defaultTechnology "Vue.js" "vuejs" "Frontend" "cpe:2.3:a:vuejs:vue" "3.4.0";
    defaultTechnology "Angular" "google" "Frontend" "cpe:2.3:a:google:angular" "17.0.0";
    defaultTechnology "Redis" "redis" "Database" "cpe:2.3:a:redis:redis" "7.2.3";
    defaultTechnology "Docker" "docker" "DevOps" "cpe:2.3:a:docker:docker" "24.0.7";
    defaultTechnology "Kubernetes" "kubernetes" "DevOps" "cpe:2.3:a:kubernetes:kubernetes" "1.29.0";
    defaultTechnology "WordPress" "wordpress" "CMS" "cpe:2.3:a:wordpress:wordpress" "6.4.2";
    defaultTechnology "Spring Boot" "vmware" "Backend" "cpe:2.3:a:vmware:spring_boot" "3.2.0";
    defaultTechnology "Ruby on Rails" "rubyonrails" "Backend" "cpe:2.3:a:rubyonrails:rails" "7.1.2" ].

(** [{ ...scan, ...updates }] *)
Definition spreadScan (scan : SecurityScan) (updates : ScanUpdates) : SecurityScan :=
  {| scan_id := default (scan_id scan) (us_id updates);
     target := default (target scan) (us_target updates);
     scan_status := default (scan_status scan) (us_status updates);
     configuration := default (configuration scan) (us_configuration updates);
     initiatedAt := default (initiatedAt scan) (us_initiatedAt updates);
     completedAt := match us_completedAt updates with
                    | Some t => Some t | None => completedAt scan end;
     overallScore := match us_overallScore updates with
                     | Some v => Some v | None => overallScore scan end;
     consultantName := match us_consultantName updates with
                       | Some v => Some v | None => consultantName scan end;
     clientName := match us_clientName updates with
                   | Some v => Some v | None => clientName scan end;
     projectName := match us_projectName updates with
                    | Some v => Some v | None => projectName scan end |}.

(** [UPDATE technologies SET updates] on one row. *)
Definition setColumns (updates : TechnologyUpdates) (row : Technology) : Technology :=
  {| tech_id := tech_id row;
     name := name row;
     vendor := vendor row;
     category := category row;
     cpe := cpe row;
     currentVersion := currentVersion row;
     latestVersion := latestVersion row;
     secureVersion := secureVersion row;
     status := default (status row) (ut_status updates);
     vulnerabilityCount := default (vulnerabilityCount row) (ut_vulnerabilityCount updates);
     criticalCount := default (criticalCount row) (ut_criticalCount updates);
     highCount := default (highCount row) (ut_highCount updates);
     topCves := match ut_topCves updates with
                | Some l => Some l | None => topCves row end;
     lastCheckedAt := match ut_lastCheckedAt updates with
                      | Some t => Some t | None => lastCheckedAt row end;
     createdAt := createdAt row |}.

(** [WHERE id = ...] *)
Definition hasId (id : string) (row : Technology) : bool := String.eqb (tech_id row) id.

Section Storage.
Variable env : Env.

(** [randomUUID()] *)
Definition randomUUID : M string :=
  (let* n := tick in ret (uuid env n))%monad.

Definition createScan (insertScan : InsertSecurityScan) : M SecurityScan :=
  (let* id := randomUUID in
   let* date := now in
   let scan := {| scan_id := id;
                  target := is_target insertScan;
                  scan_status := pending;
                  configuration := is_configuration insertScan;
                  initiatedAt := date;
                  completedAt := None;
                  overallScore := None;
                  consultantName := is_consultantName insertScan;
                  clientName := is_clientName insertScan;
                  projectName := is_projectName insertScan |} in
   modify (fun w => set_scans (<[id := scan]> (scans w)) w) ;;
   modify (fun w => set_findings (<[id := []]> (findings w)) w) ;;
   ret scan)%monad.

Definition getScan (id : string) : M (option SecurityScan) :=
  gets (fun w => scans w !! id).

Definition updateScan (id : string) (updates : ScanUpdates) : M (option SecurityScan) :=
  (let* found := gets (fun w => scans w !! id) in
   match found with
   | None => ret None
   | Some scan =>
       let updatedScan := spreadScan scan updates in
       modify (fun w => set_scans (<[id := updatedScan]> (scans w)) w) ;;
       ret (Some updatedScan)
   end)%monad.

Definition createFinding (finding : InsertSecurityFinding) : M SecurityFinding :=
  (let* id := randomUUID in
   let newFinding := {| f_id := id;
                        f_scanId := i_scanId finding;
                        f_category := i_category finding;
                        f_severity := i_severity finding;
                        f_title := i_title finding;
                        f_description := i_description finding;
                        f_evidence := i_evidence finding;
                        f_recommendation := i_recommendation finding;
                        f_affectedResource := i_affectedResource finding;
                        f_referenceLinks := i_referenceLinks finding;
                        f_complianceTags := i_complianceTags finding |} in
   let* scanFindings := gets (fun w => default [] (findings w !! i_scanId finding)) in
   modify (fun w => set_findings
             (<[i_scanId finding := scanFindings ++ [newFinding]]> (findings w)) w) ;;
   ret newFinding)%monad.

Definition getFindings (scanId : string) : M (list SecurityFinding) :=
  gets (fun w => default [] (findings w !! scanId)).

(** A statement sent to the database: it may fail. *)
Definition dbStatement : M nat :=
  (let* n := tick in
   if dbFails env n then throw DbError else ret n)%monad.

(** [SELECT * FROM technologies]: no [ORDER BY], so the rows come in the
    order the database chooses. *)
Definition getAllTechnologies : M (list Technology) :=
  (let* n := dbStatement in
   let* rows := gets technologies in
   ret (arrange (rowOrder env n) rows))%monad.

(** [SELECT ... WHERE id = ...]: [id] is the primary key, so the statement
    returns at most one row of a table built by [createTechnology]; of a
    table that holds more rows with the identifier the model takes the
    first. *)
Definition getTechnology (id : string) : M (option Technology) :=
  (dbStatement ;;
   let* rows := gets (fun w => List.filter (hasId id) (technologies w)) in
   ret (head rows))%monad.

(** [INSERT ... RETURNING]: [id] defaults to [gen_random_uuid()] and is
    the primary key, [createdAt] defaults to now. *)
Definition createTechnology (tech : InsertTechnology) : M Technology :=
  (let* n := dbStatement in
   let* date := now in
   let newTech := {| tech_id := uuid env n;
                     name := it_name tech;
                     vendor := it_vendor tech;
                     category := it_category tech;
                     cpe := it_cpe tech;
                     currentVersion := it_currentVersion tech;
                     latestVersion := it_latestVersion tech;
                     secureVersion := it_secureVersion tech;
                     status := default unknown (it_status tech);
                     vulnerabilityCount := default 0 (it_vulnerabilityCount tech);
                     criticalCount := default 0 (it_criticalCount tech);
                     highCount := default 0 (it_highCount tech);
                     topCves := it_topCves tech;
                     lastCheckedAt := None;
                     createdAt := Some date |} in
   let* rows := gets technologies in
   if existsb (hasId (tech_id newTech)) rows then throw DbError
   else
     modify (set_technologies (rows ++ [newTech])) ;;
     ret newTech)%monad.

(** [UPDATE technologies SET ... WHERE id = ... RETURNING *]. The list is
    the table as the model holds it; the order a reader gets the rows in is
    decided where they are read ([getAllTechnologies]). *)
Definition updateTechnology (id : string) (updates : TechnologyUpdates)
    : M (option Technology) :=
  (dbStatement ;;
   let* rows := gets technologies in
   let rows' := List.map (fun row => if hasId id row then setColumns updates row else row) rows in
   modify (set_technologies rows') ;;
   ret (head (List.filter (hasId id) rows')))%monad.

Definition deleteTechnology (id : string) : M bool :=
  (dbStatement ;;
   modify (fun w => set_technologies
             (List.filter (fun row => negb (hasId id row)) (technologies w)) w) ;;
   ret true)%monad.

Definition seedTechnologies : M unit :=
  (let* existing := getAllTechnologies in
   if (length existing =? 0)%nat then
     for_each defaultTechnologies (fun tech => createTechnology tech ;; ret tt)
   else ret tt)%monad.
End Storage.

End Storage.
Import Storage.

(** ** Route handlers ([server/routes.ts]) *)

Module Routes.

(** What a handler sends: [res.status(code).json(body)]. *)
Inductive Json :=
| ScanJson (scan : option SecurityScan)
| FindingsJson (l : list SecurityFinding)
| TechnologyJson (tech : option Technology)
| SuccessJson (success : bool)
| ErrorJson (error : string).

Record Reply := { code : Z; body : Json }.

Definition send (c : Z) (j : Json) : M Reply := ret {| code := c; body := j |}.

(** [scanDuration] *)
Definition scanDuration (depth : ScanDepth) : Z :=
  match depth with
  | quick => 3000
  | standard => 5000
  | deep => 8000
  end.

(** [{ status: "completed", completedAt, overallScore }] *)
Definition completedUpdates (date score : Z) : ScanUpdates :=
  {| us_id := None; us_target := None;
     us_status := Some completed;
     us_configuration := None; us_initiatedAt := None;
     us_completedAt := Some date;
     us_overallScore := Some score;
     us_consultantName := None; us_clientName := None; us_projectName := None |}.

(** [{ status: "cancelled", completedAt }] *)
Definition cancelledUpdates (date : Z) : ScanUpdates :=
  {| us_id := None; us_target := None;
     us_status := Some cancelled;
     us_configuration := None; us_initiatedAt := None;
     us_completedAt := Some date;
     us_overallScore := None;
     us_consultantName := None; us_clientName := None; us_projectName := None |}.

(** [{ status: s }] *)
Definition scanStatusOnly (s : ScanStatus) : ScanUpdates :=
  {| us_id := None; us_target := None;
     us_status := Some s;
     us_configuration := None; us_initiatedAt := None;
     us_completedAt := None; us_overallScore := None;
     us_consultantName := None; us_clientName := None; us_projectName := None |}.

Section Handlers.
Variable env : Env.
Variable findingsByCheckType : CheckType -> list FindingTemplate.
(** The [target] part of the insert schema: a URL or a domain name. *)
Variable validTarget : string -> bool.

(** [insertScanSchema.safeParse(req.body).success] *)
Definition safeParseScan (reqBody : InsertSecurityScan) : bool :=
  validTarget (is_target reqBody)
  && (1 <=? length (checkTypes (is_configuration reqBody)))%nat.

(** [app.get("/api/scans/:id")] *)
Definition getScanRoute (id : string) : M Reply :=
  try_catch
    (let* scan := getScan id in
     match scan with
     | None => send 404 (ErrorJson "Scan not found")
     | Some s => send 200 (ScanJson (Some s))
     end)%monad
    (fun _ => send 500 (ErrorJson "Failed to fetch scan")).

(** [app.get("/api/scans/:id/findings")] *)
Definition getFindingsRoute (id : string) : M Reply :=
  try_catch
    (let* l := getFindings id in send 200 (FindingsJson l))%monad
    (fun _ => send 500 (ErrorJson "Failed to fetch findings")).

(** The callback handed to [setTimeout] by the create route. *)
Definition scanCompletion (scan : SecurityScan) : M unit :=
  try_catch
    (let* findingsData :=
       generateFindings env findingsByCheckType (scan_id scan) (target scan)
         (checkTypes (configuration scan)) (scanDepth (configuration scan)) in
     for_each findingsData (fun finding => createFinding env finding ;; ret tt) ;;
     let score := calculateSecurityScore findingsData in
     let* date := now in
     updateScan (scan_id scan) (completedUpdates date score) ;;
     ret tt)%monad
    (fun _ => updateScan (scan_id scan) (scanStatusOnly failed) ;; ret tt)%monad.

(** [setTimeout(callback, delay)] *)
Definition setTimeout (scan : SecurityScan) (delay : Z) : M unit :=
  modify (fun w => set_timers (timers w ++ [ {| due := clock w + delay; t_scan := scan |} ]) w).

(** [app.post("/api/scans")] *)
Definition postScanRoute (reqBody : InsertSecurityScan) : M Reply :=
  try_catch
    (if negb (safeParseScan reqBody) then send 400 (ErrorJson "Validation failed")
     else
       let* scan := createScan env reqBody in
       updateScan (scan_id scan) (scanStatusOnly running) ;;
       setTimeout scan (scanDuration (scanDepth (configuration scan))) ;;
       send 201 (ScanJson (Some scan)))%monad
    (fun _ => send 500 (ErrorJson "Failed to create scan")).

(** [app.patch("/api/scans/:id/cancel")], from the point where
    [storage.getScan] has resolved to [scan]. *)
Definition cancelAfterRead (id : string) (scan : option SecurityScan) : M Reply :=
  match scan with
  | None => send 404 (ErrorJson "Scan not found")
  | Some s =>
      if negb (bool_decide (scan_status s = running))
         && negb (bool_decide (scan_status s = pending))
      then send 400 (ErrorJson "Scan cannot be cancelled")
      else
        (let* date := now in
         let* updatedScan := updateScan id (cancelledUpdates date) in
         send 200 (ScanJson updatedScan))%monad
  end.

Definition cancelFailed : Error -> M Reply :=
  fun _ => send 500 (ErrorJson "Failed to cancel scan").

(** [app.patch("/api/scans/:id/cancel")] *)
Definition cancelScanRoute (id : string) : M Reply :=
  try_catch
    (let* scan := getScan id in cancelAfterRead id scan)%monad
    cancelFailed.

(** [app.delete("/api/technologies/:id")] *)
Definition deleteTechnologyRoute (id : string) : M Reply :=
  try_catch
    (deleteTechnology env id ;; send 200 (SuccessJson true))%monad
    (fun _ => send 500 (ErrorJson "Failed to delete technology")).

(** [app.post("/api/technologies/:id/check")] *)
Definition checkTechnologyRoute (id : string) : M Reply :=
  try_catch
    (let* tech := getTechnology env id in
     match tech with
     | None => send 404 (ErrorJson "Technology not found")
     | Some t =>
         let* updated := checkSingleTechnology env (updateTechnology env) t in
         send 200 (TechnologyJson updated)
     end)%monad
    (fun _ => send 500 (ErrorJson "Failed to check technology")).

(** The bulk check as both [app.post("/api/technologies/check")] and the
    weekly [setInterval] start it. *)
Definition bulkCheck : M unit :=
  checkAllTechnologies env (getAllTechnologies env) (updateTechnology env).

(** *** The event loop

    With the [Map]-backed scan store no [await] of a scan handler waits
    for the outside, so each request and each timer callback runs to its
    end before the next one starts. *)
Inductive Event :=
| PostScan (reqBody : InsertSecurityScan)
| GetScan (id : string)
| CancelScan (id : string)
| TimerFires (n : nat)
| Elapse (ms : Z).

(** What the client sees of an event. *)
Inductive Outcome :=
| Replied (r : Reply)
| Silent.

Definition replied (m : M Reply) : World -> Outcome * World :=
  fun w => match m w with
           | (Ok r, w') => (Replied r, w')
           | (Throw _, w') => (Silent, w')
           end.

(** The [n]-th pending timer runs once it is due, and is gone then;
    time only moves forward. *)
Definition handle (e : Event) (w : World) : Outcome * World :=
  match e with
  | PostScan reqBody => replied (postScanRoute reqBody) w
  | GetScan id => replied (getScanRoute id) w
  | CancelScan id => replied (cancelScanRoute id) w
  | TimerFires n =>
      match timers w !! n with
      | Some t =>
          if due t <=? clock w then
            (Silent, snd (scanCompletion (t_scan t) (set_timers (delete n (timers w)) w)))
          else (Silent, w)
      | None => (Silent, w)
      end
  | Elapse ms => (Silent, if 0 <=? ms then set_clock (clock w + ms) w else w)
  end.

Fixpoint run (es : list Event) (w : World) : list Outcome * World :=
  match es with
  | [] => ([], w)
  | e :: es' =>
      let (o, w') := handle e w in
      let (os, w'') := run es' w' in
      (o :: os, w'')
  end.
End Handlers.

End Routes.
Import Routes.

(** ** Overlapping callers of [rateLimitedFetch]

    [rateLimitedFetch] has one [await]: a caller that has to wait reads the
    clock and [lastRequestTime], goes to sleep, and writes [lastRequestTime]
    and sends its request when it wakes. Other callers run in between. *)

Module Overlap.

Inductive Step :=
| Enters (caller : nat)
| Wakes (caller : nat).

Record Limiter := {
  last : Z;
  asleep : list (nat * Z);
  began : list (nat * Z) }.

Definition dueOf (caller : nat) (l : list (nat * Z)) : option Z :=
  snd <$> List.find (fun p => Nat.eqb (fst p) caller) l.

(** One step at time [t]; [None] when the step cannot happen (a caller
    that does not sleep, or whose timer is not due). *)
Definition step (t : Z) (s : Step) (l : Limiter) : option Limiter :=
  match s with
  | Enters c =>
      match rateLimitWait t (last l) with
      | Some d =>
          Some {| last := last l; asleep := (c, t + d) :: asleep l; began := began l |}
      | None =>
          Some {| last := t; asleep := asleep l; began := (c, t) :: began l |}
      end
  | Wakes c =>
      match dueOf c (asleep l) with
      | Some d =>
          if d <=? t then
            Some {| last := t;
                    asleep := List.filter (fun p => negb (Nat.eqb (fst p) c)) (asleep l);
                    began := (c, t) :: began l |}
          else None
      | None => None
      end
  end.

(** A schedule: steps with their times, which never go back. *)
Fixpoint schedule (from : Z) (steps : list (Z * Step)) (l : Limiter) : option Limiter :=
  match steps with
  | [] => Some l
  | (t, s) :: rest =>
      if from <=? t then
        match step t s l with
        | Some l' => schedule t rest l'
        | None => None
        end
      else None
  end.

(** The server as it starts. *)
Definition idle : Limiter := {| last := 0; asleep := []; began := [] |}.

End Overlap.

(** ** Notions the properties are stated with *)

Module Props.

(** The sum of the deductions of a finding list, as a sum over the list. *)
Definition sumDeductions {A} `{HasSeverity A} (fs : list A) : Z :=
  fold_right Z.add 0 (List.map (fun f => severityDeductions (severity_of f)) fs).

(** The word of a canonical severity. *)
Definition severity_label (s : CveSeverity) : string :=
  match s with
  | CRITICAL => "CRITICAL"
  | HIGH => "HIGH"
  | MEDIUM => "MEDIUM"
  | LOW => "LOW"
  | UNKNOWN => "UNKNOWN"
  end.

(** The labels the normaliser takes from the newer and from the older
    scheme. *)
Definition newerLabels : list string := ["CRITICAL"; "HIGH"; "MEDIUM"; "LOW"]%string.
Definition olderLabels : list string := ["HIGH"; "MEDIUM"; "LOW"]%string.

(** The two-tier fallback, on the labels of the two schemes: the newer
    label when there is one among [newerLabels], else the older label when
    there is one among [olderLabels], else UNKNOWN. *)
Definition olderOrUnknown (older : option string) : string :=
  match older with
  | Some l => if bool_decide (l ∈ olderLabels) then l else "UNKNOWN"
  | None => "UNKNOWN"
  end.

Definition twoTierLabel (newer older : option string) : string :=
  match newer with
  | Some l => if bool_decide (l ∈ newerLabels) then l else olderOrUnknown older
  | None => olderOrUnknown older
  end.

(** The labels of a raw record, upper-cased as the code compares them. *)
Definition newerLabel (item : NvdCveItem) : option string :=
  (fun v31 => toUpperCase (baseSeverity31 (cvssData31 v31))) <$> firstV31 item.
Definition olderLabel (item : NvdCveItem) : option string :=
  toUpperCase <$> (firstV2 item ≫= baseSeverity2).

(** The scores of the two schemes of a raw record. *)
Definition newerScore (item : NvdCveItem) : option Q :=
  (fun v31 => baseScore31 (cvssData31 v31)) <$> firstV31 item.
Definition olderScore (item : NvdCveItem) : option Q :=
  (fun v2 => baseScore2 (cvssData2 v2)) <$> firstV2 item.

(** The counts of a technology are within its total. *)
Definition countsBounded (t : Technology) : Prop :=
  criticalCount t <= vulnerabilityCount t /\ highCount t <= vulnerabilityCount t.

(** The database reports a total that covers the page it returns. *)
Definition pageWithinTotal (data : NvdResponse) : Prop :=
  Z.of_nat (length (vulnerabilities data)) <= totalResults data.

Definition consistentResponses (env : Env) : Prop :=
  forall n term r data,
    fetchOutcome env n term = Responded r ->
    resp_ok r = true ->
    resp_json r = Some data ->
    pageWithinTotal data.

(** A request that gives [fetchCvesForTechnology] nothing to read: the
    transport fails, the status is not a success, or the body does not
    parse. *)
Definition fetchFails (o : FetchOutcome) : bool :=
  match o with
  | NetworkFailure => true
  | Responded r => negb (resp_ok r) || bool_decide (resp_json r = None)
  end.

Definition externalAlwaysFails (env : Env) : Prop :=
  forall n term, fetchFails (fetchOutcome env n term) = true.

Definition storeAlwaysAnswers (env : Env) : Prop :=
  forall n, dbFails env n = false.

(** A technology as a check that found nothing leaves it. *)
Definition zeroSecure (t : Technology) : Prop :=
  status t = secure /\ vulnerabilityCount t = 0 /\ criticalCount t = 0 /\ highCount t = 0.

(** The bulk check half-way: the table still holds the rows with ids
    [ids0], and the rows of the technologies gone through are as a check
    that found nothing leaves them. *)
Definition checkedSoFar (ids0 : list string) (done : list Technology)
    (rows : list Technology) : Prop :=
  List.map tech_id rows = ids0
  /\ Forall (fun row => List.In (tech_id row) (List.map tech_id done) -> zeroSecure row) rows.

(** The same with technology [x] marked as being checked. *)
Definition markedOne (ids0 : list string) (done : list Technology) (x : Technology)
    (rows : list Technology) : Prop :=
  List.map tech_id rows = ids0
  /\ Forall (fun row => List.In (tech_id row) (List.map tech_id done) ->
                        tech_id row <> tech_id x -> zeroSecure row) rows.

(** The table of a world keeps the counts within the totals. *)
Definition tableBounded (w : World) : Prop := Forall countsBounded (technologies w).

(** A row to insert whose counts, once the defaults are filled in, are
    within its total. *)
Definition insertBounded (tech : InsertTechnology) : Prop :=
  default 0 (it_criticalCount tech) <= default 0 (it_vulnerabilityCount tech)
  /\ default 0 (it_highCount tech) <= default 0 (it_vulnerabilityCount tech).

(** No row of the table is marked as being checked. *)
Definition noneChecking (rows : list Technology) : Prop :=
  Forall (fun row => status row <> checking) rows.

(** No row but those of technology [x] is marked. *)
Definition othersNotChecking (x : Technology) (rows : list Technology) : Prop :=
  Forall (fun row => tech_id row <> tech_id x -> status row <> checking) rows.

(** The last statement sent to the store failed. *)
Definition lastFailed (env : Env) (w : World) : Prop :=
  exists n, ticks w = S n /\ dbFails env n = true.

(** The store never fails twice in a row. *)
Definition neverTwiceInARow (env : Env) : Prop :=
  forall n, dbFails env n = true -> dbFails env (S n) = false.

(** The status a reply shows, when it shows a scan. *)
Definition statusSeen (o : Outcome) : option ScanStatus :=
  match o with
  | Replied {| code := _; body := ScanJson (Some scan) |} => Some (scan_status scan)
  | _ => None
  end.

(** Status and score of a stored scan. *)
Definition stored (id : string) (w : World) : option (ScanStatus * option Z) :=
  (fun scan => (scan_status scan, overallScore scan)) <$> scans w !! id.

(** Terminal scan statuses. *)
Definition terminal (s : ScanStatus) : bool :=
  match s with
  | completed | cancelled | failed => true
  | pending | running => false
  end.

(** The smallest distance between the start times of two requests. *)
Fixpoint closestPair (ts : list Z) : option Z :=
  match ts with
  | [] => None
  | t :: rest =>
      let here := fold_right (fun u acc =>
                    match acc with
                    | Some m => Some (Z.min m (Z.abs (t - u)))
                    | None => Some (Z.abs (t - u))
                    end) None rest in
      match here, closestPair rest with
      | Some a, Some b => Some (Z.min a b)
      | Some a, None => Some a
      | None, o => o
      end
  end.

(** Hoare triples for asynchronous code: from a world in [P], the
    computation resolves to a value and a world in [Q], or rejects in a
    world in [E]. *)
Definition triple {A} (P : World -> Prop) (m : M A)
    (Q : A -> World -> Prop) (E : World -> Prop) : Prop :=
  forall w, P w ->
    match m w with
    | (Ok a, w') => Q a w'
    | (Throw _, w') => E w'
    end.

(** A summary whose counts are within its total. *)
Definition summaryBounded (r : CveSummary) : Prop :=
  summary_criticalCount r <= totalCount r /\ summary_highCount r <= totalCount r.

End Props.
Import Props.

(** ** Scenarios *)

Module Scenarios.

(** Fresh identifiers [uuid-0], [uuid-1], ... *)
Definition uuids (n : nat) : string := "uuid-" +:+ pretty n.

(** The vulnerability database cannot be reached; the store answers. *)
Definition env_offline : Env :=
  {| dbFails := fun _ => false;
     fetchOutcome := fun _ _ => NetworkFailure;
     latency := fun _ => 0%nat;
     rowOrder := fun _ => [];
     random := fun _ => 0%Q;
     uuid := uuids |}.

Definition technology (id n v : string) (s : TechStatus) (total crit hi : Z) : Technology :=
  {| tech_id := id; name := n; vendor := v; category := "Backend"; cpe := None;
     currentVersion := "1.0.0"; latestVersion := None; secureVersion := None;
     status := s; vulnerabilityCount := total; criticalCount := crit; highCount := hi;
     topCves := None; lastCheckedAt := None; createdAt := None |}.

Definition react : Technology := technology "t-react" "React" "facebook" unknown 0 0 0.
Definition express : Technology := technology "t-express" "Express" "expressjs" vulnerable 12 1 3.

Definition world_one : World := set_technologies [react] (boot 1000000).
Definition world_two : World := set_technologies [react; express] (boot 1000000).

(** A record with a newer payload scored 0.0 and labelled NONE, and an
    older payload scored 2.1 and labelled LOW. *)
Definition item_none_low : NvdCveItem :=
  {| cve := {| cve_id := "CVE-2020-0001";
               descriptions := [ {| lang := "en"; d_value := "example" |} ];
               published := "2020-01-01T00:00:00.000";
               metrics := Some {|
                 cvssMetricV31 := Some [ {| cvssData31 :=
                   {| baseScore31 := 0; baseSeverity31 := "NONE" |} |} ];
                 cvssMetricV2 := Some [ {| cvssData2 := {| baseScore2 := 21 # 10 |};
                                           baseSeverity2 := Some "LOW"%string |} ] |};
               configurations := None |} |}.

(** A record with only a newer payload, labelled in lower case. *)
Definition item_lowercase_high : NvdCveItem :=
  {| cve := {| cve_id := "CVE-2020-0002";
               descriptions := [];
               published := "2020-01-02T00:00:00.000";
               metrics := Some {|
                 cvssMetricV31 := Some [ {| cvssData31 :=
                   {| baseScore31 := 75 # 10; baseSeverity31 := "high" |} |} ];
                 cvssMetricV2 := None |};
               configurations := None |} |}.

(** A record with a newer payload scored 9.8 and labelled CRITICAL. *)
Definition item_critical : NvdCveItem :=
  {| cve := {| cve_id := "CVE-2020-0003";
               descriptions := [ {| lang := "en"; d_value := "remote code execution" |} ];
               published := "2020-01-03T00:00:00.000";
               metrics := Some {|
                 cvssMetricV31 := Some [ {| cvssData31 :=
                   {| baseScore31 := 98 # 10; baseSeverity31 := "CRITICAL" |} |} ];
                 cvssMetricV2 := None |};
               configurations := None |} |}.

Definition respond (total : Z) (page : list NvdCveItem) : FetchOutcome :=
  Responded {| resp_status := 200;
               resp_json := Some {| totalResults := total; vulnerabilities := page |};
               resp_readTime := 0 |}.

(** The database answers every search with one critical record and a
    total of zero. *)
Definition env_undercount : Env :=
  {| dbFails := fun _ => false;
     fetchOutcome := fun _ _ => respond 0 [item_critical];
     latency := fun _ => 0%nat;
     rowOrder := fun _ => [];
     random := fun _ => 0%Q;
     uuid := uuids |}.

(** The database answers every search with one critical record and a
    total of one. *)
Definition env_one_critical : Env :=
  {| dbFails := fun _ => false;
     fetchOutcome := fun _ _ => respond 1 [item_critical];
     latency := fun _ => 0%nat;
     rowOrder := fun _ => [];
     random := fun _ => 0%Q;
     uuid := uuids |}.

(** The database finds nothing; the fourth statement sent to the store
    fails (in a single check through the route and in a bulk check that is
    the write-back of the first technology). *)
Definition env_writeback_fails : Env :=
  {| dbFails := fun n => Nat.eqb n 3;
     fetchOutcome := fun _ _ => respond 0 [];
     latency := fun _ => 0%nat;
     rowOrder := fun _ => [];
     random := fun _ => 0%Q;
     uuid := uuids |}.

(** [world_one] once the route has read the technology (one statement). *)
Definition world_after_read : World := set_ticks 1 world_one.

(** [sslFindings] *)
Definition sslFindings : list FindingTemplate :=
  [ {| title := "TLS 1.0/1.1 Enabled";
       description := "The server supports deprecated TLS versions (1.0 and 1.1) which have known security vulnerabilities.";
       recommendation := "Disable TLS 1.0 and 1.1, and only support TLS 1.2 or higher.";
       severity := high;
       evidence := Some "Supported protocols: TLSv1.0, TLSv1.1, TLSv1.2, TLSv1.3"%string;
       referenceLinks := Some ["https://www.ssllabs.com/ssltest/"%string];
       complianceTags := Some ["PCI-DSS 4.0"; "NIST 800-52"]%string |};
    {| title := "Weak Cipher Suites";
       description := "The server supports weak cipher suites that could be exploited by attackers.";
       recommendation := "Configure the server to use only strong cipher suites with AES-256-GCM or ChaCha20.";
       severity := medium;
       evidence := Some "Weak ciphers found: TLS_RSA_WITH_AES_128_CBC_SHA, TLS_RSA_WITH_3DES_EDE_CBC_SHA"%string;
       referenceLinks := Some ["https://wiki.mozilla.org/Security/Server_Side_TLS"%string];
       complianceTags := Some ["PCI-DSS"; "HIPAA"]%string |};
    {| title := "Certificate Expiring Soon";
       description := "The SSL certificate will expire within 30 days.";
       recommendation := "Renew the SSL certificate before expiration to prevent service disruption.";
       severity := medium;
       evidence := Some "Certificate expires: 2024-02-15T23:59:59Z"%string;
       referenceLinks := None;
       complianceTags := None |};
    {| title := "Missing OCSP Stapling";
       description := "OCSP Stapling is not enabled, which may slow down TLS handshakes.";
       recommendation := "Enable OCSP Stapling to improve connection performance and privacy.";
       severity := low;
       evidence := None;
       referenceLinks := None;
       complianceTags := None |} ].

(** The catalogue, as far as a scan of [ssl_tls] reads it. *)
Definition sslCatalogue (c : CheckType) : list FindingTemplate :=
  match c with
  | ssl_tls => sslFindings
  | _ => []
  end.

(** Every target passes the schema. *)
Definition anyTarget (t : string) : bool := true.

(** A quick scan of [example.com] for [ssl_tls]. *)
Definition quickSslScan : InsertSecurityScan :=
  {| is_target := "example.com";
     is_configuration := {| checkTypes := [ssl_tls]; scanDepth := quick; notes := None |};
     is_consultantName := None; is_clientName := None; is_projectName := None |}.

(** The scan is posted at time 0, cancelled a second later, and its timer
    fires when it is due, two seconds after that. *)
Definition postThenCancel : list Event :=
  [PostScan quickSslScan; Elapse 1000; CancelScan "uuid-0"].
Definition timerDue : list Event := [Elapse 2000; TimerFires 0].

(** Every [Math.random()] is 0, so every template is sampled; nothing
    else of the outside is asked for by the scan routes. *)
Definition env_scans : Env :=
  {| dbFails := fun _ => false;
     fetchOutcome := fun _ _ => NetworkFailure;
     latency := fun _ => 0%nat;
     rowOrder := fun _ => [];
     random := fun _ => 0%Q;
     uuid := uuids |}.

Definition serve (es : list Event) (w : World) : list Outcome * World :=
  run env_scans sslCatalogue anyTarget es w.

(** The timer and the stored scan after the cancellation. *)
Definition cancelledTimer : Timer :=
  {| due := 3000;
     t_scan := {| scan_id := "uuid-0"; target := "example.com"; scan_status := pending;
                  configuration := is_configuration quickSslScan;
                  initiatedAt := 0; completedAt := None; overallScore := None;
                  consultantName := None; clientName := None; projectName := None |} |}.

Definition cancelledScan : SecurityScan :=
  {| scan_id := "uuid-0"; target := "example.com"; scan_status := cancelled;
     configuration := is_configuration quickSslScan;
     initiatedAt := 0; completedAt := Some 1000; overallScore := None;
     consultantName := None; clientName := None; projectName := None |}.

(** Three callers of [rateLimitedFetch]: the first finds the limiter idle,
    the other two come while it is closed, and both wake when it opens. *)
Definition threeCallers : list (Z * Overlap.Step) :=
  [ (10000, Overlap.Enters 0);
    (10100, Overlap.Enters 1);
    (10200, Overlap.Enters 2);
    (16500, Overlap.Wakes 1);
    (16500, Overlap.Wakes 2) ].

End Scenarios.
Import Scenarios.

(** ** The summary of a finished scan ([server/pdf-generator.ts], and the
    results view of the client) *)

Module Report.

(** [interface ScanSummary] *)
Record ScanSummary := {
  totalFindings : Z;
  sum_criticalCount : Z;
  sum_highCount : Z;
  sum_mediumCount : Z;
  sum_lowCount : Z;
  sum_infoCount : Z;
  sum_overallScore : Z }.

Definition isSeverity (s : Severity) (f : SecurityFinding) : bool :=
  match s, f_severity f with
  | critical, critical | high, high | medium, medium | low, low | info, info => true
  | _, _ => false
  end.

(** [findings.filter((f) => f.severity === s).length] *)
Definition countSeverity (s : Severity) (fs : list SecurityFinding) : Z :=
  Z.of_nat (length (List.filter (isSeverity s) fs)).

(** [scan.overallScore || 0] *)
Definition storedScoreOrZero (scan : SecurityScan) : Z :=
  match overallScore scan with
  | Some v => v
  | None => 0
  end.

(** [const summary: ScanSummary = { ... }] *)
Definition scanSummary (scan : SecurityScan) (fs : list SecurityFinding) : ScanSummary :=
  {| totalFindings := Z.of_nat (length fs);
     sum_criticalCount := countSeverity critical fs;
     sum_highCount := countSeverity high fs;
     sum_mediumCount := countSeverity medium fs;
     sum_lowCount := countSeverity low fs;
     sum_infoCount := countSeverity info fs;
     sum_overallScore := storedScoreOrZero scan |}.

End Report.
Import Report.

(** ** Notions the further properties are stated with *)

Module Further.

(** A template as [generateFindings] reports it for a scan. *)
Definition stamp (scanId tgt : string) (checkType : CheckType)
    (template : FindingTemplate) : InsertSecurityFinding :=
  {| i_scanId := scanId;
     i_category := checkType;
     i_severity := severity template;
     i_title := title template;
     i_description := description template;
     i_evidence := evidence template;
     i_recommendation := recommendation template;
     i_affectedResource := tgt;
     i_referenceLinks := referenceLinks template;
     i_complianceTags := complianceTags template |}.

(** Every template of the requested check types, in the order the loops go
    through them. *)
Definition candidates (findingsByCheckType : CheckType -> list FindingTemplate)
    (scanId tgt : string) (types : list CheckType) : list InsertSecurityFinding :=
  flat_map (fun c => List.map (stamp scanId tgt c) (findingsByCheckType c)) types.

(** The candidates the draws keep: the one at position [i] is kept when the
    draw numbered [start + i] is below the probability of the depth. *)
Fixpoint keptFrom (env : Env) (depth : ScanDepth) (start : nat)
    (l : list InsertSecurityFinding) : list InsertSecurityFinding :=
  match l with
  | [] => []
  | f :: l' =>
      if Qlt_le_dec (random env start) (findingProbability depth)
      then f :: keptFrom env depth (S start) l'
      else keptFrom env depth (S start) l'
  end.

(** A stored finding without the identifier the store gave it. *)
Definition withoutId (f : SecurityFinding) : InsertSecurityFinding :=
  {| i_scanId := f_scanId f;
     i_category := f_category f;
     i_severity := f_severity f;
     i_title := f_title f;
     i_description := f_description f;
     i_evidence := f_evidence f;
     i_recommendation := f_recommendation f;
     i_affectedResource := f_affectedResource f;
     i_referenceLinks := f_referenceLinks f;
     i_complianceTags := f_complianceTags f |}.


(** The columns of a technology that no check writes. *)
Definition identity (t : Technology) :=
  (tech_id t, name t, vendor t, category t, cpe t, currentVersion t,
   latestVersion t, secureVersion t, createdAt t).

(** A request log, newest first, whose requests are the delay apart. *)
Fixpoint spaced (log : list Z) : Prop :=
  match log with
  | [] => True
  | t :: older =>
      match older with
      | [] => True
      | u :: _ => u + RATE_LIMIT_DELAY <= t
      end /\ spaced older
  end.

(** The limiter remembers a time that is not before the last request, and
    the log is spaced. *)
Definition limiterSound (w : World) : Prop :=
  spaced (requests w)
  /\ match requests w with
     | [] => True
     | t :: _ => t <= lastRequestTime w
     end.

(** The search term [fetchCvesForTechnology] asks for. *)
Definition searchTermOf (tech : Technology) : string :=
  toLowerCase (vendor tech ++ " " ++ name tech).

(** What [fetchCvesForTechnology] makes of the outcome of its request: the
    summary of a parsed success response, and the zero result of anything
    else. *)
Definition summaryOf (o : FetchOutcome) : CveSummary :=
  match o with
  | NetworkFailure => zeroResult
  | Responded resp =>
      if resp_ok resp then
        match resp_json resp with
        | Some data => summarise data
        | None => zeroResult
        end
      else zeroResult
  end.

(** The check of one technology inside the loop of [checkAllTechnologies]. *)
Definition checkOne (env : Env) (tech : Technology) : M unit :=
  try_catch
    (updateTechnology env (tech_id tech) (statusOnly checking) ;;
     let* r := fetchCvesForTechnology env tech in
     let status := determineSecurityStatus (totalCount r)
                     (summary_criticalCount r) (summary_highCount r) in
     let* date := now in
     updateTechnology env (tech_id tech) (checkedUpdates r status date) ;;
     ret tt)%monad
    (fun _ =>
     updateTechnology env (tech_id tech) (statusOnly unknown) ;;
     ret tt)%monad.

(** The row [createTechnology] inserts when its statement is the one
    numbered [n] and the time is [date]. *)
Definition inserted (env : Env) (date : Z) (n : nat) (tech : InsertTechnology) : Technology :=
  {| tech_id := uuid env n;
     name := it_name tech;
     vendor := it_vendor tech;
     category := it_category tech;
     cpe := it_cpe tech;
     currentVersion := it_currentVersion tech;
     latestVersion := it_latestVersion tech;
     secureVersion := it_secureVersion tech;
     status := default unknown (it_status tech);
     vulnerabilityCount := default 0 (it_vulnerabilityCount tech);
     criticalCount := default 0 (it_criticalCount tech);
     highCount := default 0 (it_highCount tech);
     topCves := it_topCves tech;
     lastCheckedAt := None;
     createdAt := Some date |}.

(** The rows a run of inserts leaves, the first one numbered [start]. *)
Fixpoint insertedFrom (env : Env) (date : Z) (start : nat) (l : list InsertTechnology)
    : list Technology :=
  match l with
  | [] => []
  | tech :: l' => inserted env date start tech :: insertedFrom env date (S start) l'
  end.

(** Every row has an identifier handed out before the statement to come. *)
Definition idsHandedOut (env : Env) (w : World) : Prop :=
  Forall (fun row => exists k, (k < ticks w)%nat /\ tech_id row = uuid env k) (technologies w).

(** The number of records of a page that [getSeverity] puts at a severity. *)
Definition countItems (s : CveSeverity) (page : list NvdCveItem) : Z :=
  Z.of_nat (length (List.filter (fun item => bool_decide (getSeverity item = s)) page)).

(** A record made of a raw record. *)
Definition recordOf (item : NvdCveItem) (c : CveRecord) : Prop :=
  cveId c = cve_id (cve item)
  /\ cve_severity c = getSeverity item
  /\ cvssScore c = getCvssScore item
  /\ publishedDate c = published (cve item).

(** A property after a spread: the given value if one is given, else the
    old one. *)
Definition overwrites {X} (given : option X) (old new : X) : Prop :=
  match given with
  | Some v => new = v
  | None => new = old
  end.

(** The same for a property that may be missing. *)
Definition overwritesOptional {X} (given : option X) (old new : option X) : Prop :=
  match given with
  | Some v => new = Some v
  | None => new = old
  end.

(** The three shapes a stored scan has between two events on the
    [Map]-backed store: running, cancelled, and completed with a score. *)
Definition settledShape (s : SecurityScan) : Prop :=
  (scan_status s = running /\ overallScore s = None /\ completedAt s = None)
  \/ (scan_status s = cancelled /\ overallScore s = None /\ is_Some (completedAt s))
  \/ (scan_status s = completed /\ is_Some (completedAt s)
      /\ exists v, overallScore s = Some v /\ 0 <= v <= 100).

Definition scansSettled (w : World) : Prop :=
  map_Forall (fun _ s => settledShape s) (scans w).

End Further.
Import Further.

(** ** What the pages show of a score ([client/src]) *)

Module Client.

(** [ScoreGauge] of the results page. *)
Module ScoreGauge.
Record ScoreColor := { color : string; gradient : string }.

Definition getScoreColor (score : Z) : ScoreColor :=
  if 80 <=? score then {| color := "text-green-500"; gradient := "from-green-500 to-emerald-400" |}
  else if 60 <=? score then {| color := "text-yellow-500"; gradient := "from-yellow-500 to-amber-400" |}
  else if 40 <=? score then {| color := "text-orange-500"; gradient := "from-orange-500 to-red-400" |}
  else {| color := "text-red-500"; gradient := "from-red-500 to-rose-600" |}.

Definition getScoreLabel (score : Z) : string :=
  if 80 <=? score then "Secure"
  else if 60 <=? score then "Fair"
  else if 40 <=? score then "At Risk"
  else "Critical".
End ScoreGauge.

(** The list of recent scans of the home page. *)
Module Home.
(** [!score]: no score, or a score of 0. *)
Definition falsy (score : option Z) : bool :=
  match score with
  | None => true
  | Some v => v =? 0
  end.

Definition getScoreColor (score : option Z) : string :=
  if falsy score then "text-muted-foreground"
  else
    let v := default 0 score in
    if 80 <=? v then "text-green-500"
    else if 60 <=? v then "text-yellow-500"
    else if 40 <=? v then "text-orange-500"
    else "text-red-500".

(** What [{scan.overallScore || "--"}] renders. *)
Inductive ScoreText :=
| Dashes
| Number (v : Z).

Definition scoreText (score : option Z) : ScoreText :=
  if falsy score then Dashes else Number (default 0 score).
End Home.

End Client.

(** ** Further scenarios *)

Module MoreScenarios.

(** Every [Math.random()] is 0.9. *)
Definition env_unlucky : Env :=
  {| dbFails := fun _ => false;
     fetchOutcome := fun _ _ => NetworkFailure;
     latency := fun _ => 0%nat;
     rowOrder := fun _ => [];
     random := fun _ => (9 # 10)%Q;
     uuid := uuids |}.

(** A slow vulnerability database: a response takes 250 ms and reading its
    body another 40 ms; it answers every search with one critical record
    and a total of one. The store answers, and returns two rows the second
    one first. *)
Definition env_slow : Env :=
  {| dbFails := fun _ => false;
     fetchOutcome := fun _ _ =>
       Responded {| resp_status := 200;
                    resp_json := Some {| totalResults := 1;
                                         vulnerabilities := [item_critical] |};
                    resp_readTime := 40 |};
     latency := fun _ => 250%nat;
     rowOrder := fun _ => [1%nat];
     random := fun _ => 0%Q;
     uuid := uuids |}.

(** The world once the quick scan has been posted at time 0, and the scan
    as the store holds it then. *)
Definition world_posted : World := snd (serve [PostScan quickSslScan] (boot 0)).

Definition runningScan : SecurityScan :=
  {| scan_id := "uuid-0"; target := "example.com"; scan_status := running;
     configuration := is_configuration quickSslScan;
     initiatedAt := 0; completedAt := None; overallScore := None;
     consultantName := None; clientName := None; projectName := None |}.

End MoreScenarios.
Import MoreScenarios.


(** * Properties *)

(** ** The order of rows *)

Lemma insertAt_perm {A} (n : nat) (x : A) (l : list A) :
  Permutation (insertAt n x l) (x :: l).
Proof.
  revert n. induction l as [|y l IH]; intros [|n]; cbn [insertAt]; try reflexivity.
  rewrite IH. apply perm_swap.
Qed.

Lemma arrange_perm {A} (code : list nat) (l : list A) :
  Permutation (arrange code l) l.
Proof.
  revert code. induction l as [|x l IH]; intros code; cbn [arrange]; [reflexivity|].
  rewrite insertAt_perm, IH. reflexivity.
Qed.

Lemma arrange_nil {A} (l : list A) : arrange [] l = l.
Proof.
  induction l as [|x l IH]; cbn [arrange hd tl insertAt]; [reflexivity|].
  rewrite IH. reflexivity.
Qed.

Lemma insertAt_app {A} (x : A) (l1 l2 : list A) :
  insertAt (length l1) x (l1 ++ l2) = l1 ++ x :: l2.
Proof.
  induction l1 as [|y l1 IH]; cbn [length app insertAt].
  - destruct l2; reflexivity.
  - rewrite IH. reflexivity.
Qed.

(** Every order of the rows is the arrangement by some code. *)
Lemma arrange_any_order {A} (l l' : list A) :
  Permutation l l' -> exists code, arrange code l = l'.
Proof.
  revert l'. induction l as [|x l IH]; intros l' Hperm.
  - apply Permutation_nil in Hperm. subst l'. exists []. reflexivity.
  - destruct (Permutation_vs_cons_inv (Permutation_sym Hperm)) as (l1 & l2 & ->).
    apply Permutation_cons_app_inv in Hperm.
    destruct (IH _ Hperm) as (code & Hcode).
    exists (length l1 :: code). cbn [arrange hd tl]. rewrite Hcode. apply insertAt_app.
Qed.

(** ** Scoring *)

Section ScoringFacts.
Context {A : Type} `{HasSeverity A}.

Lemma fold_left_deductions (fs : list A) (acc : Z) :
  fold_left (fun acc f => acc + severityDeductions (severity_of f)) fs acc
  = acc + sumDeductions fs.
Proof.
  revert acc. induction fs as [|f fs IH]; intros acc; simpl.
  - unfold sumDeductions. simpl. lia.
  - rewrite IH. unfold sumDeductions. simpl. lia.
Qed.

Lemma totalDeduction_sum (fs : list A) : totalDeduction fs = sumDeductions fs.
Proof. unfold totalDeduction. rewrite fold_left_deductions. lia. Qed.
End ScoringFacts.

(** C5. For every finding list the score is an integer between 0 and 100;
    the score of the empty list is 100; and the score is
    [clamp(100 - sum of deductions, 0, 100)] with the deductions critical 25,
    high 15, medium 8, low 3, info 0 (for the empty list the sum is 0, and
    the clamp is the 100 the code returns there). *)
Theorem C5_score_range_and_formula :
  forall (A : Type) (sev : HasSeverity A) (F : list A),
    (0 <= calculateSecurityScore F <= 100)
    /\ calculateSecurityScore (@nil A) = 100
    /\ calculateSecurityScore F = Z.max 0 (Z.min 100 (100 - sumDeductions F))
    /\ severityDeductions critical = 25
    /\ severityDeductions high = 15
    /\ severityDeductions medium = 8
    /\ severityDeductions low = 3
    /\ severityDeductions info = 0.
Proof.
  intros A sev F.
  assert (Hform : calculateSecurityScore F = Z.max 0 (Z.min 100 (100 - sumDeductions F))).
  { unfold calculateSecurityScore. destruct F as [|f F]; simpl.
    - reflexivity.
    - rewrite totalDeduction_sum. reflexivity. }
  repeat split; try reflexivity; try exact Hform; rewrite Hform; lia.
Qed.

(** ** The status rule *)

(** C7. The derived status of a technology follows the four rules in their
    order, for all counts, and the six listed cases come out as listed. *)
Theorem C7_status_rule :
  forall totalCount criticalCount highCount : Z,
    determineSecurityStatus totalCount criticalCount highCount
    = (if decide (criticalCount > 0 \/ highCount > 5) then vulnerable
       else if decide (totalCount = 0) then secure
       else if decide (highCount > 0 \/ totalCount > 10) then vulnerable
       else secure)
    /\ determineSecurityStatus 1 1 0 = vulnerable
    /\ determineSecurityStatus 6 0 6 = vulnerable
    /\ determineSecurityStatus 0 0 0 = secure
    /\ determineSecurityStatus 1 0 1 = vulnerable
    /\ determineSecurityStatus 11 0 0 = vulnerable
    /\ determineSecurityStatus 5 0 0 = secure.
Proof.
  intros t c h. split; [|repeat split].
  unfold determineSecurityStatus.
  destruct (0 <? c) eqn:Hc; destruct (5 <? h) eqn:Hh;
    destruct (t =? 0) eqn:Ht; destruct (0 <? h) eqn:Hh0;
    destruct (10 <? t) eqn:Ht10; simpl;
    repeat case_decide; try reflexivity; exfalso; lia.
Qed.

(** ** The severity normaliser *)

(** A word that differs from every word of a list is not in the list. *)
Ltac not_listed :=
  let Hin := fresh "Hin" in
  intros Hin;
  repeat (apply elem_of_cons in Hin as [Hin|Hin]; [congruence|]);
  apply elem_of_nil in Hin; exact Hin.

Lemma olderOrUnknown_sound (item : NvdCveItem) :
  severity_label (getSeverityV2 item) = olderOrUnknown (olderLabel item).
Proof.
  unfold getSeverityV2, olderLabel, olderOrUnknown.
  destruct (firstV2 item) as [v2|]; [|reflexivity].
  change (Some v2 ≫= baseSeverity2) with (baseSeverity2 v2).
  destruct (baseSeverity2 v2) as [label|]; [|reflexivity].
  change (toUpperCase <$> Some label) with (Some (toUpperCase label)).
  destruct (truthy_string label) eqn:Ht.
  - cbv zeta. generalize (toUpperCase label) as l. intros l.
    destruct (String.eqb_spec l "HIGH") as [->|H1]; [reflexivity|].
    destruct (String.eqb_spec l "MEDIUM") as [->|H2]; [reflexivity|].
    destruct (String.eqb_spec l "LOW") as [->|H3]; [reflexivity|].
    rewrite bool_decide_eq_false_2; [reflexivity|].
    unfold olderLabels. not_listed.
  - destruct label; [reflexivity|discriminate].
Qed.

Lemma twoTier_sound (item : NvdCveItem) :
  severity_label (getSeverity item) = twoTierLabel (newerLabel item) (olderLabel item).
Proof.
  unfold getSeverity, newerLabel, twoTierLabel.
  destruct (firstV31 item) as [v31|]; [|apply olderOrUnknown_sound].
  change ((fun v => toUpperCase (baseSeverity31 (cvssData31 v))) <$> Some v31)
    with (Some (toUpperCase (baseSeverity31 (cvssData31 v31)))).
  cbv zeta. generalize (toUpperCase (baseSeverity31 (cvssData31 v31))) as l. intros l.
  destruct (String.eqb_spec l "CRITICAL") as [->|H0]; [reflexivity|].
  destruct (String.eqb_spec l "HIGH") as [->|H1]; [reflexivity|].
  destruct (String.eqb_spec l "MEDIUM") as [->|H2]; [reflexivity|].
  destruct (String.eqb_spec l "LOW") as [->|H3]; [reflexivity|].
  rewrite bool_decide_eq_false_2; [apply olderOrUnknown_sound|].
  unfold newerLabels. not_listed.
Qed.

(** C6, as stated, fails: a record that carries both schemes, the newer one
    labelled NONE, reports the older scheme's severity LOW (and the newer
    scheme's score); and a newer label [high], which is not one of the four
    words, is reported as HIGH, not as UNKNOWN. *)
Lemma C6_older_label_reported :
  (baseSeverity31 <$> (cvssData31 <$> firstV31 item_none_low)) = Some "NONE"%string
  /\ (firstV2 item_none_low ≫= baseSeverity2) = Some "LOW"%string
  /\ getSeverity item_none_low = LOW
  /\ getCvssScore item_none_low = Some 0%Q
  /\ (baseSeverity31 <$> (cvssData31 <$> firstV31 item_lowercase_high)) = Some "high"%string
  /\ firstV2 item_lowercase_high = None
  /\ bool_decide ("high"%string ∈ newerLabels) = false
  /\ getSeverity item_lowercase_high = HIGH.
Proof. repeat split; vm_compute; reflexivity. Qed.

(** C6, amended. Labels are compared after upper-casing. The severity is the
    newer scheme's label when that scheme is present and the label is one of
    CRITICAL, HIGH, MEDIUM, LOW; else the older scheme's label when it is one
    of HIGH, MEDIUM, LOW; else UNKNOWN. The score is the newer scheme's when
    that scheme is present, else the older scheme's, else absent. A record
    with both schemes reports the newer score, and the newer severity when
    its label is one of the four. *)
Theorem C6_two_tier_fallback :
  forall item : NvdCveItem,
    severity_label (getSeverity item) = twoTierLabel (newerLabel item) (olderLabel item)
    /\ getCvssScore item
       = match newerScore item with
         | Some s => Some s
         | None => olderScore item
         end
    /\ (forall v31 v2,
          firstV31 item = Some v31 -> firstV2 item = Some v2 ->
          getCvssScore item = Some (baseScore31 (cvssData31 v31))
          /\ (toUpperCase (baseSeverity31 (cvssData31 v31)) ∈ newerLabels ->
              severity_label (getSeverity item)
              = toUpperCase (baseSeverity31 (cvssData31 v31)))).
Proof.
  intros item. split; [apply twoTier_sound|]. split.
  - unfold getCvssScore, newerScore, olderScore.
    destruct (firstV31 item); simpl; [reflexivity|].
    destruct (firstV2 item); reflexivity.
  - intros v31 v2 H31 H2. split.
    + unfold getCvssScore. rewrite H31. reflexivity.
    + intros Hin. rewrite twoTier_sound. unfold newerLabel, twoTierLabel.
      rewrite H31. simpl. rewrite bool_decide_eq_true_2; [reflexivity|exact Hin].
Qed.

(** ** Deleting a technology *)

(** C10. Whatever the id and whatever the table holds, [deleteTechnology]
    resolves to [true] and the delete route answers 200 with a success
    payload, as long as the database statement itself goes through (else the
    route answers 500); whether a row with that id exists plays no part, and
    no answer is a 404. *)
Theorem C10_delete_reports_success :
  forall (env : Env) (id : string) (w : World),
    fst (deleteTechnology env id w)
    = (if dbFails env (ticks w) then Throw DbError else Ok true)
    /\ fst (deleteTechnologyRoute env id w)
       = Ok (if dbFails env (ticks w)
             then {| code := 500; body := ErrorJson "Failed to delete technology" |}
             else {| code := 200; body := SuccessJson true |})
    /\ (existsb (hasId id) (technologies w) = false ->
        dbFails env (ticks w) = false ->
        fst (deleteTechnology env id w) = Ok true
        /\ fst (deleteTechnologyRoute env id w)
           = Ok {| code := 200; body := SuccessJson true |}
        /\ technologies (snd (deleteTechnologyRoute env id w)) = technologies w).
Proof.
  intros env id w.
  unfold deleteTechnologyRoute, deleteTechnology, dbStatement, try_catch, bind,
    tick, modify, send, ret, throw.
  destruct (dbFails env (ticks w)) eqn:Hdb; simpl.
  - split; [reflexivity|]. split; [reflexivity|]. intros _ Hf. discriminate Hf.
  - split; [reflexivity|]. split; [reflexivity|]. intros Hno _.
    split; [reflexivity|]. split; [reflexivity|].
    induction (technologies w) as [|row rows IH]; simpl in *; [reflexivity|].
    apply orb_false_elim in Hno as [Hrow Hrows].
    rewrite Hrow. simpl. f_equal. apply IH. exact Hrows.
Qed.

(** ** Reasoning rules *)

Section Hoare.
Context {A B : Type}.

Lemma triple_ret (P : World -> Prop) (a : A) (Q : A -> World -> Prop) E :
  (forall w, P w -> Q a w) -> triple P (ret a) Q E.
Proof. intros H w Hw. simpl. auto. Qed.

Lemma triple_throw (P : World -> Prop) e (Q : A -> World -> Prop) (E : World -> Prop) :
  (forall w, P w -> E w) -> triple P (throw e) Q E.
Proof. intros H w Hw. simpl. auto. Qed.

Lemma triple_bind (P : World -> Prop) (m : M A) (k : A -> M B)
    (R : A -> World -> Prop) (Q : B -> World -> Prop) E :
  triple P m R E -> (forall a, triple (R a) (k a) Q E) -> triple P (bind m k) Q E.
Proof.
  intros Hm Hk w Hw. unfold bind. specialize (Hm w Hw).
  destruct (m w) as [[a|e] w']; [apply (Hk a w' Hm)|exact Hm].
Qed.

Lemma triple_try_catch (P : World -> Prop) (m : M A) (h : Error -> M A)
    (R : World -> Prop) (Q : A -> World -> Prop) E :
  triple P m Q R -> (forall e, triple R (h e) Q E) -> triple P (try_catch m h) Q E.
Proof.
  intros Hm Hh w Hw. unfold try_catch. specialize (Hm w Hw).
  destruct (m w) as [[a|e] w']; [exact Hm|apply (Hh e w' Hm)].
Qed.

Lemma triple_conseq (P P' : World -> Prop) (m : M A)
    (Q Q' : A -> World -> Prop) (E E' : World -> Prop) :
  triple P' m Q' E' ->
  (forall w, P w -> P' w) -> (forall a w, Q' a w -> Q a w) -> (forall w, E' w -> E w) ->
  triple P m Q E.
Proof.
  intros Hm HP HQ HE w Hw. specialize (Hm w (HP w Hw)).
  destruct (m w) as [[a|e] w']; auto.
Qed.

Lemma triple_gets (P : World -> Prop) (f : World -> A) (Q : A -> World -> Prop) E :
  (forall w, P w -> Q (f w) w) -> triple P (gets f) Q E.
Proof. intros H w Hw. simpl. auto. Qed.

Lemma triple_snd (P : World -> Prop) (m : M A) (Q : World -> Prop) w :
  triple P m (fun _ => Q) Q -> P w -> Q (snd (m w)).
Proof.
  intros Hm Hw. specialize (Hm w Hw). destruct (m w) as [[a|e] w']; exact Hm.
Qed.
End Hoare.

Lemma triple_modify (P : World -> Prop) (f : World -> World) (Q : unit -> World -> Prop) E :
  (forall w, P w -> Q tt (f w)) -> triple P (modify f) Q E.
Proof. intros H w Hw. simpl. auto. Qed.

Lemma triple_for_each {A} (Inv : World -> Prop) (body : A -> M unit) E (l : list A) :
  (forall x, List.In x l -> triple Inv (body x) (fun _ => Inv) E) ->
  triple Inv (for_each l body) (fun _ => Inv) E.
Proof.
  induction l as [|x l IH]; intros Hbody; simpl.
  - apply triple_ret. auto.
  - eapply triple_bind.
    + apply Hbody. left. reflexivity.
    + intros u. apply IH. intros y Hy. apply Hbody. right. exact Hy.
Qed.

(** A loop whose invariant grows with the elements gone through. *)
Lemma triple_for_each_done {A} (J : list A -> World -> Prop)
    (body : A -> M unit) E (l : list A) :
  (forall done x, triple (J done) (body x) (fun _ => J (done ++ [x])) E) ->
  forall done, triple (J done) (for_each l body) (fun _ => J (done ++ l)) E.
Proof.
  intros Hbody. induction l as [|x l IH]; intros done; simpl.
  - apply triple_ret. intros w Hw. rewrite app_nil_r. exact Hw.
  - eapply triple_bind; [apply Hbody|].
    intros u. eapply triple_conseq; [apply (IH (done ++ [x]))|auto| |auto].
    intros u2 w Hw. rewrite <- app_assoc in Hw. exact Hw.
Qed.

(** ** The technology table under the service's operations *)

Section TableFacts.
Variable env : Env.

(** What [updateTechnology] comes to. *)
Lemma updateTechnology_run (id : string) (u : TechnologyUpdates) (w : World) :
  updateTechnology env id u w
  = if dbFails env (ticks w)
    then (Throw DbError, set_ticks (S (ticks w)) w)
    else
      let rows' := List.map (fun row => if hasId id row then setColumns u row else row)
                     (technologies w) in
      (Ok (head (List.filter (hasId id) rows')),
       set_technologies rows' (set_ticks (S (ticks w)) w)).
Proof.
  unfold updateTechnology, dbStatement, bind, tick, throw, ret, gets, modify.
  destruct (dbFails env (ticks w)); reflexivity.
Qed.

(** [updateTechnology] on a property of the table: the statement either
    fails and leaves the table, or rewrites the rows with the id. *)
Lemma updateTechnology_triple (R R' : list Technology -> Prop) id u :
  (forall rows, R rows ->
     R' (List.map (fun row => if hasId id row then setColumns u row else row) rows)) ->
  triple (fun w => R (technologies w)) (updateTechnology env id u)
    (fun _ w' => R' (technologies w')) (fun w' => R (technologies w')).
Proof.
  intros Hstep w Hw. rewrite updateTechnology_run.
  destruct (dbFails env (ticks w)); simpl; auto.
Qed.

(** [rateLimitedFetch] leaves the table alone, is one interaction with
    the outside, and hands on what the outside answers to the request. *)
Lemma rateLimitedFetch_run (term : string) (w : World) :
  exists w',
    (technologies w' = technologies w /\ ticks w' = S (ticks w))
    /\ rateLimitedFetch env term w
       = (match fetchOutcome env (ticks w) term with
          | NetworkFailure => Throw FetchFailed
          | Responded r => Ok r
          end, w').
Proof.
  unfold rateLimitedFetch, fetch, now, gets, sleep, modify, tick, throw, ret, bind.
  destruct (rateLimitWait (clock w) (lastRequestTime w)) as [d|]; simpl;
    destruct (fetchOutcome env (ticks w) term) as [|resp];
    eexists; (split; [|reflexivity]); split; reflexivity.
Qed.

(** [fetchCvesForTechnology] never rejects and never touches the table;
    it resolves to the zero result, or to the summary of a parsed success
    response. *)
Lemma fetchCves_run (tech : Technology) (w : World) :
  exists r w',
    fetchCvesForTechnology env tech w = (Ok r, w')
    /\ (technologies w' = technologies w /\ ticks w' = S (ticks w))
    /\ (r = zeroResult
        \/ exists n term resp data,
             fetchOutcome env n term = Responded resp
             /\ fetchFails (Responded resp) = false
             /\ resp_json resp = Some data
             /\ r = summarise data).
Proof.
  unfold fetchCvesForTechnology.
  set (term := toLowerCase _).
  destruct (rateLimitedFetch_run term w) as (w1 & Htech & Hrun).
  unfold try_catch, bind at 1. rewrite Hrun.
  destruct (fetchOutcome env (ticks w) term) as [|resp] eqn:Hout.
  - exists zeroResult, w1. auto.
  - unfold fetchFails, json, sleep, modify, bind, throw, ret.
    destruct (resp_ok resp) eqn:Hok; simpl.
    + destruct (resp_json resp) as [data|] eqn:Hjson.
      * eexists (summarise data), _. split; [reflexivity|]. split; [exact Htech|].
        right. exists (ticks w), term, resp, data.
        rewrite Hok, Hjson. auto.
      * eexists zeroResult, _. split; [reflexivity|]. split; [exact Htech|]. auto.
    + destruct (resp_status resp =? 429); exists zeroResult, w1; auto.
Qed.

(** When every request fails, the result is the zero result. *)
Lemma fetchCves_offline (tech : Technology) (w : World) :
  externalAlwaysFails env ->
  exists w',
    fetchCvesForTechnology env tech w = (Ok zeroResult, w')
    /\ technologies w' = technologies w.
Proof.
  intros Hoff. destruct (fetchCves_run tech w) as (r & w' & Hrun & [Htech _] & Hr).
  exists w'. split; [|exact Htech].
  destruct Hr as [->|(n & term & resp & data & Hout & Hfails & _)]; [exact Hrun|].
  specialize (Hoff n term). rewrite Hout in Hoff. congruence.
Qed.

Lemma filter_length_le {X} (p : X -> bool) (l : list X) :
  (length (List.filter p l) <= length l)%nat.
Proof. induction l as [|x l IH]; simpl; [lia|]. destruct (p x); simpl; lia. Qed.

(** The counts of a summary are within the page. *)
Lemma summarise_bounded (data : NvdResponse) :
  pageWithinTotal data -> summaryBounded (summarise data).
Proof.
  unfold pageWithinTotal, summaryBounded, summarise. simpl. intros Hpage.
  pose proof (filter_length_le (fun c => bool_decide (cve_severity c = CRITICAL))
                (List.map toCveRecord (vulnerabilities data))) as Hc.
  pose proof (filter_length_le (fun c => bool_decide (cve_severity c = HIGH))
                (List.map toCveRecord (vulnerabilities data))) as Hh.
  rewrite length_map in Hc, Hh. lia.
Qed.

Lemma fetchCves_bounded (tech : Technology) (R : list Technology -> Prop) :
  consistentResponses env ->
  triple (fun w => R (technologies w)) (fetchCvesForTechnology env tech)
    (fun r w' => R (technologies w') /\ summaryBounded r) (fun _ => False).
Proof.
  intros Hcons w Hw.
  destruct (fetchCves_run tech w) as (r & w' & Hrun & [Htech _] & Hr).
  rewrite Hrun, Htech. split; [exact Hw|].
  destruct Hr as [->|(n & term & resp & data & Hout & Hfails & Hjson & ->)].
  - unfold summaryBounded, zeroResult. simpl. lia.
  - apply summarise_bounded. apply (Hcons n term resp data Hout); [|exact Hjson].
    unfold fetchFails in Hfails. apply orb_false_elim in Hfails as [Hok _].
    apply negb_false_iff in Hok. exact Hok.
Qed.
End TableFacts.

(** ** The tracker keeps the counts within the total *)

Section CountsWithinTotal.
Variable env : Env.

Lemma setColumns_status_bounded (s : TechStatus) (row : Technology) :
  countsBounded row -> countsBounded (setColumns (statusOnly s) row).
Proof. unfold countsBounded. simpl. auto. Qed.

Lemma setColumns_checked_bounded (r : CveSummary) (s : TechStatus) (d : Z)
    (row : Technology) :
  summaryBounded r -> countsBounded (setColumns (checkedUpdates r s d) row).
Proof. unfold countsBounded, summaryBounded. simpl. auto. Qed.

Lemma rewrite_rows_Forall (P : Technology -> Prop) (id : string)
    (u : TechnologyUpdates) (rows : list Technology) :
  (forall row, P row -> P (setColumns u row)) ->
  Forall P rows ->
  Forall P (List.map (fun row => if hasId id row then setColumns u row else row) rows).
Proof.
  intros Hu Hrows. induction Hrows as [|row rows Hrow _ IH]; simpl; constructor; auto.
  destruct (hasId id row); auto.
Qed.

Lemma update_status_bounded (id : string) (s : TechStatus) :
  triple tableBounded (updateTechnology env id (statusOnly s))
    (fun _ => tableBounded) tableBounded.
Proof.
  apply (updateTechnology_triple env (Forall countsBounded) (Forall countsBounded)).
  intros rows. apply rewrite_rows_Forall. apply setColumns_status_bounded.
Qed.

Lemma update_checked_bounded (id : string) (r : CveSummary) (s : TechStatus) (d : Z) :
  summaryBounded r ->
  triple tableBounded (updateTechnology env id (checkedUpdates r s d))
    (fun _ => tableBounded) tableBounded.
Proof.
  intros Hr.
  apply (updateTechnology_triple env (Forall countsBounded) (Forall countsBounded)).
  intros rows. apply rewrite_rows_Forall. intros row _.
  apply setColumns_checked_bounded. exact Hr.
Qed.

(** The steps the two checks share: mark, fetch, read the clock. *)
Ltac check_steps Hcons tech :=
  eapply triple_bind; [apply update_status_bounded|]; intros ?;
  eapply triple_bind;
    [eapply triple_conseq;
       [apply (fetchCves_bounded env tech (Forall countsBounded) Hcons)
       |auto|intros ? ? Hw; exact Hw|intros ? []]|];
  intros r; eapply triple_bind;
    [apply (triple_gets _ clock (fun _ w => tableBounded w /\ summaryBounded r));
     intros ? Hw; exact Hw|];
  intros d.

Lemma checkSingle_bounded (tech : Technology) :
  consistentResponses env ->
  triple tableBounded (checkSingleTechnology env (updateTechnology env) tech)
    (fun _ => tableBounded) tableBounded.
Proof.
  intros Hcons. unfold checkSingleTechnology. check_steps Hcons tech.
  intros w [Hw Hr]. apply (update_checked_bounded _ r _ d Hr w Hw).
Qed.

Lemma dbStatement_keeps (R : list Technology -> Prop) :
  triple (fun w => R (technologies w)) (dbStatement env)
    (fun _ w' => R (technologies w')) (fun w' => R (technologies w')).
Proof.
  intros w Hw. unfold dbStatement, bind, tick, throw, ret.
  destruct (dbFails env (ticks w)); exact Hw.
Qed.

Lemma getAll_keeps (R : list Technology -> Prop) :
  triple (fun w => R (technologies w)) (getAllTechnologies env)
    (fun rows w' => R (technologies w') /\ Permutation rows (technologies w'))
    (fun w' => R (technologies w')).
Proof.
  unfold getAllTechnologies. eapply triple_bind; [apply dbStatement_keeps|].
  intros n. eapply triple_bind
    with (R := fun rows w' => R (technologies w') /\ rows = technologies w').
  { apply triple_gets. auto. }
  intros rows. apply triple_ret. intros w [Hw ->]. split; [exact Hw|apply arrange_perm].
Qed.

Lemma bulkCheck_bounded :
  consistentResponses env ->
  triple tableBounded (bulkCheck env) (fun _ => tableBounded) tableBounded.
Proof.
  intros Hcons. unfold bulkCheck, checkAllTechnologies.
  eapply triple_bind; [apply (getAll_keeps (Forall countsBounded))|].
  intros rows. eapply triple_conseq;
    [apply (triple_for_each tableBounded _ tableBounded rows)
    |intros w [Hw _]; exact Hw|auto|auto].
  intros tech _. eapply triple_try_catch.
  - check_steps Hcons tech. eapply triple_bind.
    + intros w [Hw Hr]. apply (update_checked_bounded _ r _ d Hr w Hw).
    + intros o. apply triple_ret. auto.
  - intros e. eapply triple_bind; [apply update_status_bounded|].
    intros o. apply triple_ret. auto.
Qed.

Lemma createTechnology_bounded (tech : InsertTechnology) :
  insertBounded tech ->
  triple tableBounded (createTechnology env tech) (fun _ => tableBounded) tableBounded.
Proof.
  intros Hins w Hw. unfold createTechnology, dbStatement, bind, tick, throw, ret,
    now, gets, modify.
  destruct (dbFails env (ticks w)); [exact Hw|]. simpl.
  destruct (existsb _ _); [exact Hw|]. simpl.
  unfold tableBounded. simpl. apply Forall_app. split; [exact Hw|].
  constructor; [exact Hins|constructor].
Qed.

Lemma defaultTechnologies_bounded : Forall insertBounded defaultTechnologies.
Proof.
  unfold defaultTechnologies.
  repeat (apply List.Forall_cons; [split; simpl; lia|]). apply List.Forall_nil.
Qed.

Lemma seedTechnologies_bounded :
  triple tableBounded (seedTechnologies env) (fun _ => tableBounded) tableBounded.
Proof.
  unfold seedTechnologies.
  eapply triple_bind; [apply (getAll_keeps (Forall countsBounded))|].
  intros rows. destruct (length rows =? 0)%nat.
  - eapply triple_conseq;
      [apply (triple_for_each tableBounded _ tableBounded defaultTechnologies)
      |intros w [Hw _]; exact Hw|auto|auto].
    intros tech Hin. eapply triple_bind.
    + apply createTechnology_bounded.
      pose proof defaultTechnologies_bounded as Hall.
      rewrite List.Forall_forall in Hall. apply Hall. exact Hin.
    + intros o. apply triple_ret. auto.
  - apply triple_ret. intros w [Hw _]. exact Hw.
Qed.
End CountsWithinTotal.

(** C9, as stated, fails: the database answers a search with one critical
    record and a total of zero, and the single check stores a critical count
    of 1 with a vulnerability count of 0. *)
Lemma C9_critical_exceeds_total :
  List.map (fun t => (vulnerabilityCount t, criticalCount t, highCount t))
    (technologies world_one) = [(0, 0, 0)]
  /\ List.map (fun t => (vulnerabilityCount t, criticalCount t, highCount t))
       (technologies (snd (checkSingleTechnology env_undercount
                             (updateTechnology env_undercount) react world_one)))
     = [(0, 1, 0)].
Proof. split; vm_compute; reflexivity. Qed.

(** C9, amended. Let every parsed response of the vulnerability database
    report a total that covers the page it returns, and let the counts of
    every tracked technology be within its total. Then after a single check,
    after a bulk check and after seeding, whatever fails on the way, the
    critical and the high count of every technology are within its total. *)
Theorem C9_counts_within_total :
  forall (env : Env) (w : World),
    consistentResponses env ->
    Forall countsBounded (technologies w) ->
    (forall tech,
       Forall countsBounded
         (technologies (snd (checkSingleTechnology env (updateTechnology env) tech w))))
    /\ Forall countsBounded (technologies (snd (bulkCheck env w)))
    /\ Forall countsBounded (technologies (snd (seedTechnologies env w))).
Proof.
  intros env w Hcons Hw. split; [|split].
  - intros tech.
    exact (triple_snd _ _ tableBounded w (checkSingle_bounded env tech Hcons) Hw).
  - exact (triple_snd _ _ tableBounded w (bulkCheck_bounded env Hcons) Hw).
  - exact (triple_snd _ _ tableBounded w (seedTechnologies_bounded env) Hw).
Qed.

(** The amended statement on a database that answers every search with one
    critical record and a total of one. *)
Lemma C9_counts_within_total_witness :
  consistentResponses env_one_critical
  /\ Forall countsBounded (technologies world_two)
  /\ (forall tech,
        Forall countsBounded
          (technologies (snd (checkSingleTechnology env_one_critical
                                (updateTechnology env_one_critical) tech world_two))))
  /\ Forall countsBounded (technologies (snd (bulkCheck env_one_critical world_two)))
  /\ Forall countsBounded (technologies (snd (seedTechnologies env_one_critical world_two))).
Proof.
  assert (Hcons : consistentResponses env_one_critical).
  { intros n term r data Hout _ Hjson. simpl in Hout. injection Hout as <-.
    simpl in Hjson. injection Hjson as <-. unfold pageWithinTotal. simpl. lia. }
  assert (Hw : Forall countsBounded (technologies world_two)).
  { repeat constructor; simpl; lia. }
  split; [exact Hcons|]. split; [exact Hw|].
  exact (C9_counts_within_total env_one_critical world_two Hcons Hw).
Defined.

(** ** The bulk check when the vulnerability database cannot be reached *)

Section Offline.
Variable env : Env.
Hypothesis Hoff : externalAlwaysFails env.
Hypothesis Hdb : storeAlwaysAnswers env.

(** With a store that answers, [updateTechnology] rewrites the rows. *)
Lemma updateTechnology_answers (R R' : list Technology -> Prop) id u :
  (forall rows, R rows ->
     R' (List.map (fun row => if hasId id row then setColumns u row else row) rows)) ->
  triple (fun w => R (technologies w)) (updateTechnology env id u)
    (fun _ w' => R' (technologies w')) (fun _ => False).
Proof.
  intros Hstep w Hw. rewrite updateTechnology_run. rewrite Hdb. simpl. auto.
Qed.

Lemma fetchCves_offline_triple (tech : Technology) (R : list Technology -> Prop) :
  triple (fun w => R (technologies w)) (fetchCvesForTechnology env tech)
    (fun r w' => R (technologies w') /\ r = zeroResult) (fun _ => False).
Proof.
  intros w Hw. destruct (fetchCves_offline env tech w Hoff) as (w' & Hrun & Htech).
  rewrite Hrun, Htech. auto.
Qed.

Lemma getAll_answers (R : list Technology -> Prop) :
  triple (fun w => R (technologies w)) (getAllTechnologies env)
    (fun rows w' => R (technologies w') /\ Permutation rows (technologies w'))
    (fun _ => False).
Proof.
  intros w Hw. unfold getAllTechnologies, dbStatement, bind, tick, throw, ret, gets.
  rewrite Hdb. simpl. split; [exact Hw|apply arrange_perm].
Qed.

Lemma rewrite_rows_ids (id : string) (u : TechnologyUpdates) (rows : list Technology) :
  List.map tech_id (List.map (fun row => if hasId id row then setColumns u row else row) rows)
  = List.map tech_id rows.
Proof.
  induction rows as [|row rows IH]; simpl; [reflexivity|].
  rewrite IH. destruct (hasId id row); reflexivity.
Qed.

Lemma hasId_false (id : string) (row : Technology) :
  hasId id row = false -> tech_id row <> id.
Proof. unfold hasId. intros H. apply String.eqb_neq. exact H. Qed.

Section Loop.
Variable ids0 : list string.

Lemma mark_step (done : list Technology) (x : Technology) (rows : list Technology) :
  checkedSoFar ids0 done rows ->
  markedOne ids0 done x
    (List.map (fun row => if hasId (tech_id x) row
                          then setColumns (statusOnly checking) row else row) rows).
Proof.
  intros [Hids Hrows]. split; [rewrite rewrite_rows_ids; exact Hids|].
  clear Hids. induction Hrows as [|row rows Hrow _ IH]; simpl; constructor; auto.
  destruct (hasId (tech_id x) row) eqn:Hid.
  - simpl. intros _ Hne. apply String.eqb_eq in Hid. congruence.
  - intros Hin _. auto.
Qed.

Lemma write_step (done : list Technology) (x : Technology) (d : Z)
    (rows : list Technology) :
  markedOne ids0 done x rows ->
  checkedSoFar ids0 (done ++ [x])
    (List.map (fun row => if hasId (tech_id x) row
                          then setColumns (checkedUpdates zeroResult
                                 (determineSecurityStatus 0 0 0) d) row
                          else row) rows).
Proof.
  intros [Hids Hrows]. split; [rewrite rewrite_rows_ids; exact Hids|].
  clear Hids. induction Hrows as [|row rows Hrow _ IH]; simpl; constructor; auto.
  destruct (hasId (tech_id x) row) eqn:Hid.
  - intros _. unfold zeroSecure. simpl. auto.
  - intros Hin. apply Hrow.
    + rewrite List.map_app in Hin. apply List.in_app_or in Hin as [Hin|Hin]; [exact Hin|].
      simpl in Hin. destruct Hin as [Heq|[]].
      apply hasId_false in Hid. congruence.
    + apply hasId_false in Hid. exact Hid.
Qed.

Lemma offline_body (done : list Technology) (x : Technology) :
  triple (fun w => checkedSoFar ids0 done (technologies w))
    (try_catch
       (updateTechnology env (tech_id x) (statusOnly checking) ;;
        let* r := fetchCvesForTechnology env x in
        let status := determineSecurityStatus (totalCount r)
                        (summary_criticalCount r) (summary_highCount r) in
        let* date := now in
        updateTechnology env (tech_id x) (checkedUpdates r status date) ;;
        ret tt)
       (fun _ => updateTechnology env (tech_id x) (statusOnly unknown) ;; ret tt))%monad
    (fun _ w' => checkedSoFar ids0 (done ++ [x]) (technologies w'))
    (fun _ => False).
Proof.
  eapply triple_try_catch with (R := fun _ => False); [|intros e w []].
  eapply triple_bind.
  { apply (updateTechnology_answers (checkedSoFar ids0 done) (markedOne ids0 done x)).
    apply mark_step. }
  intros u1. eapply triple_bind.
  { apply (fetchCves_offline_triple x (markedOne ids0 done x)). }
  intros r. eapply triple_bind.
  { apply (triple_gets _ clock
             (fun _ w => markedOne ids0 done x (technologies w) /\ r = zeroResult)).
    intros w Hw. exact Hw. }
  intros d.
  eapply triple_bind
    with (R := fun _ w' => checkedSoFar ids0 (done ++ [x]) (technologies w')).
  { intros w [Hw ->].
    exact (updateTechnology_answers (markedOne ids0 done x)
             (checkedSoFar ids0 (done ++ [x])) _ _ (write_step done x d) w Hw). }
  intros u2. apply triple_ret. auto.
Qed.
End Loop.

Lemma ids_cover (rows before table : list Technology) (row : Technology) :
  Permutation rows before ->
  List.map tech_id table = List.map tech_id before ->
  List.In row table -> List.In (tech_id row) (List.map tech_id rows).
Proof.
  intros Hperm Hids Hin.
  apply (Permutation_in (l := List.map tech_id before));
    [apply Permutation_map, Permutation_sym, Hperm|].
  rewrite <- Hids. apply List.in_map. exact Hin.
Qed.

Lemma bulkCheck_offline (w : World) :
  triple (fun w0 => w0 = w) (bulkCheck env)
    (fun _ w' => Forall zeroSecure (technologies w')
                 /\ List.map tech_id (technologies w') = List.map tech_id (technologies w))
    (fun _ => False).
Proof.
  unfold bulkCheck, checkAllTechnologies.
  eapply triple_bind.
  { eapply triple_conseq;
      [apply (getAll_answers (fun rows => rows = technologies w))
      |intros w0 ->; reflexivity|intros rows w' H; exact H|auto]. }
  intros rows.
  set (ids0 := List.map tech_id (technologies w)).
  set (J := fun (done : list Technology) (w' : World) =>
              Permutation rows (technologies w)
              /\ checkedSoFar ids0 done (technologies w')).
  eapply triple_conseq;
    [apply (triple_for_each_done J _ (fun _ => False) rows) with (done := [])| | |auto].
  - intros done x w' [Hrows Hw'].
    pose proof (offline_body ids0 done x w' Hw') as Hbody.
    destruct (try_catch _ _ w') as [[u|e] w'']; [split; [exact Hrows|exact Hbody]|exact Hbody].
  - intros w' [Hw' Hrows]. rewrite Hw' in Hrows. split; [exact Hrows|].
    split; [unfold ids0; congruence|]. apply List.Forall_forall. intros row _ Hin.
    simpl in Hin. contradiction.
  - intros u w' [Hrows [Hids Hdone]]. simpl in Hdone.
    split; [|exact Hids].
    rewrite List.Forall_forall in Hdone. apply List.Forall_forall. intros row Hin.
    apply (Hdone row Hin). apply (ids_cover rows (technologies w) (technologies w') row Hrows Hids Hin).
Qed.
End Offline.

(** C2. With a vulnerability database that cannot be reached (and a store
    that answers), a bulk check goes through every technology without
    rejecting and leaves every one of them [secure] with zero counts, none
    [unknown]: [fetchCvesForTechnology] turns every failure of its request
    into the zero result, so the [catch] of [checkAllTechnologies], which
    would write [unknown], is never reached, and the status rule makes the
    zero result [secure]. The table holds the technologies it held. *)
Theorem C2_offline_check_marks_secure :
  forall (env : Env) (w : World),
    externalAlwaysFails env ->
    storeAlwaysAnswers env ->
    fst (bulkCheck env w) = Ok tt
    /\ Forall zeroSecure (technologies (snd (bulkCheck env w)))
    /\ Forall (fun row => status row <> unknown) (technologies (snd (bulkCheck env w)))
    /\ Permutation (List.map tech_id (technologies (snd (bulkCheck env w))))
         (List.map tech_id (technologies w)).
Proof.
  intros env w Hoff Hdb.
  pose proof (bulkCheck_offline env Hoff Hdb w w eq_refl) as H.
  destruct (bulkCheck env w) as [[[]|e] w']; simpl; [|destruct H].
  destruct H as [Hsec Hids]. split; [reflexivity|]. split; [exact Hsec|]. split.
  - eapply List.Forall_impl; [|exact Hsec]. intros row [Hstatus _]. congruence.
  - rewrite Hids. reflexivity.
Qed.

(** The scenario: the database cannot be reached, the table holds one
    technology that is [unknown] and one that is [vulnerable] with 12
    vulnerabilities, one of them critical and three high. The bulk check
    resolves and both are [secure] with zero counts afterwards. *)
Lemma C2_offline_check_marks_secure_witness :
  (forall n term, fetchOutcome env_offline n term = NetworkFailure)
  /\ List.map (fun row => (tech_id row, status row, vulnerabilityCount row,
                           criticalCount row, highCount row)) (technologies world_two)
     = [("t-react", unknown, 0, 0, 0); ("t-express", vulnerable, 12, 1, 3)]
  /\ Permutation
       (List.map (fun row => (tech_id row, status row, vulnerabilityCount row,
                              criticalCount row, highCount row))
          (technologies (snd (bulkCheck env_offline world_two))))
       [("t-react", secure, 0, 0, 0); ("t-express", secure, 0, 0, 0)]
  /\ externalAlwaysFails env_offline
  /\ storeAlwaysAnswers env_offline
  /\ fst (bulkCheck env_offline world_two) = Ok tt
  /\ Forall zeroSecure (technologies (snd (bulkCheck env_offline world_two)))
  /\ Forall (fun row => status row <> unknown)
       (technologies (snd (bulkCheck env_offline world_two)))
  /\ Permutation (List.map tech_id (technologies (snd (bulkCheck env_offline world_two))))
       (List.map tech_id (technologies world_two)).
Proof.
  assert (Hoff : externalAlwaysFails env_offline) by (intros n term; reflexivity).
  assert (Hdb : storeAlwaysAnswers env_offline) by (intros n; reflexivity).
  split; [intros n term; reflexivity|]. split; [reflexivity|].
  split; [vm_compute; reflexivity|].
  split; [exact Hoff|]. split; [exact Hdb|].
  exact (C2_offline_check_marks_secure env_offline world_two Hoff Hdb).
Defined.

(** ** The completion callback *)

Section Completion.
Variable env : Env.
Variable findingsByCheckType : CheckType -> list FindingTemplate.

(** Sampling only draws random numbers. *)
Lemma sampleTemplates_keeps (store : gmap string SecurityScan) scanId tgt checkType depth
    (templates : list FindingTemplate) :
  forall acc,
    triple (fun w => scans w = store)
      (sampleTemplates env scanId tgt checkType depth templates acc)
      (fun _ w' => scans w' = store) (fun _ => False).
Proof.
  induction templates as [|template rest IH]; intros acc; simpl.
  - apply triple_ret. auto.
  - eapply triple_bind with (R := fun _ w' => scans w' = store).
    + intros w Hw. exact Hw.
    + intros r. destruct (Qlt_le_dec r (findingProbability depth)); apply IH.
Qed.

Lemma generateFindings_keeps (store : gmap string SecurityScan) scanId tgt
    (types : list CheckType) depth :
  triple (fun w => scans w = store)
    (generateFindings env findingsByCheckType scanId tgt types depth)
    (fun _ w' => scans w' = store) (fun _ => False).
Proof.
  unfold generateFindings. generalize (@nil InsertSecurityFinding) as acc.
  induction types as [|checkType rest IH]; intros acc; simpl.
  - apply triple_ret. auto.
  - eapply triple_bind; [apply sampleTemplates_keeps|]. intros acc'. apply IH.
Qed.

(** [createFinding] writes to the findings only. *)
Lemma createFinding_keeps (store : gmap string SecurityScan) (finding : InsertSecurityFinding) :
  triple (fun w => scans w = store) (createFinding env finding)
    (fun _ w' => scans w' = store) (fun _ => False).
Proof. intros w Hw. exact Hw. Qed.

(** [updateScan] on a stored scan writes the spread object. *)
Lemma updateScan_stored (id : string) (updates : ScanUpdates) (w : World)
    (s : SecurityScan) :
  scans w !! id = Some s ->
  updateScan id updates w
  = (Ok (Some (spreadScan s updates)),
     set_scans (<[id := spreadScan s updates]> (scans w)) w).
Proof.
  intros Hs. unfold updateScan, bind, gets, modify, ret. rewrite Hs. reflexivity.
Qed.

(** Whatever the status of the stored scan, the callback stores it as
    completed, with a completion time and a score. *)
Lemma scanCompletion_writes (scan : SecurityScan) (w : World) (s : SecurityScan) :
  scans w !! scan_id scan = Some s ->
  exists date score,
    scans (snd (scanCompletion env findingsByCheckType scan w)) !! scan_id scan
    = Some (spreadScan s (completedUpdates date score)).
Proof.
  intros Hs.
  assert (Hrun : triple (fun w0 => scans w0 = scans w)
            (scanCompletion env findingsByCheckType scan)
            (fun _ w' => exists date score,
               scans w' !! scan_id scan = Some (spreadScan s (completedUpdates date score)))
            (fun _ => False)).
  { unfold scanCompletion.
    eapply triple_try_catch with (R := fun _ => False); [|intros e w0 []].
    eapply triple_bind; [apply generateFindings_keeps|]. intros findingsData.
    eapply triple_bind with (R := fun _ w' => scans w' = scans w).
    { apply (triple_for_each (fun w' => scans w' = scans w)).
      intros finding _. eapply triple_bind; [apply createFinding_keeps|].
      intros f. apply triple_ret. auto. }
    intros u. eapply triple_bind with (R := fun _ w' => scans w' = scans w).
    { apply triple_gets. auto. }
    intros date. eapply triple_bind
      with (R := fun _ w' => exists date score,
              scans w' !! scan_id scan = Some (spreadScan s (completedUpdates date score))).
    { intros w0 Hw0. rewrite (updateScan_stored _ _ w0 s) by (rewrite Hw0; exact Hs).
      exists date, (calculateSecurityScore findingsData). simpl.
      apply lookup_insert_eq. }
    intros o. apply triple_ret. auto. }
  specialize (Hrun w eq_refl).
  destruct (scanCompletion env findingsByCheckType scan w) as [[[]|e] w']; simpl;
    [exact Hrun|destruct Hrun].
Qed.
End Completion.

(** C1. The completion callback does not look at the status: on a scan that
    is stored as cancelled it stores status [completed], a completion time
    and a score, so the cancelled status does not win. *)
Theorem C1_completion_overwrites_cancelled :
  forall (env : Env) (findingsByCheckType : CheckType -> list FindingTemplate)
         (scan : SecurityScan) (w : World) (s : SecurityScan),
    scans w !! scan_id scan = Some s ->
    scan_status s = cancelled ->
    exists s',
      scans (snd (scanCompletion env findingsByCheckType scan w)) !! scan_id scan = Some s'
      /\ scan_status s' = completed
      /\ is_Some (overallScore s').
Proof.
  intros env cat scan w s Hs _.
  destruct (scanCompletion_writes env cat scan w s Hs) as (date & score & Hw).
  eexists. split; [exact Hw|]. split; [reflexivity|]. simpl. eauto.
Qed.

(** The scan of the scenario: posted, cancelled a second later; the timer
    fires when it is due and the stored scan is completed with score 66. *)
Lemma C1_completion_overwrites_cancelled_witness :
  stored "uuid-0" (snd (serve postThenCancel (boot 0))) = Some (cancelled, None)
  /\ timers (snd (serve postThenCancel (boot 0))) = [cancelledTimer]
  /\ stored "uuid-0" (snd (serve timerDue (snd (serve postThenCancel (boot 0)))))
     = Some (completed, Some 66)
  /\ exists s',
       scans (snd (scanCompletion env_scans sslCatalogue
                     (t_scan (cancelledTimer))
                     (snd (serve postThenCancel (boot 0))))) !! "uuid-0" = Some s'
       /\ scan_status s' = completed
       /\ is_Some (overallScore s').
Proof.
  split; [vm_compute; reflexivity|]. split; [vm_compute; reflexivity|].
  split; [vm_compute; reflexivity|].
  refine (C1_completion_overwrites_cancelled env_scans sslCatalogue
            (t_scan cancelledTimer) (snd (serve postThenCancel (boot 0)))
            cancelledScan _ _).
  - vm_compute. reflexivity.
  - reflexivity.
Defined.

(** C3. A terminal status does not stay: the scan is read as [cancelled],
    which is terminal, and after its timer has fired the same scan is read as
    [completed]. *)
Theorem C3_terminal_status_changes :
  List.map statusSeen
    (fst (serve [PostScan quickSslScan; CancelScan "uuid-0"; GetScan "uuid-0";
                 Elapse 3000; TimerFires 0; GetScan "uuid-0"] (boot 0)))
  = [Some pending; Some cancelled; Some cancelled; None; None; Some completed]
  /\ terminal cancelled = true.
Proof. split; vm_compute; reflexivity. Qed.

(** On a store whose statements wait for the database the cancel route can
    be overtaken between its read and its write: it reads [running], the
    timer fires and stores [completed] with the score, and the route then
    stores [cancelled] over it; the score stays. *)
Lemma cancel_overtaken_keeps_score :
  let w1 := snd (serve [PostScan quickSslScan; Elapse 3000] (boot 0)) in
  let seen := scans w1 !! "uuid-0"%string in
  let w2 := snd (serve [TimerFires 0] w1) in
  let w3 := snd (try_catch (cancelAfterRead "uuid-0" seen) cancelFailed w2) in
  (scan_status <$> seen) = Some running
  /\ stored "uuid-0" w2 = Some (completed, Some 66)
  /\ stored "uuid-0" w3 = Some (cancelled, Some 66).
Proof. repeat split; vm_compute; reflexivity. Qed.

(** ** Checks whose write-back fails *)

Section WriteBack.
Variable env : Env.

Lemma rewrite_rows_marked (id : string) (u : TechnologyUpdates) (s : TechStatus)
    (rows : list Technology) :
  ut_status u = Some s ->
  Forall (fun row => tech_id row = id -> status row = s)
    (List.map (fun row => if hasId id row then setColumns u row else row) rows).
Proof.
  intros Hu. induction rows as [|row rows IH]; simpl; constructor; auto.
  destruct (hasId id row) eqn:Hid.
  - intros _. simpl. rewrite Hu. reflexivity.
  - intros Heq. apply String.eqb_neq in Hid. contradiction.
Qed.

(** [updateTechnology], with what a failure leaves behind. *)
Lemma updateTechnology_or_failed (R R' : list Technology -> Prop) id u :
  (forall rows, R rows ->
     R' (List.map (fun row => if hasId id row then setColumns u row else row) rows)) ->
  triple (fun w => R (technologies w)) (updateTechnology env id u)
    (fun _ w' => R' (technologies w'))
    (fun w' => R (technologies w') /\ lastFailed env w').
Proof.
  intros Hstep w Hw. rewrite updateTechnology_run.
  destruct (dbFails env (ticks w)) eqn:Hdb; simpl; [|auto].
  split; [exact Hw|]. exists (ticks w). auto.
Qed.

Lemma determineSecurityStatus_settled (t c h : Z) :
  determineSecurityStatus t c h <> checking.
Proof.
  unfold determineSecurityStatus.
  destruct (_ || _); [discriminate|]. destruct (t =? 0); [discriminate|].
  destruct (_ || _); discriminate.
Qed.

Lemma mark_others (x : Technology) (rows : list Technology) :
  noneChecking rows ->
  othersNotChecking x
    (List.map (fun row => if hasId (tech_id x) row
                          then setColumns (statusOnly checking) row else row) rows).
Proof.
  intros Hrows. induction Hrows as [|row rows Hrow _ IH]; simpl; constructor; auto.
  destruct (hasId (tech_id x) row) eqn:Hid; [|auto].
  intros Hne. apply String.eqb_eq in Hid. contradiction.
Qed.

Lemma settle_marked (x : Technology) (u : TechnologyUpdates) (s : TechStatus)
    (rows : list Technology) :
  ut_status u = Some s -> s <> checking ->
  othersNotChecking x rows ->
  noneChecking
    (List.map (fun row => if hasId (tech_id x) row then setColumns u row else row) rows).
Proof.
  intros Hu Hs Hrows. induction Hrows as [|row rows Hrow _ IH]; simpl; constructor; auto.
  destruct (hasId (tech_id x) row) eqn:Hid.
  - simpl. rewrite Hu. exact Hs.
  - apply Hrow. apply String.eqb_neq in Hid. exact Hid.
Qed.

Lemma noneChecking_others (x : Technology) (rows : list Technology) :
  noneChecking rows -> othersNotChecking x rows.
Proof. apply List.Forall_impl. auto. Qed.

(** The bulk check, when the store never fails twice in a row: a failed
    statement inside the check of a technology is followed by the revert,
    which goes through, and no technology is left [checking]. *)
Lemma bulkCheck_reverts :
  neverTwiceInARow env ->
  triple (fun w => noneChecking (technologies w)) (bulkCheck env)
    (fun _ w' => noneChecking (technologies w'))
    (fun w' => noneChecking (technologies w')).
Proof.
  intros Hnever. unfold bulkCheck, checkAllTechnologies.
  eapply triple_bind; [apply (getAll_keeps env noneChecking)|].
  intros rows. eapply triple_conseq;
    [apply (triple_for_each (fun w => noneChecking (technologies w)) _
              (fun w => noneChecking (technologies w)) rows)
    |intros w [Hw _]; exact Hw|auto|auto].
  intros x _.
  eapply triple_conseq
    with (P' := fun w => noneChecking (technologies w))
         (Q' := fun _ w => noneChecking (technologies w))
         (E' := fun _ => False); [|auto|auto|intros w []].
  eapply triple_try_catch
    with (R := fun w' => othersNotChecking x (technologies w') /\ lastFailed env w').
  - eapply triple_bind.
    { eapply triple_conseq;
        [apply (updateTechnology_or_failed noneChecking (othersNotChecking x)
                  (tech_id x) (statusOnly checking) (mark_others x))
        |auto|intros o w Hw; exact Hw
        |intros w [Hw Hf]; split; [apply noneChecking_others; exact Hw|exact Hf]]. }
    intros u1. eapply triple_bind
      with (R := fun _ w' => othersNotChecking x (technologies w')).
    { intros w Hw.
      destruct (fetchCves_run env x w) as (r & w' & Hrun & [Htech _] & _).
      rewrite Hrun. rewrite Htech. exact Hw. }
    intros r. eapply triple_bind
      with (R := fun _ w' => othersNotChecking x (technologies w')).
    { apply triple_gets. auto. }
    intros date. eapply triple_bind
      with (R := fun _ w' => noneChecking (technologies w')).
    { apply (updateTechnology_or_failed (othersNotChecking x) noneChecking).
      intros rows0.
      apply (settle_marked x
               (checkedUpdates r (determineSecurityStatus (totalCount r)
                  (summary_criticalCount r) (summary_highCount r)) date)
               (determineSecurityStatus (totalCount r)
                  (summary_criticalCount r) (summary_highCount r)) rows0 eq_refl).
      apply determineSecurityStatus_settled. }
    intros u2. apply triple_ret. auto.
  - intros e w [Hw (n & Hticks & Hfailed)].
    unfold bind. rewrite updateTechnology_run. rewrite Hticks, (Hnever n Hfailed).
    simpl. apply (settle_marked x (statusOnly unknown) unknown _ eq_refl);
      [discriminate|exact Hw].
Qed.
End WriteBack.

(** C4. A single check whose write-back fails leaves the technology
    [checking]: [checkSingleTechnology] has marked it, rejects, and nothing
    reverts the mark. *)
Theorem C4_single_check_left_checking :
  forall (env : Env) (tech : Technology) (w : World),
    dbFails env (ticks w) = false ->
    dbFails env (S (S (ticks w))) = true ->
    fst (checkSingleTechnology env (updateTechnology env) tech w) = Throw DbError
    /\ Forall (fun row => tech_id row = tech_id tech -> status row = checking)
         (technologies (snd (checkSingleTechnology env (updateTechnology env) tech w))).
Proof.
  intros env tech w H1 H3.
  assert (Hrun : exists w',
             checkSingleTechnology env (updateTechnology env) tech w = (Throw DbError, w')
             /\ technologies w'
                = List.map (fun row => if hasId (tech_id tech) row
                                       then setColumns (statusOnly checking) row else row)
                    (technologies w)).
  { unfold checkSingleTechnology.
    unfold bind at 1. rewrite updateTechnology_run, H1. cbv zeta.
    set (w1 := set_technologies _ _).
    destruct (fetchCves_run env tech w1) as (r & w2 & Hrun & [Htech Hticks] & _).
    unfold bind at 1. rewrite Hrun.
    unfold bind at 1. unfold now, gets.
    rewrite updateTechnology_run.
    replace (ticks w2) with (S (S (ticks w))) by (rewrite Hticks; reflexivity).
    rewrite H3. eexists. split; [reflexivity|].
    simpl. rewrite Htech. reflexivity. }
  destruct Hrun as (w' & -> & Hrows). simpl. split; [reflexivity|].
  rewrite Hrows. apply rewrite_rows_marked. reflexivity.
Qed.

(** The scenario: through the route the check of [t-react] answers 500 and
    leaves it [checking]; the bulk check, on the same failure, reverts it to
    [unknown]. *)
Lemma C4_single_check_left_checking_witness :
  fst (checkTechnologyRoute env_writeback_fails "t-react" world_one)
  = Ok {| code := 500; body := ErrorJson "Failed to check technology" |}
  /\ List.map status
       (technologies (snd (checkTechnologyRoute env_writeback_fails "t-react" world_one)))
     = [checking]
  /\ List.map status (technologies (snd (bulkCheck env_writeback_fails world_one)))
     = [unknown]
  /\ fst (checkSingleTechnology env_writeback_fails (updateTechnology env_writeback_fails)
            react world_after_read) = Throw DbError
  /\ Forall (fun row => tech_id row = tech_id react -> status row = checking)
       (technologies (snd (checkSingleTechnology env_writeback_fails
                             (updateTechnology env_writeback_fails) react world_after_read))).
Proof.
  split; [vm_compute; reflexivity|]. split; [vm_compute; reflexivity|].
  split; [vm_compute; reflexivity|].
  apply (C4_single_check_left_checking env_writeback_fails react world_after_read);
    reflexivity.
Defined.

(** ** The rate limiter *)

(** One caller at a time: the request leaves at least the delay after the
    time the limiter remembers. *)
Lemma rateLimitedFetch_alone (env : Env) (term : string) (w : World) :
  exists t,
    requests (snd (rateLimitedFetch env term w)) = t :: requests w
    /\ lastRequestTime (snd (rateLimitedFetch env term w)) = t
    /\ lastRequestTime w + RATE_LIMIT_DELAY <= t.
Proof.
  unfold rateLimitedFetch, fetch, now, gets, sleep, modify, tick, throw, ret, bind,
    rateLimitWait.
  destruct (clock w - lastRequestTime w <? RATE_LIMIT_DELAY) eqn:Hlt; simpl.
  - exists (clock w + (RATE_LIMIT_DELAY - (clock w - lastRequestTime w))).
    destruct (fetchOutcome env (ticks w) term); simpl; repeat split; lia.
  - apply Z.ltb_ge in Hlt. exists (clock w).
    destruct (fetchOutcome env (ticks w) term); simpl; repeat split; lia.
Qed.

(** The two readings of [rateLimitedFetch] agree on a caller that is alone:
    entering, and waking when due if it had to sleep, leaves the limiter
    with the time the function leaves in the world. *)
Lemma overlap_alone_agrees (env : Env) (term : string) (w : World) (c : nat) :
  Overlap.schedule (clock w)
    (match rateLimitWait (clock w) (lastRequestTime w) with
     | Some d => [(clock w, Overlap.Enters c); (clock w + d, Overlap.Wakes c)]
     | None => [(clock w, Overlap.Enters c)]
     end)
    {| Overlap.last := lastRequestTime w; Overlap.asleep := []; Overlap.began := [] |}
  = Some {| Overlap.last := lastRequestTime (snd (rateLimitedFetch env term w));
            Overlap.asleep := [];
            Overlap.began := [(c, lastRequestTime (snd (rateLimitedFetch env term w)))] |}.
Proof.
  assert (Hlast : lastRequestTime (snd (rateLimitedFetch env term w))
                  = match rateLimitWait (clock w) (lastRequestTime w) with
                    | Some d => clock w + d
                    | None => clock w
                    end).
  { unfold rateLimitedFetch, fetch, now, gets, sleep, modify, tick, throw, ret, bind.
    destruct (rateLimitWait (clock w) (lastRequestTime w)); simpl;
      destruct (fetchOutcome env (ticks w) term); reflexivity. }
  rewrite Hlast. clear Hlast.
  destruct (rateLimitWait (clock w) (lastRequestTime w)) as [d|] eqn:Hwait.
  - assert (Hd : 0 < d).
    { unfold rateLimitWait in Hwait.
      destruct (clock w - lastRequestTime w <? RATE_LIMIT_DELAY) eqn:Hlt; [|discriminate].
      apply Z.ltb_lt in Hlt. injection Hwait as <-. lia. }
    cbn [Overlap.schedule]. rewrite Z.leb_refl.
    cbn [Overlap.step Overlap.last]. rewrite Hwait.
    replace (clock w <=? clock w + d) with true by (symmetry; apply Z.leb_le; lia).
    cbn [Overlap.step Overlap.asleep Overlap.dueOf List.find fst snd fmap option_fmap option_map].
    rewrite Nat.eqb_refl. cbn [snd fmap option_fmap option_map].
    rewrite Z.leb_refl. cbn [List.filter fst negb Overlap.began Overlap.last].
    rewrite Nat.eqb_refl. reflexivity.
  - cbn [Overlap.schedule]. rewrite Z.leb_refl.
    cbn [Overlap.step Overlap.last]. rewrite Hwait. reflexivity.
Qed.

(** Callers that come while the limiter is closed are all due at the same
    time, the delay after the time the limiter remembers. *)
Lemma rateLimitWait_same_due (lastTime t1 t2 d1 d2 : Z) :
  rateLimitWait t1 lastTime = Some d1 ->
  rateLimitWait t2 lastTime = Some d2 ->
  t1 + d1 = lastTime + RATE_LIMIT_DELAY /\ t2 + d2 = lastTime + RATE_LIMIT_DELAY.
Proof.
  unfold rateLimitWait. intros H1 H2.
  destruct (t1 - lastTime <? RATE_LIMIT_DELAY); [|discriminate].
  destruct (t2 - lastTime <? RATE_LIMIT_DELAY); [|discriminate].
  injection H1 as <-. injection H2 as <-. lia.
Qed.

(** C8. Callers that overlap are not kept apart: two callers that come while
    the limiter is closed both sleep until it opens, and their requests
    begin at the same millisecond. *)
Theorem C8_overlapping_callers_collide :
  (Overlap.began <$> Overlap.schedule 0 threeCallers Overlap.idle)
  = Some [(2%nat, 16500); (1%nat, 16500); (0%nat, 10000)]
  /\ (closestPair <$> (List.map snd <$>
        (Overlap.began <$> Overlap.schedule 0 threeCallers Overlap.idle)))
     = Some (Some 0)
  /\ 0 < RATE_LIMIT_DELAY.
Proof. repeat split; vm_compute; reflexivity. Qed.

(** * Further properties *)

(** ** Scoring and the summary *)

Lemma sumDeductions_app {A} `{HasSeverity A} (F G : list A) :
  sumDeductions (F ++ G) = sumDeductions F + sumDeductions G.
Proof.
  unfold sumDeductions. induction F as [|f F IH]; simpl; [reflexivity|].
  rewrite IH. lia.
Qed.

Lemma sumDeductions_perm {A} `{HasSeverity A} (F G : list A) :
  Permutation F G -> sumDeductions F = sumDeductions G.
Proof.
  unfold sumDeductions. induction 1; simpl; lia.
Qed.

Lemma sumDeductions_ge0 {A} `{HasSeverity A} (F : list A) : 0 <= sumDeductions F.
Proof.
  unfold sumDeductions. induction F as [|f F IH]; simpl; [lia|].
  destruct (severity_of f); simpl; lia.
Qed.

Lemma score_formula {A} `{HasSeverity A} (F : list A) :
  calculateSecurityScore F = Z.max 0 (Z.min 100 (100 - sumDeductions F)).
Proof.
  unfold calculateSecurityScore. destruct F as [|f F]; simpl; [reflexivity|].
  rewrite totalDeduction_sum. reflexivity.
Qed.

(** The score does not depend on the order of the findings. *)
Theorem score_permutation_invariant :
  forall (A : Type) (sev : HasSeverity A) (F G : list A),
    Permutation F G -> calculateSecurityScore F = calculateSecurityScore G.
Proof.
  intros A sev F G Hperm. rewrite !score_formula.
  rewrite (sumDeductions_perm F G Hperm). reflexivity.
Qed.

Lemma score_permutation_invariant_witness :
  Permutation [high; low; critical] [critical; high; low]
  /\ calculateSecurityScore [high; low; critical] = calculateSecurityScore [critical; high; low].
Proof.
  assert (Hperm : Permutation [high; low; critical] [critical; high; low]).
  { apply Permutation_sym. apply (Permutation_cons_app [high; low] [] critical).
    apply Permutation_refl. }
  split; [exact Hperm|].
  exact (score_permutation_invariant Severity _ _ _ Hperm).
Defined.

(** More findings never raise the score: the score of a list with further
    findings added is at most the score of the list. *)
Theorem score_never_rises :
  forall (A : Type) (sev : HasSeverity A) (F G : list A),
    calculateSecurityScore (F ++ G) <= calculateSecurityScore F
    /\ calculateSecurityScore (G ++ F) <= calculateSecurityScore F.
Proof.
  intros A sev F G. rewrite !score_formula, !sumDeductions_app.
  pose proof (sumDeductions_ge0 F). pose proof (sumDeductions_ge0 G). lia.
Qed.

Lemma countSeverity_cons (s : Severity) (f : SecurityFinding) (fs : list SecurityFinding) :
  countSeverity s (f :: fs)
  = (if isSeverity s f then 1 else 0) + countSeverity s fs.
Proof.
  unfold countSeverity. simpl. destruct (isSeverity s f); simpl; lia.
Qed.

(** The five counts of a summary add up to the number of findings, and the
    score of the findings is what the counts give: 100 less 25 per critical,
    15 per high, 8 per medium and 3 per low finding, and not below 0. *)
Theorem summary_counts_and_score :
  forall (scan : SecurityScan) (fs : list SecurityFinding),
    let s := scanSummary scan fs in
    sum_criticalCount s + sum_highCount s + sum_mediumCount s
      + sum_lowCount s + sum_infoCount s = totalFindings s
    /\ calculateSecurityScore fs
       = Z.max 0 (100 - (25 * sum_criticalCount s + 15 * sum_highCount s
                         + 8 * sum_mediumCount s + 3 * sum_lowCount s)).
Proof.
  intros scan fs. cbv zeta. unfold scanSummary. simpl.
  assert (Hsum : sumDeductions fs
                 = 25 * countSeverity critical fs + 15 * countSeverity high fs
                   + 8 * countSeverity medium fs + 3 * countSeverity low fs
                 /\ countSeverity critical fs + countSeverity high fs
                    + countSeverity medium fs + countSeverity low fs
                    + countSeverity info fs = Z.of_nat (length fs)
                 /\ 0 <= countSeverity critical fs /\ 0 <= countSeverity high fs
                 /\ 0 <= countSeverity medium fs /\ 0 <= countSeverity low fs).
  { induction fs as [|f fs IH].
    - unfold sumDeductions, countSeverity. simpl. lia.
    - rewrite !countSeverity_cons.
      change (sumDeductions (f :: fs))
        with (severityDeductions (f_severity f) + sumDeductions fs).
      change (length (f :: fs)) with (S (length fs)). rewrite Nat2Z.inj_succ.
      unfold isSeverity. destruct (f_severity f); cbn [severityDeductions]; lia. }
  destruct Hsum as (Hsum & Htotal & ?). split; [exact Htotal|].
  rewrite score_formula, Hsum. lia.
Qed.

(** ** The finding generator *)

Lemma set_ticks_same (w : World) : set_ticks (ticks w) w = w.
Proof. destruct w. reflexivity. Qed.

Lemma set_ticks_twice (a b : nat) (w : World) : set_ticks a (set_ticks b w) = set_ticks a w.
Proof. reflexivity. Qed.

Lemma keptFrom_app (env : Env) (depth : ScanDepth) (l1 l2 : list InsertSecurityFinding) :
  forall start,
    keptFrom env depth start (l1 ++ l2)
    = keptFrom env depth start l1 ++ keptFrom env depth (start + length l1) l2.
Proof.
  induction l1 as [|f l1 IH]; intros start; simpl.
  - rewrite Nat.add_0_r. reflexivity.
  - rewrite IH. replace (S start + length l1)%nat with (start + S (length l1))%nat by lia.
    destruct (Qlt_le_dec _ _); reflexivity.
Qed.

Lemma sampleTemplates_run (env : Env) (scanId tgt : string) (checkType : CheckType)
    (depth : ScanDepth) (templates : list FindingTemplate) :
  forall acc w,
    sampleTemplates env scanId tgt checkType depth templates acc w
    = (Ok (acc ++ keptFrom env depth (ticks w)
                    (List.map (stamp scanId tgt checkType) templates)),
       set_ticks (ticks w + length templates) w).
Proof.
  induction templates as [|template rest IH]; intros acc w.
  - simpl. unfold ret. rewrite app_nil_r, Nat.add_0_r, set_ticks_same. reflexivity.
  - cbn [sampleTemplates]. unfold bind at 1. unfold mathRandom, bind, tick, ret.
    cbn [List.map keptFrom length].
    destruct (Qlt_le_dec (random env (ticks w)) (findingProbability depth)).
    + rewrite IH. cbn [ticks set_ticks]. rewrite <- app_assoc. cbn [app].
      replace (S (ticks w) + length rest)%nat with (ticks w + S (length rest))%nat by lia.
      reflexivity.
    + rewrite IH. cbn [ticks set_ticks].
      replace (S (ticks w) + length rest)%nat with (ticks w + S (length rest))%nat by lia.
      reflexivity.
Qed.

Lemma sampleCheckTypes_run (env : Env) (cat : CheckType -> list FindingTemplate)
    (scanId tgt : string) (depth : ScanDepth) (types : list CheckType) :
  forall acc w,
    sampleCheckTypes env cat scanId tgt types depth acc w
    = (Ok (acc ++ keptFrom env depth (ticks w) (candidates cat scanId tgt types)),
       set_ticks (ticks w + length (candidates cat scanId tgt types)) w).
Proof.
  induction types as [|c rest IH]; intros acc w.
  - simpl. unfold ret. rewrite app_nil_r, Nat.add_0_r, set_ticks_same. reflexivity.
  - cbn [sampleCheckTypes]. unfold bind. rewrite sampleTemplates_run, IH.
    unfold candidates. cbn [flat_map ticks set_ticks].
    rewrite keptFrom_app, length_app, !length_map, <- app_assoc.
    rewrite set_ticks_twice, Nat.add_assoc. reflexivity.
Qed.

Lemma generateFindings_run :
  forall (env : Env) (findingsByCheckType : CheckType -> list FindingTemplate)
         (scanId tgt : string) (types : list CheckType) (depth : ScanDepth) (w : World),
    generateFindings env findingsByCheckType scanId tgt types depth w
    = (Ok (keptFrom env depth (ticks w) (candidates findingsByCheckType scanId tgt types)),
       set_ticks (ticks w + length (candidates findingsByCheckType scanId tgt types)) w).
Proof.
  intros. unfold generateFindings. rewrite sampleCheckTypes_run. reflexivity.
Qed.

(** [generateFindings] never rejects, draws one random number per template
    of the requested check types and changes nothing else. What it returns
    are the candidates whose draw is below the probability of the depth, in
    the order of the check types and of the catalogue. *)
Theorem generateFindings_by_draws :
  forall (env : Env) (findingsByCheckType : CheckType -> list FindingTemplate)
         (scanId tgt : string) (types : list CheckType) (depth : ScanDepth) (w : World),
    generateFindings env findingsByCheckType scanId tgt types depth w
    = (Ok (keptFrom env depth (ticks w) (candidates findingsByCheckType scanId tgt types)),
       set_ticks (ticks w + length (candidates findingsByCheckType scanId tgt types)) w).
Proof. exact generateFindings_run. Qed.


Lemma keptFrom_sublist (env : Env) (depth : ScanDepth) (l : list InsertSecurityFinding) :
  forall start, sublist (keptFrom env depth start l) l.
Proof.
  induction l as [|f l IH]; intros start; simpl; [constructor|].
  destruct (Qlt_le_dec _ _); [apply sublist_skip|apply sublist_cons]; apply IH.
Qed.

Lemma Forall_of_sublist {X} (P : X -> Prop) (l1 l2 : list X) :
  sublist l1 l2 -> Forall P l2 -> Forall P l1.
Proof.
  induction 1 as [|x l1 l2 _ IH|x l1 l2 _ IH]; intros Hall.
  - constructor.
  - apply Forall_cons_1 in Hall as [Hx Hall]. constructor; auto.
  - apply Forall_cons_1 in Hall as [_ Hall]. auto.
Qed.

Lemma candidates_stamped (cat : CheckType -> list FindingTemplate) (scanId tgt : string)
    (types : list CheckType) :
  Forall (fun f => i_scanId f = scanId /\ i_affectedResource f = tgt
                   /\ List.In (i_category f) types
                   /\ exists template, List.In template (cat (i_category f))
                        /\ i_title f = title template
                        /\ i_severity f = severity template)
    (candidates cat scanId tgt types).
Proof.
  apply List.Forall_forall. intros f Hin. unfold candidates in Hin.
  apply List.in_flat_map in Hin as (c & Hc & Hin).
  apply List.in_map_iff in Hin as (template & <- & Htemplate).
  simpl. repeat split; auto. exists template. auto.
Qed.

(** Whatever the draws, the findings of a scan are a sub-list of the
    templates of the requested check types: each carries the scan id, the
    target as affected resource, a requested check type as category and the
    title and severity of a template of that type; there are no more of
    them than templates. *)
Theorem generateFindings_within_catalogue :
  forall (env : Env) (findingsByCheckType : CheckType -> list FindingTemplate)
         (scanId tgt : string) (types : list CheckType) (depth : ScanDepth) (w : World),
    exists fs,
      fst (generateFindings env findingsByCheckType scanId tgt types depth w) = Ok fs
      /\ sublist fs (candidates findingsByCheckType scanId tgt types)
      /\ (length fs <= length (candidates findingsByCheckType scanId tgt types))%nat
      /\ Forall (fun f => i_scanId f = scanId /\ i_affectedResource f = tgt
                          /\ List.In (i_category f) types
                          /\ exists template,
                               List.In template (findingsByCheckType (i_category f))
                               /\ i_title f = title template
                               /\ i_severity f = severity template) fs.
Proof.
  intros. rewrite generateFindings_run. eexists. split; [reflexivity|].
  pose proof (keptFrom_sublist env depth
                (candidates findingsByCheckType scanId tgt types) (ticks w)) as Hsub.
  split; [exact Hsub|]. split; [apply sublist_length; exact Hsub|].
  eapply Forall_of_sublist; [exact Hsub|]. apply candidates_stamped.
Qed.

Lemma keptFrom_none (env : Env) (depth : ScanDepth) (l : list InsertSecurityFinding) :
  (forall n, (findingProbability depth <= random env n)%Q) ->
  forall start, keptFrom env depth start l = [].
Proof.
  intros Hhigh. induction l as [|f l IH]; intros start; simpl; [reflexivity|].
  destruct (Qlt_le_dec _ _) as [Hlt|_]; [|apply IH].
  exfalso. exact (Qlt_not_le _ _ Hlt (Hhigh start)).
Qed.

(** When no draw is below the probability of the depth, a scan reports no
    finding at all, and its score is 100. *)
Theorem generateFindings_unlucky_is_clean :
  forall (env : Env) (findingsByCheckType : CheckType -> list FindingTemplate)
         (scanId tgt : string) (types : list CheckType) (depth : ScanDepth) (w : World),
    (forall n, (findingProbability depth <= random env n)%Q) ->
    fst (generateFindings env findingsByCheckType scanId tgt types depth w) = Ok []
    /\ (forall fs,
          fst (generateFindings env findingsByCheckType scanId tgt types depth w) = Ok fs ->
          calculateSecurityScore fs = 100).
Proof.
  intros env cat scanId tgt types depth w Hhigh.
  rewrite generateFindings_run. simpl.
  rewrite (keptFrom_none env depth _ Hhigh). split; [reflexivity|].
  intros fs Hfs. injection Hfs as <-. reflexivity.
Qed.

Lemma generateFindings_unlucky_is_clean_witness :
  (forall n, (findingProbability deep <= random env_unlucky n)%Q)
  /\ fst (generateFindings env_unlucky sslCatalogue "uuid-0" "example.com" [ssl_tls] deep
            (boot 0)) = Ok []
  /\ (forall fs,
        fst (generateFindings env_unlucky sslCatalogue "uuid-0" "example.com" [ssl_tls] deep
               (boot 0)) = Ok fs ->
        calculateSecurityScore fs = 100).
Proof.
  assert (Hhigh : forall n, (findingProbability deep <= random env_unlucky n)%Q).
  { intros n. simpl. unfold Qle. simpl. lia. }
  split; [exact Hhigh|].
  exact (generateFindings_unlucky_is_clean env_unlucky sslCatalogue
           "uuid-0" "example.com" [ssl_tls] deep (boot 0) Hhigh).
Defined.

(** ** The scan store *)

Lemma createScan_run :
  forall (env : Env) (insertScan : InsertSecurityScan) (w : World),
    exists scan w',
      createScan env insertScan w = (Ok scan, w')
      /\ scan_id scan = uuid env (ticks w)
      /\ scan_status scan = pending
      /\ overallScore scan = None /\ completedAt scan = None
      /\ target scan = is_target insertScan
      /\ configuration scan = is_configuration insertScan
      /\ initiatedAt scan = clock w
      /\ fst (getScan (scan_id scan) w') = Ok (Some scan)
      /\ fst (getFindings (scan_id scan) w') = Ok []
      /\ (forall id, id <> scan_id scan ->
            fst (getScan id w') = fst (getScan id w)
            /\ fst (getFindings id w') = fst (getFindings id w)).
Proof.
  intros env insertScan w.
  unfold createScan, randomUUID, bind, tick, ret, now, gets, modify.
  cbn [ticks set_ticks clock].
  eexists _, _. split; [reflexivity|].
  cbn [scan_id scan_status overallScore completedAt target configuration initiatedAt].
  repeat (split; [reflexivity|]).
  unfold getScan, getFindings, gets. cbn [fst scans findings set_findings set_scans].
  split; [rewrite lookup_insert_eq; reflexivity|].
  split; [rewrite lookup_insert_eq; reflexivity|].
  intros id Hid. rewrite !lookup_insert_ne by congruence. split; reflexivity.
Qed.

(** A scan that has just been created is read back as it was created:
    pending, without score and completion time, with the target and the
    configuration of the request and an empty finding list; scans stored
    under other identifiers are not touched. *)
Theorem createScan_then_getScan :
  forall (env : Env) (insertScan : InsertSecurityScan) (w : World),
    exists scan w',
      createScan env insertScan w = (Ok scan, w')
      /\ scan_id scan = uuid env (ticks w)
      /\ scan_status scan = pending
      /\ overallScore scan = None /\ completedAt scan = None
      /\ target scan = is_target insertScan
      /\ configuration scan = is_configuration insertScan
      /\ initiatedAt scan = clock w
      /\ fst (getScan (scan_id scan) w') = Ok (Some scan)
      /\ fst (getFindings (scan_id scan) w') = Ok []
      /\ (forall id, id <> scan_id scan ->
            fst (getScan id w') = fst (getScan id w)
            /\ fst (getFindings id w') = fst (getFindings id w)).
Proof. exact createScan_run. Qed.


(** [updateScan] on an identifier that is not stored resolves to undefined
    and changes nothing (no scan is created). On a stored scan it resolves
    to the scan with the given properties written over it, whichever
    properties of a scan they are (each with a value: see [ScanUpdates]),
    and every other property as it was; that
    scan is what is read back under the identifier afterwards, also when
    the update gives the scan another [id]; no other scan and no finding
    list is touched, and the empty update stores the scan as it was. *)
Theorem updateScan_then_getScan :
  forall (id : string) (updates : ScanUpdates) (w : World),
    match scans w !! id with
    | None => updateScan id updates w = (Ok None, w)
    | Some s =>
        exists s' w',
          updateScan id updates w = (Ok (Some s'), w')
          /\ fst (getScan id w') = Ok (Some s')
          /\ (forall id', id' <> id -> fst (getScan id' w') = fst (getScan id' w))
          /\ (forall id', fst (getFindings id' w') = fst (getFindings id' w))
          /\ overwrites (us_id updates) (scan_id s) (scan_id s')
          /\ overwrites (us_target updates) (target s) (target s')
          /\ overwrites (us_status updates) (scan_status s) (scan_status s')
          /\ overwrites (us_configuration updates) (configuration s) (configuration s')
          /\ overwrites (us_initiatedAt updates) (initiatedAt s) (initiatedAt s')
          /\ overwritesOptional (us_completedAt updates) (completedAt s) (completedAt s')
          /\ overwritesOptional (us_overallScore updates) (overallScore s) (overallScore s')
          /\ overwritesOptional (us_consultantName updates) (consultantName s)
               (consultantName s')
          /\ overwritesOptional (us_clientName updates) (clientName s) (clientName s')
          /\ overwritesOptional (us_projectName updates) (projectName s) (projectName s')
          /\ (updates = noUpdates -> s' = s)
    end.
Proof.
  intros id updates w. destruct (scans w !! id) as [s|] eqn:Hs.
  - rewrite (updateScan_stored id updates w s Hs).
    eexists _, _. split; [reflexivity|].
    unfold getScan, getFindings, gets. cbn [fst scans findings set_scans].
    split; [rewrite lookup_insert_eq; reflexivity|].
    split; [intros id' Hid; rewrite lookup_insert_ne by congruence; reflexivity|].
    split; [reflexivity|].
    unfold overwrites, overwritesOptional.
    destruct updates as [uid utarget ustatus uconf uinit ucompleted uscore ucons uclient uproj].
    cbn [spreadScan scan_id target scan_status configuration initiatedAt completedAt
         overallScore consultantName clientName projectName
         us_id us_target us_status us_configuration us_initiatedAt us_completedAt
         us_overallScore us_consultantName us_clientName us_projectName].
    repeat (split; [match goal with |- context [match ?g with _ => _ end] =>
                      destruct g; reflexivity end|]).
    intros Hempty. injection Hempty as -> -> -> -> -> -> -> -> -> ->.
    destruct s. reflexivity.
  - unfold updateScan, bind, gets, ret. rewrite Hs. reflexivity.
Qed.

Lemma createFinding_run :
  forall (env : Env) (finding : InsertSecurityFinding) (w : World),
    exists f w' before,
      createFinding env finding w = (Ok f, w')
      /\ fst (getFindings (i_scanId finding) w) = Ok before
      /\ fst (getFindings (i_scanId finding) w') = Ok (before ++ [f])
      /\ withoutId f = finding
      /\ f_id f = uuid env (ticks w)
      /\ scans w' = scans w
      /\ (forall id, id <> i_scanId finding ->
            fst (getFindings id w') = fst (getFindings id w)).
Proof.
  intros env finding w.
  unfold createFinding, randomUUID, bind, tick, ret, gets, modify.
  cbn [ticks set_ticks findings].
  eexists _, _, _. split; [reflexivity|].
  unfold getFindings, gets. cbn [fst findings set_findings set_ticks scans].
  split; [reflexivity|]. split; [rewrite lookup_insert_eq; reflexivity|].
  split; [destruct finding; reflexivity|]. split; [reflexivity|]. split; [reflexivity|].
  intros id Hid. rewrite lookup_insert_ne by congruence. reflexivity.
Qed.

(** A finding that has just been stored is the last of the findings read
    back for its scan, with every property of the finding handed in; the
    findings of other scans and the scans themselves are not touched. The
    store does not ask whether the scan exists. *)
Theorem createFinding_then_getFindings :
  forall (env : Env) (finding : InsertSecurityFinding) (w : World),
    exists f w' before,
      createFinding env finding w = (Ok f, w')
      /\ fst (getFindings (i_scanId finding) w) = Ok before
      /\ fst (getFindings (i_scanId finding) w') = Ok (before ++ [f])
      /\ withoutId f = finding
      /\ f_id f = uuid env (ticks w)
      /\ scans w' = scans w
      /\ (forall id, id <> i_scanId finding ->
            fst (getFindings id w') = fst (getFindings id w)).
Proof. exact createFinding_run. Qed.


(** ** The scan routes *)

(** A request that the schema refuses (a target that is no URL or domain,
    or no check type) is answered 400 and leaves no trace; an accepted one
    is answered 201 with the scan as created, still pending, while the store
    holds it as running, with an empty finding list and one more timer, due
    after the duration of the depth. *)
Theorem postScanRoute_outcome :
  forall (env : Env) (validTarget : string -> bool) (reqBody : InsertSecurityScan)
         (w : World),
    if safeParseScan validTarget reqBody then
      exists scan,
        fst (postScanRoute env validTarget reqBody w)
        = Ok {| code := 201; body := ScanJson (Some scan) |}
        /\ scan_status scan = pending
        /\ scan_id scan = uuid env (ticks w)
        /\ stored (scan_id scan) (snd (postScanRoute env validTarget reqBody w))
           = Some (running, None)
        /\ findings (snd (postScanRoute env validTarget reqBody w)) !! scan_id scan
           = Some []
        /\ timers (snd (postScanRoute env validTarget reqBody w))
           = timers w ++ [ {| due := clock w
                                     + scanDuration (scanDepth (is_configuration reqBody));
                              t_scan := scan |} ]
    else
      postScanRoute env validTarget reqBody w
      = (Ok {| code := 400; body := ErrorJson "Validation failed" |}, w).
Proof.
  intros env validTarget reqBody w.
  destruct (safeParseScan validTarget reqBody) eqn:Hparse;
    [|unfold postScanRoute; rewrite Hparse; reflexivity].
  destruct (createScan_run env reqBody w)
    as (scan & w1 & Hcreate & Hid & Hst & Hscore & Hdone & _ & Hconf & _ & Hget & _).
  assert (Hw1 : clock w1 = clock w /\ timers w1 = timers w
                /\ findings w1 !! scan_id scan = Some []).
  { unfold createScan, randomUUID, bind, tick, ret, now, gets, modify in Hcreate.
    injection Hcreate as <- <-. cbn [clock timers findings set_findings set_scans scan_id].
    rewrite lookup_insert_eq. auto. }
  destruct Hw1 as (Hclock & Htimers & Hfind).
  unfold getScan, gets in Hget. cbn [fst] in Hget. injection Hget as Hget.
  assert (Hrun : postScanRoute env validTarget reqBody w
                 = (Ok {| code := 201; body := ScanJson (Some scan) |},
                    set_timers
                      (timers w1 ++ [ {| due := clock w1
                                                + scanDuration (scanDepth (configuration scan));
                                         t_scan := scan |} ])
                      (set_scans (<[scan_id scan := spreadScan scan (scanStatusOnly running)]>
                                    (scans w1)) w1))).
  { unfold postScanRoute. rewrite Hparse. cbn [negb].
    unfold try_catch, bind at 1. rewrite Hcreate.
    unfold bind at 1. rewrite (updateScan_stored _ _ w1 scan Hget).
    reflexivity. }
  exists scan. rewrite Hrun. cbn [fst snd].
  split; [reflexivity|]. split; [exact Hst|]. split; [exact Hid|].
  unfold stored. cbn [scans set_scans set_timers findings timers clock].
  rewrite lookup_insert_eq. cbn [fmap option_fmap option_map spreadScan scan_status
    overallScore scanStatusOnly us_status us_overallScore default].
  rewrite Hscore. split; [reflexivity|].
  split.
  - exact Hfind.
  - rewrite Hclock, Htimers, Hconf. reflexivity.
Qed.

Lemma cancelScanRoute_cases :
  forall (id : string) (w : World),
    match scans w !! id with
    | None =>
        cancelScanRoute id w = (Ok {| code := 404; body := ErrorJson "Scan not found" |}, w)
    | Some s =>
        if terminal (scan_status s) then
          cancelScanRoute id w
          = (Ok {| code := 400; body := ErrorJson "Scan cannot be cancelled" |}, w)
        else
          exists s',
            cancelScanRoute id w
            = (Ok {| code := 200; body := ScanJson (Some s') |},
               set_scans (<[id := s']> (scans w)) w)
            /\ scan_status s' = cancelled
            /\ completedAt s' = Some (clock w)
            /\ overallScore s' = overallScore s
            /\ scan_id s' = scan_id s /\ target s' = target s
            /\ configuration s' = configuration s
    end.
Proof.
  intros id w.
  assert (Hread : cancelScanRoute id w
                  = try_catch (cancelAfterRead id (scans w !! id)) cancelFailed w).
  { reflexivity. }
  destruct (scans w !! id) as [s|] eqn:Hs; [|rewrite Hread; reflexivity].
  assert (Hwrite : terminal (scan_status s) = false ->
            cancelScanRoute id w
            = (Ok {| code := 200;
                     body := ScanJson (Some (spreadScan s (cancelledUpdates (clock w)))) |},
               set_scans (<[id := spreadScan s (cancelledUpdates (clock w))]> (scans w)) w)).
  { intros Hterm. rewrite Hread. unfold try_catch, cancelAfterRead.
    replace (negb (bool_decide (scan_status s = running))
             && negb (bool_decide (scan_status s = pending))) with false
      by (destruct (scan_status s); try discriminate Hterm; reflexivity).
    unfold bind at 1. unfold now, gets.
    unfold bind at 1. rewrite (updateScan_stored id _ w s Hs). reflexivity. }
  destruct (terminal (scan_status s)) eqn:Hterm.
  - rewrite Hread. unfold try_catch, cancelAfterRead.
    destruct (scan_status s); try discriminate Hterm; reflexivity.
  - exists (spreadScan s (cancelledUpdates (clock w))).
    split; [apply Hwrite; reflexivity|]. repeat split.
Qed.

(** Cancelling a scan that is not stored is answered 404, cancelling a scan
    that has reached a terminal status is answered 400, and neither changes
    anything; cancelling a running or pending scan is answered 200 with the
    scan as it is stored then: cancelled, completed at the time of the
    request, and with score, target, configuration and identifier as they
    were. *)
Theorem cancelScanRoute_outcome :
  forall (id : string) (w : World),
    match scans w !! id with
    | None =>
        cancelScanRoute id w = (Ok {| code := 404; body := ErrorJson "Scan not found" |}, w)
    | Some s =>
        if terminal (scan_status s) then
          cancelScanRoute id w
          = (Ok {| code := 400; body := ErrorJson "Scan cannot be cancelled" |}, w)
        else
          exists s',
            cancelScanRoute id w
            = (Ok {| code := 200; body := ScanJson (Some s') |},
               set_scans (<[id := s']> (scans w)) w)
            /\ scan_status s' = cancelled
            /\ completedAt s' = Some (clock w)
            /\ overallScore s' = overallScore s
            /\ scan_id s' = scan_id s /\ target s' = target s
            /\ configuration s' = configuration s
    end.
Proof. exact cancelScanRoute_cases. Qed.


(** ** The completion of a scan *)

Lemma storeFindings_run (env : Env) (id : string) (l : list InsertSecurityFinding) :
  Forall (fun f => i_scanId f = id) l ->
  forall w,
    exists storedNow w',
      for_each l (fun finding => createFinding env finding ;; ret tt)%monad w = (Ok tt, w')
      /\ List.map withoutId storedNow = l
      /\ findings w' !! id
         = (if (length l =? 0)%nat then findings w !! id
            else Some (default [] (findings w !! id) ++ storedNow))
      /\ scans w' = scans w /\ clock w' = clock w /\ timers w' = timers w
      /\ technologies w' = technologies w.
Proof.
  induction 1 as [|f l Hf _ IH]; intros w.
  - exists [], w. simpl. unfold ret. repeat split.
  - destruct (createFinding_run env f w)
      as (sf & w1 & before & Hcreate & Hbefore & Hafter & Hsame & _ & Hscans & _).
    assert (Hw1 : clock w1 = clock w /\ timers w1 = timers w
                  /\ technologies w1 = technologies w
                  /\ findings w1 !! id = Some (default [] (findings w !! id) ++ [sf])).
    { unfold createFinding, randomUUID, bind, tick, ret, gets, modify in Hcreate.
      injection Hcreate as <- <-. rewrite <- Hf.
      cbn [clock timers technologies findings set_findings set_ticks].
      rewrite lookup_insert_eq. repeat split. }
    destruct Hw1 as (Hclock & Htimers & Htech & Hfind).
    destruct (IH w1) as (rest & w2 & Hrun & Hmap & Hfind2 & Hscans2 & Hclock2 & Htimers2 & Htech2).
    exists (sf :: rest), w2. cbn [for_each]. unfold bind at 1. unfold bind at 1.
    rewrite Hcreate. unfold ret at 1. rewrite Hrun.
    split; [reflexivity|]. split; [simpl; rewrite Hsame, Hmap; reflexivity|].
    split.
    { cbn [length Nat.eqb]. rewrite Hfind2, Hfind.
      destruct (length l =? 0)%nat eqn:Hlen.
      - apply Nat.eqb_eq in Hlen. destruct l; [|discriminate].
        simpl in Hmap. destruct rest; [reflexivity|discriminate].
      - change (default [] (Some (default [] (findings w !! id) ++ [sf])))
          with (default [] (findings w !! id) ++ [sf]).
        rewrite <- app_assoc. reflexivity. }
    repeat split; congruence.
Qed.

Lemma score_withoutId (fs : list SecurityFinding) :
  calculateSecurityScore (List.map withoutId fs) = calculateSecurityScore fs.
Proof.
  rewrite !score_formula. f_equal. f_equal. f_equal.
  unfold sumDeductions. induction fs as [|f fs IH]; simpl; [reflexivity|].
  rewrite IH. reflexivity.
Qed.

Lemma score_in_range {A} `{HasSeverity A} (fs : list A) :
  0 <= calculateSecurityScore fs <= 100.
Proof. rewrite score_formula. lia. Qed.

(** The callback step by step: it draws the findings, stores them one by
    one under the scan, and writes the result over the stored scan (if there
    is one). *)
Lemma scanCompletion_run (env : Env) (cat : CheckType -> list FindingTemplate)
    (scan : SecurityScan) (w : World) :
  let gen := keptFrom env (scanDepth (configuration scan)) (ticks w)
               (candidates cat (scan_id scan) (target scan)
                  (checkTypes (configuration scan))) in
  exists storedNow w1,
    List.map withoutId storedNow = gen
    /\ findings w1 !! scan_id scan
       = (if (length gen =? 0)%nat then findings w !! scan_id scan
          else Some (default [] (findings w !! scan_id scan) ++ storedNow))
    /\ scans w1 = scans w /\ clock w1 = clock w /\ timers w1 = timers w
    /\ technologies w1 = technologies w
    /\ scanCompletion env cat scan w
       = (Ok tt,
          match scans w !! scan_id scan with
          | Some s =>
              set_scans (<[scan_id scan :=
                             spreadScan s (completedUpdates (clock w)
                                             (calculateSecurityScore gen))]> (scans w1)) w1
          | None => w1
          end).
Proof.
  intros gen.
  assert (Hall : Forall (fun f => i_scanId f = scan_id scan) gen).
  { eapply Forall_of_sublist; [apply keptFrom_sublist|].
    eapply Forall_impl; [apply candidates_stamped|]. intros f Hf. apply Hf. }
  set (w0 := set_ticks (ticks w + length (candidates cat (scan_id scan) (target scan)
                                            (checkTypes (configuration scan)))) w).
  destruct (storeFindings_run env (scan_id scan) gen Hall w0)
    as (storedNow & w1 & Hrun & Hmap & Hfind & Hscans & Hclock & Htimers & Htech).
  exists storedNow, w1. split; [exact Hmap|]. split; [exact Hfind|].
  split; [exact Hscans|]. split; [exact Hclock|]. split; [exact Htimers|].
  split; [exact Htech|].
  unfold scanCompletion, try_catch. unfold bind at 1.
  rewrite generateFindings_run. fold gen. fold w0.
  unfold bind at 1. rewrite Hrun.
  unfold bind at 1. unfold now, gets.
  unfold bind at 1. unfold updateScan at 1. unfold bind at 1. unfold gets at 1.
  rewrite Hscans. change (scans w0) with (scans w). rewrite Hclock.
  change (clock w0) with (clock w).
  destruct (scans w !! scan_id scan) as [s|];
    unfold bind, modify, ret; cbv beta iota; rewrite ?Hscans; reflexivity.
Qed.

(** The completion of a scan whose finding list is still empty stores the
    findings it drew, each under the scan's identifier, with the target as
    affected resource and a requested check type as category, and stores the
    scan as completed at that time with the score of exactly these findings,
    a number between 0 and 100. *)
Theorem scanCompletion_scores_what_it_stores :
  forall (env : Env) (findingsByCheckType : CheckType -> list FindingTemplate)
         (scan : SecurityScan) (w : World) (s : SecurityScan),
    scans w !! scan_id scan = Some s ->
    findings w !! scan_id scan = Some [] ->
    exists fs s',
      findings (snd (scanCompletion env findingsByCheckType scan w)) !! scan_id scan = Some fs
      /\ scans (snd (scanCompletion env findingsByCheckType scan w)) !! scan_id scan = Some s'
      /\ scan_status s' = completed
      /\ completedAt s' = Some (clock w)
      /\ overallScore s' = Some (calculateSecurityScore fs)
      /\ 0 <= calculateSecurityScore fs <= 100
      /\ Forall (fun f => f_scanId f = scan_id scan
                          /\ f_affectedResource f = target scan
                          /\ List.In (f_category f) (checkTypes (configuration scan))) fs.
Proof.
  intros env cat scan w s Hs Hempty.
  destruct (scanCompletion_run env cat scan w)
    as (storedNow & w1 & Hmap & Hfind & Hscans & _ & _ & _ & Hrun).
  rewrite Hrun, Hs. cbn [snd findings scans set_scans].
  exists storedNow. eexists. split.
  { rewrite Hfind, Hempty. destruct (length _ =? 0)%nat eqn:Hlen; [|reflexivity].
    apply Nat.eqb_eq in Hlen. rewrite <- Hmap in Hlen. rewrite length_map in Hlen.
    destruct storedNow; [reflexivity|discriminate]. }
  split; [apply lookup_insert_eq|]. split; [reflexivity|]. split; [reflexivity|].
  split; [cbn [overallScore spreadScan completedUpdates us_overallScore];
          rewrite <- Hmap, score_withoutId; reflexivity|].
  split; [apply score_in_range|].
  assert (Hall : Forall (fun f => i_scanId f = scan_id scan
                                  /\ i_affectedResource f = target scan
                                  /\ List.In (i_category f) (checkTypes (configuration scan)))
                   (List.map withoutId storedNow)).
  { rewrite Hmap. eapply Forall_of_sublist; [apply keptFrom_sublist|].
    eapply Forall_impl; [apply candidates_stamped|].
    intros f (H1 & H2 & H3 & _). auto. }
  apply Forall_map in Hall. exact Hall.
Qed.

Lemma scanCompletion_scores_what_it_stores_witness :
  scans world_posted !! "uuid-0"%string = Some runningScan
  /\ findings world_posted !! "uuid-0"%string = Some []
  /\ exists fs s',
       findings (snd (scanCompletion env_scans sslCatalogue (t_scan cancelledTimer)
                        world_posted)) !! "uuid-0"%string = Some fs
       /\ scans (snd (scanCompletion env_scans sslCatalogue (t_scan cancelledTimer)
                        world_posted)) !! "uuid-0"%string = Some s'
       /\ scan_status s' = completed
       /\ completedAt s' = Some (clock world_posted)
       /\ overallScore s' = Some (calculateSecurityScore fs)
       /\ 0 <= calculateSecurityScore fs <= 100
       /\ Forall (fun f => f_scanId f = "uuid-0"%string
                           /\ f_affectedResource f = "example.com"%string
                           /\ List.In (f_category f) [ssl_tls]) fs.
Proof.
  assert (Hs : scans world_posted !! "uuid-0"%string = Some runningScan)
    by (vm_compute; reflexivity).
  assert (Hf : findings world_posted !! "uuid-0"%string = Some [])
    by (vm_compute; reflexivity).
  split; [exact Hs|]. split; [exact Hf|].
  exact (scanCompletion_scores_what_it_stores env_scans sslCatalogue
           (t_scan cancelledTimer) world_posted runningScan Hs Hf).
Defined.

(** ** What the scan store holds between two events *)

Section Settled.
Variable env : Env.
Variable findingsByCheckType : CheckType -> list FindingTemplate.
Variable validTarget : string -> bool.

Lemma post_keeps_settled (reqBody : InsertSecurityScan) (w : World) :
  scansSettled w -> scansSettled (snd (postScanRoute env validTarget reqBody w)).
Proof.
  intros Hw.
  destruct (safeParseScan validTarget reqBody) eqn:Hparse;
    [|unfold postScanRoute; rewrite Hparse; exact Hw].
  destruct (createScan_run env reqBody w)
    as (scan & w1 & Hcreate & _ & _ & Hscore & Hdone & _ & _ & _ & Hget & _).
  assert (Hscans : scans w1 = <[scan_id scan := scan]> (scans w)).
  { unfold createScan, randomUUID, bind, tick, ret, now, gets, modify in Hcreate.
    injection Hcreate as <- <-. reflexivity. }
  unfold getScan, gets in Hget. cbn [fst] in Hget. injection Hget as Hget.
  assert (Hrun : scans (snd (postScanRoute env validTarget reqBody w))
                 = <[scan_id scan := spreadScan scan (scanStatusOnly running)]> (scans w1)).
  { unfold postScanRoute. rewrite Hparse. cbn [negb].
    unfold try_catch, bind at 1. rewrite Hcreate.
    unfold bind at 1. rewrite (updateScan_stored _ _ w1 scan Hget).
    reflexivity. }
  unfold scansSettled. rewrite Hrun, Hscans, insert_insert_eq.
  apply map_Forall_insert_2; [|exact Hw].
  left. cbn [spreadScan scan_status overallScore completedAt scanStatusOnly
             us_status us_overallScore us_completedAt].
  rewrite Hscore, Hdone. repeat split.
Qed.

Lemma cancel_keeps_settled (id : string) (w : World) :
  scansSettled w -> scansSettled (snd (cancelScanRoute id w)).
Proof.
  intros Hw. pose proof (cancelScanRoute_cases id w) as Hout.
  destruct (scans w !! id) as [s|] eqn:Hs; [|rewrite Hout; exact Hw].
  destruct (terminal (scan_status s)) eqn:Hterm; [rewrite Hout; exact Hw|].
  destruct Hout as (s' & -> & Hst & Hdone & Hscore & _).
  unfold scansSettled. cbn [snd scans set_scans].
  apply map_Forall_insert_2; [|exact Hw].
  right. left. split; [exact Hst|]. split; [|rewrite Hdone; eauto].
  rewrite Hscore. specialize (Hw id s Hs). cbv beta in Hw.
  destruct Hw as [(_ & H & _)|[(Hc & _)|(Hc & _)]]; [exact H| |];
    rewrite Hc in Hterm; discriminate.
Qed.

Lemma completion_keeps_settled (scan : SecurityScan) (w : World) :
  scansSettled w -> scansSettled (snd (scanCompletion env findingsByCheckType scan w)).
Proof.
  intros Hw.
  destruct (scanCompletion_run env findingsByCheckType scan w)
    as (storedNow & w1 & _ & _ & Hscans & _ & _ & _ & Hrun).
  rewrite Hrun. cbn [snd].
  destruct (scans w !! scan_id scan) as [s|].
  - unfold scansSettled. cbn [scans set_scans]. rewrite Hscans.
    apply map_Forall_insert_2; [|exact Hw].
    right. right. split; [reflexivity|]. split; [simpl; eauto|].
    eexists. split; [reflexivity|]. apply score_in_range.
  - unfold scansSettled. rewrite Hscans. exact Hw.
Qed.

Lemma handle_keeps_settled (e : Event) (w : World) :
  scansSettled w -> scansSettled (snd (handle env findingsByCheckType validTarget e w)).
Proof.
  intros Hw. destruct e as [reqBody|id|id|n|ms]; cbn [handle].
  - unfold replied. pose proof (post_keeps_settled reqBody w Hw) as H.
    destruct (postScanRoute env validTarget reqBody w) as [[r|e] w']; exact H.
  - unfold replied, getScanRoute, try_catch, bind, getScan, gets, send, ret.
    destruct (scans w !! id); exact Hw.
  - unfold replied. pose proof (cancel_keeps_settled id w Hw) as H.
    destruct (cancelScanRoute id w) as [[r|e] w']; exact H.
  - destruct (timers w !! n) as [t|]; [|exact Hw].
    destruct (due t <=? clock w); [|exact Hw].
    cbn [snd]. apply completion_keeps_settled. exact Hw.
  - cbn [snd]. destruct (0 <=? ms); exact Hw.
Qed.
End Settled.

(** On the [Map]-backed store, whatever requests come in and whatever
    timers fire in between, every stored scan is in one of three shapes
    after each event: running without score and completion time, cancelled
    with a completion time and without score, or completed with a
    completion time and a score between 0 and 100. In particular a status
    [pending] or [failed] is never left in the store, a cancelled scan
    carries no score, and every score lies between 0 and 100. *)
Theorem scans_stay_settled :
  forall (env : Env) (findingsByCheckType : CheckType -> list FindingTemplate)
         (validTarget : string -> bool) (events : list Event) (w : World),
    scansSettled w ->
    scansSettled (snd (run env findingsByCheckType validTarget events w)).
Proof.
  intros env cat valid events. induction events as [|e events IH]; intros w Hw.
  - exact Hw.
  - cbn [run]. pose proof (handle_keeps_settled env cat valid e w Hw) as He.
    destruct (handle env cat valid e w) as [o w'].
    specialize (IH w' He).
    destruct (run env cat valid events w') as [os w'']. exact IH.
Qed.

Lemma scans_stay_settled_witness :
  scansSettled (boot 0)
  /\ scansSettled
       (snd (run env_scans sslCatalogue anyTarget
               [PostScan quickSslScan; PostScan quickSslScan; CancelScan "uuid-0";
                Elapse 3000; TimerFires 0; TimerFires 0; GetScan "uuid-2"] (boot 0))).
Proof.
  assert (Hboot : scansSettled (boot 0)).
  { unfold scansSettled, boot. cbn [scans]. apply map_Forall_empty. }
  split; [exact Hboot|].
  exact (scans_stay_settled env_scans sslCatalogue anyTarget _ (boot 0) Hboot).
Defined.

(** ** Fetching the records of a technology *)

(** What [rateLimitedFetch] leaves behind, whatever comes back. *)
Lemma rateLimitedFetch_world (env : Env) (term : string) (w : World) :
  exists w',
    rateLimitedFetch env term w
    = (match fetchOutcome env (ticks w) term with
       | NetworkFailure => Throw FetchFailed
       | Responded r => Ok r
       end, w')
    /\ technologies w' = technologies w
    /\ ticks w' = S (ticks w)
    /\ requests w' = lastRequestTime w' :: requests w
    /\ lastRequestTime w + RATE_LIMIT_DELAY <= lastRequestTime w'
    /\ lastRequestTime w' <= clock w'
    /\ requestTerms w' = term :: requestTerms w.
Proof.
  unfold rateLimitedFetch, fetch, now, gets, sleep, modify, tick, throw, ret, bind,
    rateLimitWait.
  destruct (clock w - lastRequestTime w <? RATE_LIMIT_DELAY) eqn:Hlt;
    [apply Z.ltb_lt in Hlt|apply Z.ltb_ge in Hlt];
    cbn [technologies ticks requests lastRequestTime clock requestTerms
         set_clock set_lastRequestTime set_ticks set_requests set_requestTerms];
    destruct (fetchOutcome env (ticks w) term) as [|resp];
    (eexists; split; [reflexivity|]);
    cbn [technologies ticks requests lastRequestTime clock requestTerms
         set_clock set_lastRequestTime set_ticks set_requests set_requestTerms];
    repeat split; lia.
Qed.

Lemma fetchCves_resolves :
  forall (env : Env) (tech : Technology) (w : World),
    exists r w',
      fetchCvesForTechnology env tech w = (Ok r, w')
      /\ technologies w' = technologies w
      /\ ticks w' = S (ticks w)
      /\ requests w' = lastRequestTime w' :: requests w
      /\ lastRequestTime w + RATE_LIMIT_DELAY <= lastRequestTime w'
      /\ lastRequestTime w' <= clock w'
      /\ r = summaryOf (fetchOutcome env (ticks w) (searchTermOf tech))
      /\ requestTerms w' = searchTermOf tech :: requestTerms w.
Proof.
  intros env tech w. unfold fetchCvesForTechnology. fold (searchTermOf tech).
  destruct (rateLimitedFetch_world env (searchTermOf tech) w)
    as (w1 & Hrun & Htech & Hticks & Hreq & Hgap & Hclock & Hterms).
  unfold try_catch, bind at 1. rewrite Hrun. unfold summaryOf.
  destruct (fetchOutcome env (ticks w) (searchTermOf tech)) as [|resp].
  - exists zeroResult, w1. split; [reflexivity|]. tauto.
  - unfold json, sleep, modify, bind, throw, ret.
    destruct (resp_ok resp); cbn [negb].
    + destruct (resp_json resp) as [data|];
        (eexists _, _; split; [reflexivity|]);
        cbn [technologies ticks requests lastRequestTime clock requestTerms set_clock];
        repeat split; try assumption; lia.
    + destruct (resp_status resp =? 429); exists zeroResult, w1;
        (split; [reflexivity|]); tauto.
Qed.

(** [fetchCvesForTechnology] never rejects and sends exactly one request,
    for the search term of the technology and at least the delay after the
    time the limiter remembered, which it then remembers; it leaves the
    table alone, and it is not done before the request has left. When the
    request fails in any way (transport, status, body) the result is the
    zero result; when it brings a parsed success response, the result is the
    summary of that response. *)
Theorem fetchCves_never_rejects :
  forall (env : Env) (tech : Technology) (w : World),
    exists r w',
      fetchCvesForTechnology env tech w = (Ok r, w')
      /\ technologies w' = technologies w
      /\ ticks w' = S (ticks w)
      /\ requests w' = lastRequestTime w' :: requests w
      /\ lastRequestTime w + RATE_LIMIT_DELAY <= lastRequestTime w'
      /\ lastRequestTime w' <= clock w'
      /\ r = summaryOf (fetchOutcome env (ticks w) (searchTermOf tech))
      /\ requestTerms w' = searchTermOf tech :: requestTerms w.
Proof. exact fetchCves_resolves. Qed.


(** ** The summary of a response *)

Lemma insertSorted_perm {X} (cmp : X -> X -> Q) (x : X) (l : list X) :
  Permutation (insertSorted cmp x l) (x :: l).
Proof.
  induction l as [|y l IH]; simpl; [reflexivity|].
  destruct (Qle_bool (cmp x y) 0); [reflexivity|].
  rewrite IH. apply perm_swap.
Qed.

Lemma sort_perm {X} (cmp : X -> X -> Q) (l : list X) : Permutation (sort cmp l) l.
Proof.
  unfold sort. induction l as [|x l IH]; simpl; [reflexivity|].
  rewrite insertSorted_perm, IH. reflexivity.
Qed.

Lemma filter_map_length {X Y} (f : X -> Y) (p : Y -> bool) (l : list X) :
  length (List.filter p (List.map f l)) = length (List.filter (fun x => p (f x)) l).
Proof.
  induction l as [|x l IH]; [reflexivity|]. cbn [List.map List.filter].
  destruct (p (f x)); cbn [length]; rewrite IH; reflexivity.
Qed.

(** The summary holds one record per vulnerability of the page, in the
    order of the page, each with the identifier, the severity [getSeverity]
    gives, the score [getCvssScore] gives and the publication date of its
    raw record, and the total the response reports. The critical count is
    the number of raw records of the page whose severity is CRITICAL, the
    high count the number of those whose severity is HIGH; so neither is
    negative and together they are at most the size of the page. The top
    list holds five of the records, or all of them when the page has fewer:
    together with some others its records are the records of the summary. *)
Theorem summarise_shape :
  forall data : NvdResponse,
    List.map cveId (cves (summarise data))
    = List.map (fun item => cve_id (cve item)) (vulnerabilities data)
    /\ Forall2 recordOf (vulnerabilities data) (cves (summarise data))
    /\ totalCount (summarise data) = totalResults data
    /\ summary_criticalCount (summarise data) = countItems CRITICAL (vulnerabilities data)
    /\ summary_highCount (summarise data) = countItems HIGH (vulnerabilities data)
    /\ length (summary_topCves (summarise data))
       = Nat.min 5 (length (vulnerabilities data))
    /\ (exists others,
          Permutation (summary_topCves (summarise data) ++ others) (cves (summarise data)))
    /\ (forall c, List.In c (summary_topCves (summarise data)) ->
                  List.In c (cves (summarise data)))
    /\ 0 <= summary_criticalCount (summarise data)
    /\ 0 <= summary_highCount (summarise data)
    /\ summary_criticalCount (summarise data) + summary_highCount (summarise data)
       <= Z.of_nat (length (vulnerabilities data)).
Proof.
  intros data. unfold summarise, countItems.
  cbn [cves totalCount summary_topCves summary_criticalCount summary_highCount].
  set (recs := List.map toCveRecord (vulnerabilities data)).
  assert (Hlen : length recs = length (vulnerabilities data)) by apply length_map.
  split; [unfold recs; rewrite List.map_map; reflexivity|].
  split.
  { clear Hlen. unfold recs. clear recs.
    induction (vulnerabilities data) as [|item page IH]; cbn [List.map];
      [constructor|]. constructor; [repeat split|exact IH]. }
  split; [reflexivity|].
  split; [unfold recs; rewrite filter_map_length; reflexivity|].
  split; [unfold recs; rewrite filter_map_length; reflexivity|].
  split.
  { rewrite length_take, (Permutation_length (sort_perm compareCves recs)), Hlen.
    reflexivity. }
  split.
  { exists (drop 5 (sort compareCves recs)). rewrite take_drop. apply sort_perm. }
  split.
  { intros c Hin. apply (Permutation_in c (sort_perm compareCves recs)).
    rewrite <- (take_drop 5 (sort compareCves recs)).
    apply List.in_or_app. left. exact Hin. }
  split; [lia|]. split; [lia|].
  rewrite <- Hlen. clear Hlen. induction recs as [|c recs IH]; simpl; [lia|].
  destruct (cve_severity c); simpl; lia.
Qed.

(** ** The order of the top records *)









(** ** The checks and the table *)







(** ** What no check changes *)

Section ChecksKeep.
Variable env : Env.
(** A property of the world that counting a statement, rewriting the rows
    of one technology and fetching keep. *)
Variable I : World -> Prop.
Hypothesis I_ticks : forall n w, I w -> I (set_ticks n w).
Hypothesis I_rewrite : forall id u w,
  I w ->
  I (set_technologies
       (List.map (fun row => if hasId id row then setColumns u row else row)
          (technologies w)) w).
Hypothesis I_fetch : forall tech,
  triple I (fetchCvesForTechnology env tech) (fun _ => I) I.

Lemma updateTechnology_invariant (id : string) (u : TechnologyUpdates) :
  triple I (updateTechnology env id u) (fun _ => I) I.
Proof.
  intros w Hw. rewrite updateTechnology_run.
  destruct (dbFails env (ticks w)); cbv zeta.
  - apply I_ticks. exact Hw.
  - apply (I_rewrite id u (set_ticks (S (ticks w)) w)). apply I_ticks. exact Hw.
Qed.

Lemma getAllTechnologies_invariant :
  triple I (getAllTechnologies env) (fun _ => I) I.
Proof.
  intros w Hw. unfold getAllTechnologies, dbStatement, bind, tick, throw, ret, gets.
  destruct (dbFails env (ticks w)); apply I_ticks; exact Hw.
Qed.

Lemma checkSingle_invariant (tech : Technology) :
  triple I (checkSingleTechnology env (updateTechnology env) tech) (fun _ => I) I.
Proof.
  unfold checkSingleTechnology.
  eapply triple_bind with (R := fun _ => I); [apply updateTechnology_invariant|].
  intros u1. eapply triple_bind with (R := fun _ => I); [apply I_fetch|].
  intros r. eapply triple_bind with (R := fun _ => I); [apply triple_gets; auto|].
  intros date. apply updateTechnology_invariant.
Qed.

Lemma bulkCheck_invariant :
  triple I (bulkCheck env) (fun _ => I) I.
Proof.
  unfold bulkCheck, checkAllTechnologies.
  eapply triple_bind with (R := fun _ => I); [apply getAllTechnologies_invariant|].
  intros rows. apply triple_for_each. intros x _.
  eapply triple_try_catch with (R := I).
  - eapply triple_bind with (R := fun _ => I); [apply updateTechnology_invariant|].
    intros u1. eapply triple_bind with (R := fun _ => I); [apply I_fetch|].
    intros r. eapply triple_bind with (R := fun _ => I); [apply triple_gets; auto|].
    intros date. eapply triple_bind with (R := fun _ => I);
      [apply updateTechnology_invariant|].
    intros u2. apply triple_ret. auto.
  - intros e. eapply triple_bind with (R := fun _ => I);
      [apply updateTechnology_invariant|].
    intros u. apply triple_ret. auto.
Qed.
End ChecksKeep.

Lemma rewrite_rows_identity (id : string) (u : TechnologyUpdates) (rows : list Technology) :
  List.map identity (List.map (fun row => if hasId id row then setColumns u row else row) rows)
  = List.map identity rows.
Proof.
  rewrite List.map_map. apply List.map_ext. intros row.
  destruct (hasId id row); reflexivity.
Qed.

Lemma fetchCves_keeps_table (env : Env) (R : list Technology -> Prop) (tech : Technology) :
  triple (fun w => R (technologies w)) (fetchCvesForTechnology env tech)
    (fun _ w => R (technologies w)) (fun w => R (technologies w)).
Proof.
  intros w Hw.
  destruct (fetchCves_resolves env tech w) as (r & w' & Hrun & Htech & _).
  rewrite Hrun, Htech. exact Hw.
Qed.

(** Neither check adds or removes a row, and neither writes the
    identifier, the name, the vendor, the category, the CPE, the versions
    or the creation time of a row: whatever the store and the vulnerability
    database do, and whether the check resolves or rejects, the table holds
    afterwards, in some order, rows with these columns as they were. *)
Theorem checks_keep_identity :
  forall (env : Env) (w : World),
    Permutation (List.map identity (technologies (snd (bulkCheck env w))))
      (List.map identity (technologies w))
    /\ forall tech,
         Permutation
           (List.map identity
              (technologies (snd (checkSingleTechnology env (updateTechnology env) tech w))))
           (List.map identity (technologies w)).
Proof.
  intros env w.
  set (I := fun w' : World =>
              List.map identity (technologies w') = List.map identity (technologies w)).
  assert (Hticks : forall n w', I w' -> I (set_ticks n w')) by (intros n w' Hw'; exact Hw').
  assert (Hrw : forall id u w', I w' ->
            I (set_technologies
                 (List.map (fun row => if hasId id row then setColumns u row else row)
                    (technologies w')) w')).
  { intros id u w' Hw'. unfold I. cbn [technologies set_technologies].
    rewrite rewrite_rows_identity. exact Hw'. }
  assert (Hfetch : forall tech,
            triple I (fetchCvesForTechnology env tech) (fun _ => I) I).
  { intros tech.
    apply (fetchCves_keeps_table env
             (fun rows => List.map identity rows = List.map identity (technologies w))). }
  split.
  - assert (Hbulk : I (snd (bulkCheck env w))).
    { apply (triple_snd I (bulkCheck env) I w);
        [apply (bulkCheck_invariant env I Hticks Hrw Hfetch)|reflexivity]. }
    unfold I in Hbulk. rewrite Hbulk. reflexivity.
  - intros tech.
    assert (Hsingle : I (snd (checkSingleTechnology env (updateTechnology env) tech w))).
    { apply (triple_snd I (checkSingleTechnology env (updateTechnology env) tech) I w);
        [apply (checkSingle_invariant env I Hticks Hrw Hfetch)|reflexivity]. }
    unfold I in Hsingle. rewrite Hsingle. reflexivity.
Qed.

(** ** The request log *)

Lemma fetchCves_limiter (env : Env) (tech : Technology) :
  triple limiterSound (fetchCvesForTechnology env tech)
    (fun _ => limiterSound) limiterSound.
Proof.
  intros w [Hspaced Hlast].
  destruct (fetchCves_resolves env tech w)
    as (r & w' & Hrun & _ & _ & Hreq & Hgap & _).
  rewrite Hrun. unfold limiterSound. rewrite Hreq. split.
  - cbn [spaced]. split; [|exact Hspaced].
    destruct (requests w) as [|u older]; [exact Logic.I|]. lia.
  - lia.
Qed.

(** Used one caller at a time, as both checks use it, the limiter does what
    it is for: when the requests sent so far are the delay apart and the
    limiter remembers a time not before the last one, the same holds after
    a bulk check and after a single check, whatever the store and the
    vulnerability database do. *)
Theorem checks_keep_requests_spaced :
  forall (env : Env) (w : World),
    limiterSound w ->
    limiterSound (snd (bulkCheck env w))
    /\ forall tech,
         limiterSound (snd (checkSingleTechnology env (updateTechnology env) tech w)).
Proof.
  intros env w Hw.
  assert (Hticks : forall n w', limiterSound w' -> limiterSound (set_ticks n w'))
    by (intros n w' Hw'; exact Hw').
  assert (Hrw : forall id u w', limiterSound w' ->
            limiterSound
              (set_technologies
                 (List.map (fun row => if hasId id row then setColumns u row else row)
                    (technologies w')) w'))
    by (intros id u w' Hw'; exact Hw').
  split.
  - apply (triple_snd limiterSound (bulkCheck env) limiterSound w);
      [apply (bulkCheck_invariant env limiterSound Hticks Hrw (fetchCves_limiter env))
      |exact Hw].
  - intros tech.
    apply (triple_snd limiterSound
             (checkSingleTechnology env (updateTechnology env) tech) limiterSound w);
      [apply (checkSingle_invariant env limiterSound Hticks Hrw (fetchCves_limiter env))
      |exact Hw].
Qed.

Lemma checks_keep_requests_spaced_witness :
  limiterSound world_two
  /\ limiterSound (snd (bulkCheck env_one_critical world_two))
  /\ forall tech,
       limiterSound
         (snd (checkSingleTechnology env_one_critical (updateTechnology env_one_critical)
                 tech world_two)).
Proof.
  assert (H : limiterSound world_two) by (split; exact Logic.I).
  split; [exact H|].
  exact (checks_keep_requests_spaced env_one_critical world_two H).
Defined.

(** ** The mark of a check in progress *)

(** When the store never fails twice in a row, a bulk check leaves no row
    marked [checking] that was not marked before: a statement of the check
    of a technology that fails is followed by the revert to [unknown],
    which then goes through. *)
Theorem bulkCheck_leaves_none_checking :
  forall (env : Env) (w : World),
    neverTwiceInARow env ->
    noneChecking (technologies w) ->
    noneChecking (technologies (snd (bulkCheck env w))).
Proof.
  intros env w Hnever Hw.
  apply (triple_snd (fun w => noneChecking (technologies w)) (bulkCheck env)
           (fun w' => noneChecking (technologies w')) w);
    [apply (bulkCheck_reverts env Hnever)|exact Hw].
Qed.

Lemma bulkCheck_leaves_none_checking_witness :
  neverTwiceInARow env_writeback_fails
  /\ noneChecking (technologies world_two)
  /\ noneChecking (technologies (snd (bulkCheck env_writeback_fails world_two))).
Proof.
  assert (Hn : neverTwiceInARow env_writeback_fails).
  { intros n Hn. cbn in Hn |- *. apply Nat.eqb_eq in Hn. subst n. reflexivity. }
  assert (Hw : noneChecking (technologies world_two)).
  { repeat constructor; discriminate. }
  split; [exact Hn|]. split; [exact Hw|].
  exact (bulkCheck_leaves_none_checking env_writeback_fails world_two Hn Hw).
Defined.

(** ** The requests of a bulk check *)

Lemma checkAll_is_loop (env : Env) :
  bulkCheck env
  = (let* technologies := getAllTechnologies env in
     for_each technologies (checkOne env))%monad.
Proof. reflexivity. Qed.

Lemma checkOne_answers (env : Env) (x : Technology) (w : World) :
  storeAlwaysAnswers env ->
  exists w',
    checkOne env x w = (Ok tt, w')
    /\ requests w' = lastRequestTime w' :: requests w
    /\ requestTerms w' = searchTermOf x :: requestTerms w.
Proof.
  intros Hst. unfold checkOne, try_catch.
  unfold bind at 1. rewrite updateTechnology_run, Hst. cbv zeta.
  set (w1 := set_technologies _ _).
  destruct (fetchCves_resolves env x w1)
    as (r & w2 & Hrun & _ & _ & Hreq & _ & _ & _ & Hterms).
  unfold bind at 1. rewrite Hrun.
  unfold bind at 1. unfold now, gets.
  unfold bind at 1. rewrite updateTechnology_run, Hst. cbv zeta.
  unfold ret. eexists. split; [reflexivity|].
  cbn [requests requestTerms lastRequestTime set_technologies set_ticks].
  split; [exact Hreq|exact Hterms].
Qed.

Lemma loop_requests (env : Env) (l : list Technology) :
  storeAlwaysAnswers env ->
  forall w, exists w' times,
    for_each l (checkOne env) w = (Ok tt, w')
    /\ requests w' = times ++ requests w
    /\ length times = length l
    /\ requestTerms w' = rev (List.map searchTermOf l) ++ requestTerms w.
Proof.
  intros Hst. induction l as [|x l IH]; intros w.
  - exists w, []. auto.
  - destruct (checkOne_answers env x w Hst) as (w1 & Hrun & Hreq & Hterms).
    destruct (IH w1) as (w' & times & Hloop & Htimes & Hlen & Hasked).
    exists w', (times ++ [lastRequestTime w1]).
    cbn [for_each]. unfold bind. rewrite Hrun. split; [exact Hloop|]. split.
    { rewrite Htimes, Hreq, <- app_assoc. reflexivity. }
    split.
    { rewrite length_app, Hlen. simpl. lia. }
    rewrite Hasked, Hterms. cbn [List.map rev]. rewrite <- app_assoc. reflexivity.
Qed.

(** On a store that answers, a bulk check resolves and has sent exactly one
    request for each technology the table held when it started, for the
    search term of that technology: the search terms asked for are those of
    the rows, in the order the store returned the rows in, and there are as
    many request times as rows; this whatever the vulnerability database
    answers. (The request log has the newest request first.) *)
Theorem bulkCheck_one_request_each :
  forall (env : Env) (w : World),
    storeAlwaysAnswers env ->
    exists w' times asked,
      bulkCheck env w = (Ok tt, w')
      /\ requests w' = times ++ requests w
      /\ length times = length (technologies w)
      /\ requestTerms w' = asked ++ requestTerms w
      /\ rev asked
         = List.map searchTermOf (arrange (rowOrder env (ticks w)) (technologies w))
      /\ Permutation asked (List.map searchTermOf (technologies w)).
Proof.
  intros env w Hst. rewrite checkAll_is_loop.
  unfold bind at 1.
  assert (Hget : getAllTechnologies env w
                 = (Ok (arrange (rowOrder env (ticks w)) (technologies w)),
                    set_ticks (S (ticks w)) w)).
  { unfold getAllTechnologies, dbStatement, bind, tick, gets, throw, ret.
    rewrite Hst. reflexivity. }
  rewrite Hget.
  set (rows := arrange (rowOrder env (ticks w)) (technologies w)).
  destruct (loop_requests env rows Hst (set_ticks (S (ticks w)) w))
    as (w' & times & Hloop & Htimes & Hlen & Hasked).
  exists w', times, (rev (List.map searchTermOf rows)).
  cbn [requests requestTerms set_ticks] in Htimes, Hasked.
  split; [exact Hloop|]. split; [exact Htimes|]. split.
  { rewrite Hlen. unfold rows. apply Permutation_length, arrange_perm. }
  split; [exact Hasked|]. split; [apply rev_involutive|].
  rewrite <- Permutation_rev. apply Permutation_map. apply arrange_perm.
Qed.

(** The theorem on the store of the scenario, which returns the second row
    first: the bulk check asks for Express and then for React. *)
Lemma bulkCheck_one_request_each_witness :
  requestTerms (snd (bulkCheck env_slow world_two))
  = ["facebook react"; "expressjs express"]%string
  /\ storeAlwaysAnswers env_slow
  /\ exists w' times asked,
       bulkCheck env_slow world_two = (Ok tt, w')
       /\ requests w' = times ++ requests world_two
       /\ length times = length (technologies world_two)
       /\ requestTerms w' = asked ++ requestTerms world_two
       /\ rev asked
          = List.map searchTermOf
              (arrange (rowOrder env_slow (ticks world_two)) (technologies world_two))
       /\ Permutation asked (List.map searchTermOf (technologies world_two)).
Proof.
  assert (H : storeAlwaysAnswers env_slow) by (intros n; reflexivity).
  split; [vm_compute; reflexivity|]. split; [exact H|].
  exact (bulkCheck_one_request_each env_slow world_two H).
Defined.

(** ** The route of the single check *)

Lemma getTechnology_run (env : Env) (id : string) (w : World) :
  getTechnology env id w
  = if dbFails env (ticks w)
    then (Throw DbError, set_ticks (S (ticks w)) w)
    else (Ok (head (List.filter (hasId id) (technologies w))), set_ticks (S (ticks w)) w).
Proof.
  unfold getTechnology, dbStatement, bind, tick, throw, ret, gets.
  destruct (dbFails env (ticks w)); reflexivity.
Qed.



(** ** The technology table *)

Lemma filter_after_delete (id id' : string) (rows : list Technology) :
  List.filter (hasId id') (List.filter (fun row => negb (hasId id row)) rows)
  = if String.eqb id' id then [] else List.filter (hasId id') rows.
Proof.
  induction rows as [|row rows IH].
  - destruct (String.eqb id' id); reflexivity.
  - cbn [List.filter]. destruct (hasId id row) eqn:Hrow; cbn [negb].
    + rewrite IH. destruct (String.eqb_spec id' id) as [Hid|Hid]; [reflexivity|].
      destruct (hasId id' row) eqn:Hrow'; [|reflexivity].
      apply String.eqb_eq in Hrow, Hrow'. congruence.
    + cbn [List.filter]. rewrite IH.
      destruct (String.eqb_spec id' id) as [Hid|Hid]; [|reflexivity].
      destruct (hasId id' row) eqn:Hrow'; [|reflexivity].
      apply String.eqb_eq in Hrow'. apply String.eqb_neq in Hrow. congruence.
Qed.

(** Deleting a technology and then reading one, on a store that answers
    both statements: the deleted identifier is no longer found, and every
    other identifier reads as it did before the delete. *)
Theorem deleteTechnology_then_getTechnology :
  forall (env : Env) (id id' : string) (w : World),
    dbFails env (ticks w) = false ->
    dbFails env (S (ticks w)) = false ->
    fst ((deleteTechnology env id ;; getTechnology env id')%monad w)
    = Ok (if String.eqb id' id then None
          else head (List.filter (hasId id') (technologies w))).
Proof.
  intros env id id' w H0 H1.
  unfold bind at 1.
  assert (Hdel : deleteTechnology env id w
                 = (Ok true,
                    set_technologies
                      (List.filter (fun row => negb (hasId id row)) (technologies w))
                      (set_ticks (S (ticks w)) w))).
  { unfold deleteTechnology, dbStatement, bind, tick, throw, ret, modify.
    rewrite H0. reflexivity. }
  rewrite Hdel, getTechnology_run.
  cbn [ticks technologies set_technologies set_ticks]. rewrite H1. cbn [fst].
  rewrite filter_after_delete. destruct (String.eqb id' id); reflexivity.
Qed.

Lemma deleteTechnology_then_getTechnology_witness :
  dbFails env_offline (ticks world_two) = false
  /\ dbFails env_offline (S (ticks world_two)) = false
  /\ fst ((deleteTechnology env_offline "t-react" ;; getTechnology env_offline "t-express")%monad
            world_two)
     = Ok (if String.eqb "t-express" "t-react" then None
           else head (List.filter (hasId "t-express") (technologies world_two))).
Proof.
  split; [reflexivity|]. split; [reflexivity|].
  exact (deleteTechnology_then_getTechnology env_offline "t-react" "t-express" world_two
           eq_refl eq_refl).
Defined.

Section Seeding.
Variable env : Env.
Hypothesis answers : storeAlwaysAnswers env.
Hypothesis fresh : forall n m, uuid env n = uuid env m -> n = m.

Lemma fresh_not_stored (w : World) :
  idsHandedOut env w -> existsb (hasId (uuid env (ticks w))) (technologies w) = false.
Proof.
  unfold idsHandedOut. induction (technologies w) as [|row rows IH]; intros Hall;
    [reflexivity|].
  apply List.Forall_cons_iff in Hall. destruct Hall as [(k & Hk & Hrow) Hrows].
  cbn [existsb]. rewrite (IH Hrows), orb_false_r. unfold hasId.
  apply String.eqb_neq. rewrite Hrow. intros Heq. apply fresh in Heq. lia.
Qed.

Lemma createTechnology_run (tech : InsertTechnology) (w : World) :
  idsHandedOut env w ->
  createTechnology env tech w
  = (Ok (inserted env (clock w) (ticks w) tech),
     set_technologies (technologies w ++ [inserted env (clock w) (ticks w) tech])
       (set_ticks (S (ticks w)) w)).
Proof.
  intros Hw. unfold createTechnology, dbStatement, bind, tick, throw, ret, now, gets, modify.
  rewrite answers. cbn [technologies set_ticks tech_id clock].
  rewrite (fresh_not_stored w Hw). reflexivity.
Qed.

Lemma seed_loop (l : list InsertTechnology) :
  forall w, idsHandedOut env w ->
    exists w',
      for_each l (fun tech => createTechnology env tech ;; ret tt)%monad w = (Ok tt, w')
      /\ technologies w' = technologies w ++ insertedFrom env (clock w) (ticks w) l.
Proof.
  induction l as [|tech l IH]; intros w Hw.
  - exists w. cbn [for_each insertedFrom]. rewrite app_nil_r. auto.
  - set (w1 := set_technologies (technologies w ++ [inserted env (clock w) (ticks w) tech])
                 (set_ticks (S (ticks w)) w)).
    assert (Hw1 : idsHandedOut env w1).
    { unfold idsHandedOut, w1. cbn [technologies ticks set_technologies set_ticks].
      apply Forall_app. split.
      - eapply List.Forall_impl; [|exact Hw]. intros row (k & Hk & Hrow).
        exists k. split; [lia|exact Hrow].
      - constructor; [|constructor]. exists (ticks w). split; [lia|reflexivity]. }
    destruct (IH w1 Hw1) as (w' & Hloop & Htech).
    exists w'. cbn [for_each]. unfold bind at 1. unfold bind at 1.
    rewrite (createTechnology_run tech w Hw). unfold ret at 1.
    fold w1. split; [exact Hloop|].
    rewrite Htech. unfold w1. cbn [technologies ticks clock set_technologies set_ticks
                                    insertedFrom].
    rewrite <- app_assoc. reflexivity.
Qed.

Lemma insertedFrom_ids (date : Z) (l : list InsertTechnology) :
  forall start,
    List.map tech_id (insertedFrom env date start l)
    = List.map (uuid env) (seq start (length l)).
Proof.
  induction l as [|tech l IH]; intros start; [reflexivity|].
  cbn [insertedFrom List.map length seq]. rewrite IH. reflexivity.
Qed.

Lemma seedTechnologies_answers (w : World) :
  technologies w = [] ->
  exists w1 w2,
    seedTechnologies env w = (Ok tt, w1)
    /\ technologies w1 = insertedFrom env (clock w) (S (ticks w)) defaultTechnologies
    /\ NoDup (List.map tech_id (technologies w1))
    /\ seedTechnologies env w1 = (Ok tt, w2)
    /\ technologies w2 = technologies w1.
Proof.
  intros Hempty.
  assert (Hget : forall w0, getAllTechnologies env w0
                            = (Ok (arrange (rowOrder env (ticks w0)) (technologies w0)),
                               set_ticks (S (ticks w0)) w0)).
  { intros w0. unfold getAllTechnologies, dbStatement, bind, tick, throw, ret, gets.
    rewrite answers. reflexivity. }
  assert (Hw0 : idsHandedOut env (set_ticks (S (ticks w)) w)).
  { unfold idsHandedOut. cbn [technologies set_ticks]. rewrite Hempty. constructor. }
  destruct (seed_loop defaultTechnologies _ Hw0) as (w1 & Hloop & Htech).
  cbn [technologies ticks clock set_ticks] in Htech. rewrite Hempty in Htech.
  cbn [app] in Htech.
  exists w1, (set_ticks (S (ticks w1)) w1).
  split.
  { unfold seedTechnologies. unfold bind at 1. rewrite Hget, Hempty.
    cbn [arrange length Nat.eqb]. exact Hloop. }
  split; [exact Htech|]. split.
  { rewrite Htech, insertedFrom_ids. apply (@NoDup_fmap_2 nat string (uuid env) fresh), NoDup_seq. }
  split; [|reflexivity].
  unfold seedTechnologies. unfold bind at 1. rewrite Hget.
  rewrite (Permutation_length (arrange_perm (rowOrder env (ticks w1)) (technologies w1))).
  rewrite Htech. reflexivity.
Qed.
End Seeding.

(** Seeding, on a store that answers and hands out fresh identifiers: an
    empty table gets the twenty default technologies, in the order of the
    list, each as the insert leaves it and under an identifier of its own;
    seeding again changes nothing. *)
Theorem seedTechnologies_only_once :
  forall (env : Env) (w : World),
    storeAlwaysAnswers env ->
    (forall n m, uuid env n = uuid env m -> n = m) ->
    technologies w = [] ->
    exists w1 w2,
      seedTechnologies env w = (Ok tt, w1)
      /\ technologies w1 = insertedFrom env (clock w) (S (ticks w)) defaultTechnologies
      /\ NoDup (List.map tech_id (technologies w1))
      /\ seedTechnologies env w1 = (Ok tt, w2)
      /\ technologies w2 = technologies w1.
Proof.
  intros env w Hst Hfresh Hempty. exact (seedTechnologies_answers env Hst Hfresh w Hempty).
Qed.

Lemma uuids_fresh : forall n m, uuids n = uuids m -> n = m.
Proof.
  intros n m H. unfold uuids in H. cbn [String.append] in H.
  injection H as H. exact (pretty_nat_inj n m H).
Qed.

Lemma seedTechnologies_only_once_witness :
  storeAlwaysAnswers env_offline
  /\ (forall n m, uuid env_offline n = uuid env_offline m -> n = m)
  /\ technologies (boot 0) = []
  /\ exists w1 w2,
       seedTechnologies env_offline (boot 0) = (Ok tt, w1)
       /\ technologies w1
          = insertedFrom env_offline (clock (boot 0)) (S (ticks (boot 0))) defaultTechnologies
       /\ NoDup (List.map tech_id (technologies w1))
       /\ seedTechnologies env_offline w1 = (Ok tt, w2)
       /\ technologies w2 = technologies w1.
Proof.
  assert (H : storeAlwaysAnswers env_offline) by (intros n; reflexivity).
  split; [exact H|]. split; [exact uuids_fresh|]. split; [reflexivity|].
  exact (seedTechnologies_only_once env_offline (boot 0) H uuids_fresh eq_refl).
Defined.

(** ** The score on the pages *)

Ltac by_bands :=
  repeat match goal with
         | |- context [?a <=? ?b] => destruct (Z.leb_spec a b)
         | |- context [?a =? ?b] => destruct (Z.eqb_spec a b)
         end;
  first [reflexivity | exfalso; lia].

(** What the pages make of the score of a list of findings. The gauge of
    the results page labels it by the deductions: Secure up to 20, Fair up
    to 40, At Risk up to 60 and Critical beyond. The home page gives it the
    colour of the gauge, unless the deductions reach 100: the score is then
    0, which the home page takes for no score, showing dashes in the muted
    colour. *)
Theorem score_on_the_pages :
  forall (A : Type) (sev : HasSeverity A) (F : list A),
    Client.ScoreGauge.getScoreLabel (calculateSecurityScore F)
    = (if sumDeductions F <=? 20 then "Secure"
       else if sumDeductions F <=? 40 then "Fair"
       else if sumDeductions F <=? 60 then "At Risk"
       else "Critical")
    /\ Client.Home.getScoreColor (Some (calculateSecurityScore F))
       = (if 100 <=? sumDeductions F then "text-muted-foreground"
          else Client.ScoreGauge.color
                 (Client.ScoreGauge.getScoreColor (calculateSecurityScore F)))
    /\ Client.Home.scoreText (Some (calculateSecurityScore F))
       = (if 100 <=? sumDeductions F then Client.Home.Dashes
          else Client.Home.Number (calculateSecurityScore F)).
Proof.
  intros A sev F. rewrite score_formula.
  pose proof (sumDeductions_ge0 F) as Hge.
  generalize dependent (sumDeductions F). intros d Hge.
  unfold Client.ScoreGauge.getScoreLabel, Client.Home.getScoreColor,
    Client.Home.scoreText, Client.Home.falsy, Client.ScoreGauge.getScoreColor.
  change (default 0 (Some ?x)) with x.
  split; [|split].
  - by_bands.
  - by_bands.
  - by_bands.
Qed.
